(** * Bookshelf API (gorts-demo): models, repositories, services, handlers

    A shallow embedding of the Go packages [model], [repository], [service],
    [handler] and [middleware], and the properties the specification states
    about them.

    Conventions of the embedding.
    - A Go [string] is a sequence of bytes: Rocq's [string] (a list of 8-bit
      [ascii]); Go's [len(s)] is [String.length s].
    - A Go [int] is a [Z]; the code only compares it with zero.
    - A [time.Time] is a [Z], the number of nanoseconds since Go's zero
      instant; [time.Time{}] is [0].  Every call of [time.Now()] is an
      explicit argument [now] of the operation that makes it.
    - A Go [map[string]*T] is a [gmap string T]; the stored pointers are
      private copies, so the map holds values.
    - A method with a pointer receiver or argument that it writes to returns
      the written value next to its result. *)

From Stdlib Require Import ZArith String Ascii List Lia Sorted.
From stdpp Require Import base option list strings gmap fin_maps.

Local Open Scope string_scope.
Local Open Scope Z_scope.
Local Open Scope list_scope.

(** ** Time *)

Definition Time := Z.

Definition zeroTime : Time := 0.

(** [time.Time.IsZero] *)
Definition IsZero (t : Time) : bool := Z.eqb t zeroTime.

(** ** Errors

    The package-level error variables.  Each [errors.New] call yields a value
    with its own identity: [repository.ErrBookNotFound] and
    [service.ErrBookNotFound] carry the same text and are different errors. *)

Inductive errvar :=
| repository_ErrBookNotFound
| repository_ErrBookExists
| repository_ErrAuthorNotFound
| repository_ErrAuthorExists
| repository_ErrReadingListNotFound
| repository_ErrReadingListExists
| service_ErrInvalidBook
| service_ErrBookNotFound
| service_ErrDuplicateISBN
| service_ErrInvalidAuthor
| service_ErrAuthorNotFound
| service_ErrInvalidReadingList
| service_ErrReadingListNotFound
| service_ErrBookAlreadyInList
| service_ErrBookNotInList.

#[global] Instance errvar_eq_dec : EqDecision errvar.
Proof. solve_decision. Defined.

(** The text given to [errors.New] for each variable. *)
Definition errvar_text (v : errvar) : string :=
  match v with
  | repository_ErrBookNotFound => "book not found"
  | repository_ErrBookExists => "book already exists"
  | repository_ErrAuthorNotFound => "author not found"
  | repository_ErrAuthorExists => "author already exists"
  | repository_ErrReadingListNotFound => "reading list not found"
  | repository_ErrReadingListExists => "reading list already exists"
  | service_ErrInvalidBook => "invalid book data"
  | service_ErrBookNotFound => "book not found"
  | service_ErrDuplicateISBN => "book with this ISBN already exists"
  | service_ErrInvalidAuthor => "invalid author data"
  | service_ErrAuthorNotFound => "author not found"
  | service_ErrInvalidReadingList => "invalid reading list data"
  | service_ErrReadingListNotFound => "reading list not found"
  | service_ErrBookAlreadyInList => "book already in reading list"
  | service_ErrBookNotInList => "book not in reading list"
  end.

(** A non-nil [error] of the service and repository layers: one of the
    variables above, or [fmt.Errorf("%w: %v", v, detail)] wrapping one. *)
Inductive error :=
| ErrVar (v : errvar)
| Errorf_w (v : errvar) (detail : string).

#[global] Instance error_eq_dec : EqDecision error.
Proof. solve_decision. Defined.

(** [errors.Is]: identity with the target, after unwrapping. *)
Definition errors_Is (err : error) (target : errvar) : bool :=
  match err with
  | ErrVar v => bool_decide (v = target)
  | Errorf_w v _ => bool_decide (v = target)
  end.

(** [err.Error()] *)
Definition Error (err : error) : string :=
  match err with
  | ErrVar v => errvar_text v
  | Errorf_w v detail => errvar_text v +:+ ": " +:+ detail
  end.

(** ** Package model *)

Module Book.

Record t := mk {
  ID : string;
  Title : string;
  ISBN : string;
  AuthorID : string;
  PublishedAt : Time;
  Pages : Z;
  Genre : string;
  CreatedAt : Time;
  UpdatedAt : Time
}.

(** [Validate] returns the text of the [errors.New] it builds, [None] for
    [nil]. *)
Definition Validate (b : t) : option string :=
  if decide (Title b = "") then Some "title is required"
  else if (200 <? String.length (Title b))%nat
    then Some "title must be 200 characters or less"
  else if decide (ISBN b = "") then Some "isbn is required"
  else if decide (AuthorID b = "") then Some "author_id is required"
  else if Pages b <? 0 then Some "pages cannot be negative"
  else None.

(** [b.CreatedAt = c; b.UpdatedAt = u] *)
Definition stamp (c u : Time) (b : t) : t :=
  mk (ID b) (Title b) (ISBN b) (AuthorID b) (PublishedAt b) (Pages b)
     (Genre b) c u.

End Book.

Module Author.

Record t := mk {
  ID : string;
  Name : string;
  Bio : string;
  BirthDate : Time;
  Country : string;
  CreatedAt : Time;
  UpdatedAt : Time
}.

Definition Validate (a : t) : option string :=
  if decide (Name a = "") then Some "name is required"
  else if (100 <? String.length (Name a))%nat
    then Some "name must be 100 characters or less"
  else if (2000 <? String.length (Bio a))%nat
    then Some "bio must be 2000 characters or less"
  else None.

Definition HasBio (a : t) : bool := bool_decide (Bio a ≠ "").

Definition stamp (c u : Time) (a : t) : t :=
  mk (ID a) (Name a) (Bio a) (BirthDate a) (Country a) c u.

End Author.

Module ReadingList.

(** [BookIDs] is a slice; a nil slice and an empty one are both [[]]. *)
Record t := mk {
  ID : string;
  Name : string;
  Description : string;
  BookIDs : list string;
  CreatedAt : Time;
  UpdatedAt : Time
}.

Definition Validate (r : t) : option string :=
  if decide (Name r = "") then Some "name is required"
  else if (100 <? String.length (Name r))%nat
    then Some "name must be 100 characters or less"
  else if (500 <? String.length (Description r))%nat
    then Some "description must be 500 characters or less"
  else None.

Definition setBookIDs (ids : list string) (r : t) : t :=
  mk (ID r) (Name r) (Description r) ids (CreatedAt r) (UpdatedAt r).

(** The loop of [AddBook]: is [bookID] among the ids? *)
Fixpoint ContainsBook_ids (ids : list string) (bookID : string) : bool :=
  match ids with
  | [] => false
  | id :: rest =>
      if decide (id = bookID) then true else ContainsBook_ids rest bookID
  end.

Definition ContainsBook (r : t) (bookID : string) : bool :=
  ContainsBook_ids (BookIDs r) bookID.

(** [AddBook] returns its boolean and the receiver after the call. *)
Definition AddBook (r : t) (bookID : string) : bool * t :=
  if ContainsBook_ids (BookIDs r) bookID then (false, r)
  else (true, setBookIDs (BookIDs r ++ [bookID]) r).

(** The loop of [RemoveBook]: at the first index [i] holding [bookID] the
    slice becomes [append(ids[:i], ids[i+1:]...)]; [None] when the loop
    ends without a match. *)
Fixpoint RemoveBook_ids (ids : list string) (bookID : string)
  : option (list string) :=
  match ids with
  | [] => None
  | id :: rest =>
      if decide (id = bookID) then Some rest
      else match RemoveBook_ids rest bookID with
           | Some rest' => Some (id :: rest')
           | None => None
           end
  end.

Definition RemoveBook (r : t) (bookID : string) : bool * t :=
  match RemoveBook_ids (BookIDs r) bookID with
  | Some ids => (true, setBookIDs ids r)
  | None => (false, r)
  end.

Definition stamp (c u : Time) (r : t) : t :=
  mk (ID r) (Name r) (Description r) (BookIDs r) c u.

End ReadingList.

(** ** Package repository

    The three repositories ([BookRepository], [AuthorRepository],
    [ReadingListRepository]) run the same code over their own entity type and
    their own pair of error variables.  [Entity] collects what that code reads
    and writes of an entity; the repository operations are written once over
    it.  The locks ([sync.RWMutex]) serialise the operations and have no
    counterpart in a sequential model. *)

Class Entity (E : Type) := {
  entityID : E → string;
  createdAt : E → Time;
  updatedAt : E → Time;
  (** [e.CreatedAt = c; e.UpdatedAt = u] *)
  stamp : Time → Time → E → E;
  errNotFound : errvar;
  errExists : errvar;
  stamp_entityID : ∀ c u e, entityID (stamp c u e) = entityID e;
  stamp_createdAt : ∀ c u e, createdAt (stamp c u e) = c;
  stamp_updatedAt : ∀ c u e, updatedAt (stamp c u e) = u
}.

#[global] Instance Book_Entity : Entity Book.t := {|
  entityID := Book.ID;
  createdAt := Book.CreatedAt;
  updatedAt := Book.UpdatedAt;
  stamp := Book.stamp;
  errNotFound := repository_ErrBookNotFound;
  errExists := repository_ErrBookExists;
  stamp_entityID := λ _ _ _, eq_refl;
  stamp_createdAt := λ _ _ _, eq_refl;
  stamp_updatedAt := λ _ _ _, eq_refl
|}.

#[global] Instance Author_Entity : Entity Author.t := {|
  entityID := Author.ID;
  createdAt := Author.CreatedAt;
  updatedAt := Author.UpdatedAt;
  stamp := Author.stamp;
  errNotFound := repository_ErrAuthorNotFound;
  errExists := repository_ErrAuthorExists;
  stamp_entityID := λ _ _ _, eq_refl;
  stamp_createdAt := λ _ _ _, eq_refl;
  stamp_updatedAt := λ _ _ _, eq_refl
|}.

(** [ReadingListRepository] also copies the [BookIDs] slice into a fresh one
    ([make] and [copy]) wherever it copies the struct, and [Create] turns a nil
    slice into an empty one; on values both are the identity. *)
#[global] Instance ReadingList_Entity : Entity ReadingList.t := {|
  entityID := ReadingList.ID;
  createdAt := ReadingList.CreatedAt;
  updatedAt := ReadingList.UpdatedAt;
  stamp := ReadingList.stamp;
  errNotFound := repository_ErrReadingListNotFound;
  errExists := repository_ErrReadingListExists;
  stamp_entityID := λ _ _ _, eq_refl;
  stamp_createdAt := λ _ _ _, eq_refl;
  stamp_updatedAt := λ _ _ _, eq_refl
|}.

Module repository.
Section Repository.
Context {E : Type} `{!Entity E}.

(** [NewBookRepository] and its siblings: an empty map. *)
Definition New : gmap string E := ∅.

(** [Create]: the error, the argument after the call, the map after the
    call. *)
Definition Create (now : Time) (e : E) (r : gmap string E)
  : option error * E * gmap string E :=
  match r !! entityID e with
  | Some _ => (Some (ErrVar errExists), e, r)
  | None =>
      let e' := stamp now now e in
      (None, e', <[entityID e := e']> r)
  end.

Definition Get (id : string) (r : gmap string E) : E + error :=
  match r !! id with
  | None => inr (ErrVar errNotFound)
  | Some e => inl e
  end.

Definition Update (now : Time) (e : E) (r : gmap string E)
  : option error * E * gmap string E :=
  match r !! entityID e with
  | None => (Some (ErrVar errNotFound), e, r)
  | Some existing =>
      let e' := stamp (createdAt existing) now e in
      (None, e', <[entityID e := e']> r)
  end.

Definition Delete (id : string) (r : gmap string E)
  : option error * gmap string E :=
  match r !! id with
  | None => (Some (ErrVar errNotFound), r)
  | Some _ => (None, delete id r)
  end.

(** [List] ranges over the map; Go leaves the order open, the model
    takes the order of [map_to_list]. *)
Definition List (r : gmap string E) : list E := (map_to_list r).*2.

Definition Count (r : gmap string E) : Z := Z.of_nat (size r).

End Repository.
End repository.

(** ** Package service *)

Module service.

(** *** BookService *)

(** The ISBN loop of [CreateBook]. *)
Fixpoint CreateBook_scan (existingBooks : list Book.t) (book : Book.t)
  : bool :=
  match existingBooks with
  | [] => false
  | existing :: rest =>
      if decide (Book.ISBN existing = Book.ISBN book) then true
      else CreateBook_scan rest book
  end.

Definition CreateBook (now : Time) (book : Book.t)
    (repo : gmap string Book.t)
  : option error * Book.t * gmap string Book.t :=
  match Book.Validate book with
  | Some msg => (Some (Errorf_w service_ErrInvalidBook msg), book, repo)
  | None =>
      if CreateBook_scan (repository.List repo) book
      then (Some (ErrVar service_ErrDuplicateISBN), book, repo)
      else repository.Create now book repo
  end.

Definition GetBook (id : string) (repo : gmap string Book.t)
  : Book.t + error :=
  match repository.Get id repo with
  | inr err =>
      if errors_Is err repository_ErrBookNotFound
      then inr (ErrVar service_ErrBookNotFound)
      else inr err
  | inl book => inl book
  end.

(** The ISBN loop of [UpdateBook]. *)
Fixpoint UpdateBook_scan (existingBooks : list Book.t) (book : Book.t)
  : bool :=
  match existingBooks with
  | [] => false
  | existing :: rest =>
      if bool_decide (Book.ISBN existing = Book.ISBN book) &&
         negb (bool_decide (Book.ID existing = Book.ID book))
      then true
      else UpdateBook_scan rest book
  end.

Definition UpdateBook (now : Time) (book : Book.t)
    (repo : gmap string Book.t)
  : option error * Book.t * gmap string Book.t :=
  match Book.Validate book with
  | Some msg => (Some (Errorf_w service_ErrInvalidBook msg), book, repo)
  | None =>
      if UpdateBook_scan (repository.List repo) book
      then (Some (ErrVar service_ErrDuplicateISBN), book, repo)
      else
        match repository.Update now book repo with
        | (Some err, book', repo') =>
            if errors_Is err repository_ErrBookNotFound
            then (Some (ErrVar service_ErrBookNotFound), book', repo')
            else (Some err, book', repo')
        | (None, book', repo') => (None, book', repo')
        end
  end.

Definition DeleteBook (id : string) (repo : gmap string Book.t)
  : option error * gmap string Book.t :=
  match repository.Delete id repo with
  | (Some err, repo') =>
      if errors_Is err repository_ErrBookNotFound
      then (Some (ErrVar service_ErrBookNotFound), repo')
      else (Some err, repo')
  | (None, repo') => (None, repo')
  end.

Definition ListBooks (repo : gmap string Book.t) : list Book.t :=
  repository.List repo.

Definition GetBookCount (repo : gmap string Book.t) : Z :=
  repository.Count repo.

(** *** AuthorService *)

Definition CreateAuthor (now : Time) (author : Author.t)
    (repo : gmap string Author.t)
  : option error * Author.t * gmap string Author.t :=
  match Author.Validate author with
  | Some msg => (Some (Errorf_w service_ErrInvalidAuthor msg), author, repo)
  | None => repository.Create now author repo
  end.

Definition GetAuthor (id : string) (repo : gmap string Author.t)
  : Author.t + error :=
  match repository.Get id repo with
  | inr err =>
      if errors_Is err repository_ErrAuthorNotFound
      then inr (ErrVar service_ErrAuthorNotFound)
      else inr err
  | inl author => inl author
  end.

Definition UpdateAuthor (now : Time) (author : Author.t)
    (repo : gmap string Author.t)
  : option error * Author.t * gmap string Author.t :=
  match Author.Validate author with
  | Some msg => (Some (Errorf_w service_ErrInvalidAuthor msg), author, repo)
  | None =>
      match repository.Update now author repo with
      | (Some err, author', repo') =>
          if errors_Is err repository_ErrAuthorNotFound
          then (Some (ErrVar service_ErrAuthorNotFound), author', repo')
          else (Some err, author', repo')
      | (None, author', repo') => (None, author', repo')
      end
  end.

Definition DeleteAuthor (id : string) (repo : gmap string Author.t)
  : option error * gmap string Author.t :=
  match repository.Delete id repo with
  | (Some err, repo') =>
      if errors_Is err repository_ErrAuthorNotFound
      then (Some (ErrVar service_ErrAuthorNotFound), repo')
      else (Some err, repo')
  | (None, repo') => (None, repo')
  end.

(** *** ReadingListService *)

Definition CreateReadingList (now : Time) (list : ReadingList.t)
    (repo : gmap string ReadingList.t)
  : option error * ReadingList.t * gmap string ReadingList.t :=
  match ReadingList.Validate list with
  | Some msg =>
      (Some (Errorf_w service_ErrInvalidReadingList msg), list, repo)
  | None => repository.Create now list repo
  end.

Definition GetReadingList (id : string) (repo : gmap string ReadingList.t)
  : ReadingList.t + error :=
  match repository.Get id repo with
  | inr err =>
      if errors_Is err repository_ErrReadingListNotFound
      then inr (ErrVar service_ErrReadingListNotFound)
      else inr err
  | inl list => inl list
  end.

Definition UpdateReadingList (now : Time) (list : ReadingList.t)
    (repo : gmap string ReadingList.t)
  : option error * ReadingList.t * gmap string ReadingList.t :=
  match ReadingList.Validate list with
  | Some msg =>
      (Some (Errorf_w service_ErrInvalidReadingList msg), list, repo)
  | None =>
      match repository.Update now list repo with
      | (Some err, list', repo') =>
          if errors_Is err repository_ErrReadingListNotFound
          then (Some (ErrVar service_ErrReadingListNotFound), list', repo')
          else (Some err, list', repo')
      | (None, list', repo') => (None, list', repo')
      end
  end.

Definition DeleteReadingList (id : string)
    (repo : gmap string ReadingList.t)
  : option error * gmap string ReadingList.t :=
  match repository.Delete id repo with
  | (Some err, repo') =>
      if errors_Is err repository_ErrReadingListNotFound
      then (Some (ErrVar service_ErrReadingListNotFound), repo')
      else (Some err, repo')
  | (None, repo') => (None, repo')
  end.

(** [AddBookToList] reads [bookRepo] and writes [repo]: the error and the
    reading-list map after the call. *)
Definition AddBookToList (now : Time) (listID bookID : string)
    (repo : gmap string ReadingList.t) (bookRepo : gmap string Book.t)
  : option error * gmap string ReadingList.t :=
  match repository.Get bookID bookRepo with
  | inr err =>
      if errors_Is err repository_ErrBookNotFound
      then (Some (ErrVar service_ErrBookNotFound), repo)
      else (Some err, repo)
  | inl _ =>
      match repository.Get listID repo with
      | inr err =>
          if errors_Is err repository_ErrReadingListNotFound
          then (Some (ErrVar service_ErrReadingListNotFound), repo)
          else (Some err, repo)
      | inl list =>
          let '(added, list) := ReadingList.AddBook list bookID in
          if negb added
          then (Some (ErrVar service_ErrBookAlreadyInList), repo)
          else
            let '(err, _, repo') := repository.Update now list repo in
            (err, repo')
      end
  end.

Definition RemoveBookFromList (now : Time) (listID bookID : string)
    (repo : gmap string ReadingList.t)
  : option error * gmap string ReadingList.t :=
  match repository.Get listID repo with
  | inr err =>
      if errors_Is err repository_ErrReadingListNotFound
      then (Some (ErrVar service_ErrReadingListNotFound), repo)
      else (Some err, repo)
  | inl list =>
      let '(removed, list) := ReadingList.RemoveBook list bookID in
      if negb removed
      then (Some (ErrVar service_ErrBookNotInList), repo)
      else
        let '(err, _, repo') := repository.Update now list repo in
        (err, repo')
  end.

End service.

(** ** Package handler *)

Module handler.

(** What [respondJSON] encodes: the [{"error": message}] object of
    [respondError], or a book. *)
Inductive payload :=
| ErrorBody (message : string)
| BookBody (book : Book.t).

Record Response := mkResponse {
  StatusCode : Z;
  Body : payload
}.

Definition StatusCreated : Z := 201.
Definition StatusBadRequest : Z := 400.
Definition StatusConflict : Z := 409.
Definition StatusInternalServerError : Z := 500.

Definition respondJSON (status : Z) (data : payload) : Response :=
  mkResponse status data.

Definition respondError (status : Z) (message : string) : Response :=
  respondJSON status (ErrorBody message).

Section BookHandler.
(** [json.NewDecoder(r.Body).Decode(&book)] of the standard library:
    [None] when it reports an error. *)
Variable json_Decode : string → option Book.t.

(** [createBook] on the request body: the response written and the book
    repository after the call. *)
Definition createBook (now : Time) (body : string)
    (repo : gmap string Book.t)
  : Response * gmap string Book.t :=
  match json_Decode body with
  | None => (respondError StatusBadRequest "Invalid JSON", repo)
  | Some book =>
      match service.CreateBook now book repo with
      | (Some err, _, repo') =>
          if errors_Is err service_ErrInvalidBook
          then (respondError StatusBadRequest (Error err), repo')
          else if errors_Is err service_ErrDuplicateISBN
          then (respondError StatusConflict
                  "Book with this ISBN already exists", repo')
          else (respondError StatusInternalServerError
                  "Failed to create book", repo')
      | (None, book', repo') =>
          (respondJSON StatusCreated (BookBody book'), repo')
      end
  end.
End BookHandler.

End handler.

(** ** Package middleware (auth.go) *)

Module middleware.

Record Credentials := mkCredentials {
  cred_Username : string;
  Password : string
}.

Record User := mkUser {
  Username : string;
  Role : string
}.

(** The [UserStore] interface.  [Authenticate] returns a [*User], [None]
    for nil, and a boolean. *)
Class UserStore (S : Type) := {
  Authenticate : S → string → string → option User * bool
}.

Record InMemoryUserStore := mkStore {
  users : gmap string Credentials;
  roles : gmap string string
}.

Definition NewInMemoryUserStore : InMemoryUserStore := mkStore ∅ ∅.

Definition AddUser (s : InMemoryUserStore) (username password role : string)
  : InMemoryUserStore :=
  mkStore (<[username := mkCredentials username password]> (users s))
          (<[username := role]> (roles s)).

(** [subtle.ConstantTimeCompare(x, y) == 1]: same length, same bytes. *)
Definition ConstantTimeCompare (x y : string) : Z :=
  if decide (x = y) then 1 else 0.

(** A missing key of [s.roles] reads as the empty string. *)
Definition InMemoryUserStore_Authenticate (s : InMemoryUserStore)
    (username password : string) : option User * bool :=
  match users s !! username with
  | None => (None, false)
  | Some creds =>
      if negb (ConstantTimeCompare (Password creds) password =? 1)
      then (None, false)
      else (Some (mkUser username (default "" (roles s !! username))), true)
  end.

#[global] Instance InMemoryUserStore_UserStore : UserStore InMemoryUserStore :=
  {| Authenticate := InMemoryUserStore_Authenticate |}.

(** *** Strings *)

Definition asciiLower (c : ascii) : ascii :=
  let n := nat_of_ascii c in
  if ((65 <=? n) && (n <=? 90))%nat then ascii_of_nat (n + 32) else c.

(** [strings.EqualFold(s, t)] for an ASCII [t] of the length of [s], the
    only use the code makes of it ([t] is the six bytes of the prefix):
    equality of bytes up to the case of ASCII letters.  A rune of several
    bytes among the bytes of [s] (U+017F folds to the letter s) leaves [s]
    with fewer runes than [t] has, and an invalid byte decodes to U+FFFD;
    Go's rune-wise comparison fails on both, as this one does. *)
Fixpoint EqualFold (s t : string) : bool :=
  match s, t with
  | EmptyString, EmptyString => true
  | String a s', String b t' =>
      Ascii.eqb (asciiLower a) (asciiLower b) && EqualFold s' t'
  | _, _ => false
  end.

(** [strings.IndexByte]: the index of the first [c], or -1. *)
Fixpoint IndexByte (s : string) (c : ascii) : Z :=
  match s with
  | EmptyString => -1
  | String a s' =>
      if Ascii.eqb a c then 0
      else let i := IndexByte s' c in if i <? 0 then -1 else i + 1
  end.

(** [s[:n]] and [s[n:]] for [0 <= n <= len(s)] *)
Definition slice_to (s : string) (n : nat) : string := substring 0 n s.
Definition slice_from (s : string) (n : nat) : string :=
  substring n (String.length s - n) s.

Definition quote : string := String (ascii_of_nat 34) EmptyString.
Definition newline : string := String (ascii_of_nat 10) EmptyString.
Definition colon : ascii := ascii_of_nat 58.

(** *** Requests and responses *)

(** What the middleware reads of a request: the [Authorization] header
    ([Header.Get] gives the empty string when it is missing) and the value
    of the context under [UserContextKey] ([None]: no value, or a nil
    pointer). *)
Record Request := mkRequest {
  Authorization : string;
  ctxUser : option User
}.

Record Response := mkResponse {
  StatusCode : Z;
  Header : gmap string string;
  Body : string
}.

Definition StatusUnauthorized : Z := 401.

(** [http.Error] on a response with headers [h]. *)
Definition http_Error (h : gmap string string) (msg : string) (code : Z)
  : Response :=
  mkResponse code
    (<["X-Content-Type-Options" := "nosniff"]>
       (<["Content-Type" := "text/plain; charset=utf-8"]>
          (delete "Content-Length" h)))
    (msg +:+ newline).

Definition requireAuth (realm : string) : Response :=
  http_Error
    (<["WWW-Authenticate" := "Basic realm=" +:+ quote +:+ realm +:+ quote]> ∅)
    "Unauthorized" StatusUnauthorized.

(** What a middleware does with a request: it answers, or it calls [next]
    on a request. *)
Inductive Outcome :=
| Respond (resp : Response)
| ServeNext (r : Request).

Section BasicAuth.
(** [base64.StdEncoding.DecodeString] of the standard library: [None]
    when it reports an error. *)
Variable base64_DecodeString : string → option string.

Definition parseBasicAuth (auth : string) : string * string * bool :=
  let prefix := "Basic " in
  if (String.length auth <? String.length prefix)%nat
     || negb (EqualFold (slice_to auth (String.length prefix)) prefix)
  then ("", "", false)
  else
    match base64_DecodeString (slice_from auth (String.length prefix)) with
    | None => ("", "", false)
    | Some decodedStr =>
        let colonIdx := IndexByte decodedStr colon in
        if colonIdx <? 0 then ("", "", false)
        else (slice_to decodedStr (Z.to_nat colonIdx),
              slice_from decodedStr (Z.to_nat (colonIdx + 1)),
              true)
    end.

Context {S : Type} `{!UserStore S}.

Definition BasicAuth (store : S) (realm : string) (r : Request)
  : Outcome :=
  let '(username, password, ok) := parseBasicAuth (Authorization r) in
  if negb ok then Respond (requireAuth realm)
  else
    let '(user, authenticated) := Authenticate store username password in
    if negb authenticated then Respond (requireAuth realm)
    else ServeNext (mkRequest (Authorization r) user).
End BasicAuth.

End middleware.

(** ** Definitions used by the statements *)

(** *** The validation rules as the specification lists them

    A rule is the test of its violation and the text of its failure;
    [first_violated] reports the first rule of the list that is violated. *)

Definition rule (A : Type) : Type := (A → bool) * string.

Fixpoint first_violated {A : Type} (rules : list (rule A)) (a : A)
  : option string :=
  match rules with
  | [] => None
  | (violated, msg) :: rest =>
      if violated a then Some msg else first_violated rest a
  end.

Definition Book_rules : list (rule Book.t) :=
  [ (λ b, bool_decide (Book.Title b = ""), "title is required");
    (λ b, (200 <? String.length (Book.Title b))%nat,
      "title must be 200 characters or less");
    (λ b, bool_decide (Book.ISBN b = ""), "isbn is required");
    (λ b, bool_decide (Book.AuthorID b = ""), "author_id is required");
    (λ b, Book.Pages b <? 0, "pages cannot be negative") ].

(** *** Well-formed repositories

    Every repository operation stores an entity under its own identifier. *)

Definition keyed_by_ID {E : Type} `{!Entity E} (r : gmap string E) : Prop :=
  map_Forall (λ id e, entityID e = id) r.

(** No two stored books share an ISBN: what [BookService] maintains. *)
Definition isbn_unique (repo : gmap string Book.t) : Prop :=
  ∀ id1 id2 b1 b2,
    repo !! id1 = Some b1 → repo !! id2 = Some b2 →
    Book.ISBN b1 = Book.ISBN b2 → id1 = id2.

(** Some stored book satisfies [P]. *)
Definition stored_book (repo : gmap string Book.t) (P : Book.t → Prop)
  : Prop :=
  ∃ id existing, repo !! id = Some existing ∧ P existing.

(** *** Runs of repository operations under a clock *)

Inductive RepoOp (E : Type) :=
| OpCreate (e : E)
| OpUpdate (e : E)
| OpDelete (id : string).
Arguments OpCreate {E} e.
Arguments OpUpdate {E} e.
Arguments OpDelete {E} id.

Section Runs.
Context {E : Type} `{!Entity E}.

(** One call at clock reading [now]; a failed call leaves the map as it
    is. *)
Definition step (now : Time) (op : RepoOp E) (r : gmap string E)
  : gmap string E :=
  match op with
  | OpCreate e => (repository.Create now e r).2
  | OpUpdate e => (repository.Update now e r).2
  | OpDelete id => (repository.Delete id r).2
  end.




(** Every stored entity was created no later than it was last updated, and
    that no later than [clock]. *)
Definition stamped_by (clock : Time) (r : gmap string E) : Prop :=
  map_Forall (λ _ e, createdAt e ≤ updatedAt e ∧ updatedAt e ≤ clock) r.

End Runs.

(** *** The services over the three repositories *)

Record World := mkWorld {
  bookRepo : gmap string Book.t;
  authorRepo : gmap string Author.t;
  listRepo : gmap string ReadingList.t
}.

Inductive Call :=
| CreateBook (book : Book.t)
| GetBook (id : string)
| UpdateBook (book : Book.t)
| DeleteBook (id : string)
| CreateAuthor (author : Author.t)
| GetAuthor (id : string)
| UpdateAuthor (author : Author.t)
| DeleteAuthor (id : string)
| CreateReadingList (list : ReadingList.t)
| GetReadingList (id : string)
| UpdateReadingList (list : ReadingList.t)
| DeleteReadingList (id : string)
| AddBookToList (listID bookID : string)
| RemoveBookFromList (listID bookID : string).

Definition get_error {A : Type} (res : A + error) : option error :=
  match res with inl _ => None | inr err => Some err end.

(** One service call at clock reading [now]: the error it returns and the
    repositories after it. *)
Definition exec (now : Time) (c : Call) (w : World) : option error * World :=
  match c with
  | CreateBook book =>
      let '(err, _, repo) := service.CreateBook now book (bookRepo w) in
      (err, mkWorld repo (authorRepo w) (listRepo w))
  | GetBook id => (get_error (service.GetBook id (bookRepo w)), w)
  | UpdateBook book =>
      let '(err, _, repo) := service.UpdateBook now book (bookRepo w) in
      (err, mkWorld repo (authorRepo w) (listRepo w))
  | DeleteBook id =>
      let '(err, repo) := service.DeleteBook id (bookRepo w) in
      (err, mkWorld repo (authorRepo w) (listRepo w))
  | CreateAuthor author =>
      let '(err, _, repo) := service.CreateAuthor now author (authorRepo w) in
      (err, mkWorld (bookRepo w) repo (listRepo w))
  | GetAuthor id => (get_error (service.GetAuthor id (authorRepo w)), w)
  | UpdateAuthor author =>
      let '(err, _, repo) := service.UpdateAuthor now author (authorRepo w) in
      (err, mkWorld (bookRepo w) repo (listRepo w))
  | DeleteAuthor id =>
      let '(err, repo) := service.DeleteAuthor id (authorRepo w) in
      (err, mkWorld (bookRepo w) repo (listRepo w))
  | CreateReadingList list =>
      let '(err, _, repo) := service.CreateReadingList now list (listRepo w) in
      (err, mkWorld (bookRepo w) (authorRepo w) repo)
  | GetReadingList id =>
      (get_error (service.GetReadingList id (listRepo w)), w)
  | UpdateReadingList list =>
      let '(err, _, repo) := service.UpdateReadingList now list (listRepo w) in
      (err, mkWorld (bookRepo w) (authorRepo w) repo)
  | DeleteReadingList id =>
      let '(err, repo) := service.DeleteReadingList id (listRepo w) in
      (err, mkWorld (bookRepo w) (authorRepo w) repo)
  | AddBookToList listID bookID =>
      let '(err, repo) :=
        service.AddBookToList now listID bookID (listRepo w) (bookRepo w) in
      (err, mkWorld (bookRepo w) (authorRepo w) repo)
  | RemoveBookFromList listID bookID =>
      let '(err, repo) :=
        service.RemoveBookFromList now listID bookID (listRepo w) in
      (err, mkWorld (bookRepo w) (authorRepo w) repo)
  end.

(** Every repository of the world stores its entities under their ids. *)
Definition world_keyed (w : World) : Prop :=
  keyed_by_ID (bookRepo w) ∧ keyed_by_ID (authorRepo w) ∧
  keyed_by_ID (listRepo w).

(** *** Strings of a given length, for the boundary cases *)


(** *** Reading an Authorization header *)

(** [strings.ToLower] on ASCII letters, byte by byte. *)
Fixpoint lower (s : string) : string :=
  match s with
  | EmptyString => EmptyString
  | String a s' => String (middleware.asciiLower a) (lower s')
  end.

Definition contains_byte (s : string) (c : ascii) : Prop :=
  ∃ before after, s = before +:+ String c after.

(** The header reads as Basic credentials [username], [password]: a prefix
    that is "Basic " up to the case of its letters, then a payload whose
    base64 decoding is [username], a colon, [password], with no colon in
    [username]. *)
Definition basic_credentials (base64_DecodeString : string → option string)
    (auth username password : string) : Prop :=
  ∃ prefix payload decoded,
    auth = prefix +:+ payload ∧
    lower prefix = "basic " ∧
    base64_DecodeString payload = Some decoded ∧
    decoded = username +:+ String middleware.colon password ∧
    ¬ contains_byte username middleware.colon.

(** *** Sample data for the instances below *)

Definition valid_book : Book.t :=
  Book.mk "book-1" "The Go Programming Language" "978-0134190440" "author-1"
          0 0 "" 0 0.

Definition one_book : gmap string Book.t :=
  <["book-1" := Book.mk "book-1" "T" "111" "a1" 0 0 "" 5 5]> ∅.

Definition two_books : ReadingList.t :=
  ReadingList.mk "list-1" "Summer" "" ["book-1"; "book-2"] 7 9.

Definition one_list : gmap string ReadingList.t :=
  <["list-1" := two_books]> ∅.




Definition sample_decode (s : string) : option string :=
  if decide (s = "dXNlcjpwYXNz") then Some "user:pass" else None.

Definition sample_store : middleware.InMemoryUserStore :=
  middleware.AddUser middleware.NewInMemoryUserStore "user" "pass" "admin".

(** * The rest of the packages *)

(** ** Package repository: queries *)

Module BookRepository.

(** [FindByAuthor] ranges over the map as [List] does and keeps the books
    whose [AuthorID] is [authorID]. *)
Definition FindByAuthor (authorID : string) (r : gmap string Book.t)
  : list Book.t :=
  List.filter (λ book, bool_decide (Book.AuthorID book = authorID))
    (repository.List r).

End BookRepository.

Module AuthorRepository.

Definition FindByCountry (country : string) (r : gmap string Author.t)
  : list Author.t :=
  List.filter (λ author, bool_decide (Author.Country author = country))
    (repository.List r).

End AuthorRepository.

Module ReadingListRepository.

Definition FindByBook (bookID : string) (r : gmap string ReadingList.t)
  : list ReadingList.t :=
  List.filter (λ list, ReadingList.ContainsBook list bookID)
    (repository.List r).

End ReadingListRepository.

(** ** Package service: queries *)

Module BookService.

Definition GetBooksByAuthor (authorID : string) (repo : gmap string Book.t)
  : list Book.t :=
  BookRepository.FindByAuthor authorID repo.

End BookService.

Module AuthorService.

Definition ListAuthors (repo : gmap string Author.t) : list Author.t :=
  repository.List repo.

Definition GetAuthorsByCountry (country : string)
    (repo : gmap string Author.t) : list Author.t :=
  AuthorRepository.FindByCountry country repo.

Definition GetAuthorCount (repo : gmap string Author.t) : Z :=
  repository.Count repo.

End AuthorService.

Module ReadingListService.

Definition ListReadingLists (repo : gmap string ReadingList.t)
  : list ReadingList.t :=
  repository.List repo.

Definition GetListsContainingBook (bookID : string)
    (repo : gmap string ReadingList.t) : list ReadingList.t :=
  ReadingListRepository.FindByBook bookID repo.

Definition GetReadingListCount (repo : gmap string ReadingList.t) : Z :=
  repository.Count repo.

End ReadingListService.

(** ** Definitions used by the further statements *)

Definition Author_rules : list (rule Author.t) :=
  [ (λ a, bool_decide (Author.Name a = ""), "name is required");
    (λ a, (100 <? String.length (Author.Name a))%nat,
      "name must be 100 characters or less");
    (λ a, (2000 <? String.length (Author.Bio a))%nat,
      "bio must be 2000 characters or less") ].

Definition ReadingList_rules : list (rule ReadingList.t) :=
  [ (λ r, bool_decide (ReadingList.Name r = ""), "name is required");
    (λ r, (100 <? String.length (ReadingList.Name r))%nat,
      "name must be 100 characters or less");
    (λ r, (500 <? String.length (ReadingList.Description r))%nat,
      "description must be 500 characters or less") ].




(** A run of service calls, each at its clock reading. *)
Fixpoint exec_run (calls : list (Time * Call)) (w : World) : World :=
  match calls with
  | [] => w
  | (now, c) :: rest => exec_run rest (exec now c w).2
  end.

Fixpoint times_nondecreasing (clock : Time) (times : list Time) : Prop :=
  match times with
  | [] => True
  | now :: rest => clock ≤ now ∧ times_nondecreasing now rest
  end.

Definition empty_world : World := mkWorld ∅ ∅ ∅.

(** The calls that hand a whole reading list to the repository pass member
    ids without duplicates. *)
Definition lists_given_NoDup (c : Call) : Prop :=
  match c with
  | CreateReadingList list | UpdateReadingList list =>
      NoDup (ReadingList.BookIDs list)
  | _ => True
  end.

Definition sample_world : World :=
  mkWorld (<["book-2" := Book.mk "book-2" "U" "222" "a1" 0 0 "" 5 5]> one_book)
          (<["author-1" := Author.mk "author-1" "Ann" "" 0 "USA" 3 3]> ∅)
          one_list.

(** No stored reading list has an id twice among its members. *)
Definition lists_NoDup (r : gmap string ReadingList.t) : Prop :=
  map_Forall (λ _ l, NoDup (ReadingList.BookIDs l)) r.

(** What a run of service calls from empty repositories maintains, [clock]
    being the last clock reading. *)
Definition world_inv (clock : Time) (w : World) : Prop :=
  world_keyed w ∧ isbn_unique (bookRepo w) ∧
  stamped_by clock (bookRepo w) ∧ stamped_by clock (authorRepo w) ∧
  stamped_by clock (listRepo w).

Fixpoint last_time (clock : Time) (times : list Time) : Time :=
  match times with
  | [] => clock
  | now :: rest => last_time now rest
  end.

(** ** Package handler: routing and the other handlers

    The handlers are functions from the request and the repositories their
    service holds to the response written and the repositories after the
    call.  [api.Response] extends [handler.Response] with the bodies the
    other handlers write. *)

Module api.

(** What the handlers read of a request: the method, [r.URL.Path], the value
    of the query parameter [country] (empty when it is missing) and the
    body. *)
Record Request := mkRequest {
  Method : string;
  Path : string;
  Country : string;
  Body : string
}.

(** What [respondJSON] is given to encode. *)
Inductive value :=
| ErrorObject (message : string)
| BookValue (book : Book.t)
| BooksValue (books : list Book.t)
| AuthorValue (author : Author.t)
| AuthorsValue (authors : list Author.t)
| ListValue (list : ReadingList.t)
| ListsValue (lists : list ReadingList.t).

(** A response body: JSON from [respondJSON], the text and newline of
    [http.Error], or nothing after a bare [WriteHeader]. *)
Inductive content :=
| JSON (data : value)
| Text (text : string)
| Empty.

Record Response := mkResponse {
  StatusCode : Z;
  Content : content
}.

Definition MethodGet : string := "GET".
Definition MethodPost : string := "POST".
Definition MethodPut : string := "PUT".
Definition MethodDelete : string := "DELETE".

Definition StatusOK : Z := 200.
Definition StatusCreated : Z := 201.
Definition StatusNoContent : Z := 204.
Definition StatusBadRequest : Z := 400.
Definition StatusNotFound : Z := 404.
Definition StatusMethodNotAllowed : Z := 405.
Definition StatusConflict : Z := 409.
Definition StatusInternalServerError : Z := 500.

Definition respondJSON (status : Z) (data : value) : Response :=
  mkResponse status (JSON data).

Definition respondError (status : Z) (message : string) : Response :=
  respondJSON status (ErrorObject message).

Definition http_Error (msg : string) (code : Z) : Response :=
  mkResponse code (Text (msg +:+ middleware.newline)).

(** [w.WriteHeader(http.StatusNoContent)] *)
Definition noContent : Response := mkResponse StatusNoContent Empty.

(** The response of [handler.createBook] in this type. *)
Definition of_handler (resp : handler.Response) : Response :=
  match handler.Body resp with
  | handler.ErrorBody message =>
      respondError (handler.StatusCode resp) message
  | handler.BookBody book =>
      respondJSON (handler.StatusCode resp) (BookValue book)
  end.

(** *** Strings *)

(** [s] without the leading [prefix], [None] when [s] does not start with
    it. *)
Fixpoint CutPrefix (s prefix : string) {struct prefix} : option string :=
  match prefix with
  | EmptyString => Some s
  | String p prefix' =>
      match s with
      | EmptyString => None
      | String c s' =>
          if Ascii.eqb c p then CutPrefix s' prefix' else None
      end
  end.

(** [strings.TrimPrefix] *)
Definition TrimPrefix (s prefix : string) : string :=
  match CutPrefix s prefix with
  | Some rest => rest
  | None => s
  end.

(** [strings.Split(s, sep)] for a separator [sep] of one byte: the
    substrings between the separators, one more than there are
    separators. *)
Fixpoint Split (s : string) (sep : ascii) : list string :=
  match s with
  | EmptyString => [EmptyString]
  | String c s' =>
      if Ascii.eqb c sep then EmptyString :: Split s' sep
      else
        match Split s' sep with
        | part :: parts => String c part :: parts
        | [] => [String c EmptyString]
        end
  end.

Definition slash : ascii := ascii_of_nat 47.

(** *** Setting the id from the path *)

Definition Book_setID (id : string) (b : Book.t) : Book.t :=
  Book.mk id (Book.Title b) (Book.ISBN b) (Book.AuthorID b)
    (Book.PublishedAt b) (Book.Pages b) (Book.Genre b) (Book.CreatedAt b)
    (Book.UpdatedAt b).

Definition Author_setID (id : string) (a : Author.t) : Author.t :=
  Author.mk id (Author.Name a) (Author.Bio a) (Author.BirthDate a)
    (Author.Country a) (Author.CreatedAt a) (Author.UpdatedAt a).

Definition ReadingList_setID (id : string) (l : ReadingList.t)
  : ReadingList.t :=
  ReadingList.mk id (ReadingList.Name l) (ReadingList.Description l)
    (ReadingList.BookIDs l) (ReadingList.CreatedAt l)
    (ReadingList.UpdatedAt l).

Section Handlers.
(** [json.NewDecoder(r.Body).Decode] of the standard library into a book, an
    author, a reading list: [None] when it reports an error. *)
Variable json_DecodeBook : string → option Book.t.
Variable json_DecodeAuthor : string → option Author.t.
Variable json_DecodeReadingList : string → option ReadingList.t.

(** *** BookHandler *)

Definition listBooks (repo : gmap string Book.t)
  : Response * gmap string Book.t :=
  (respondJSON StatusOK (BooksValue (service.ListBooks repo)), repo).

Definition createBook (now : Time) (r : Request) (repo : gmap string Book.t)
  : Response * gmap string Book.t :=
  let '(resp, repo') := handler.createBook json_DecodeBook now (Body r) repo in
  (of_handler resp, repo').

Definition getBook (id : string) (repo : gmap string Book.t)
  : Response * gmap string Book.t :=
  match service.GetBook id repo with
  | inr err =>
      if errors_Is err service_ErrBookNotFound
      then (respondError StatusNotFound "Book not found", repo)
      else (respondError StatusInternalServerError "Failed to get book",
            repo)
  | inl book => (respondJSON StatusOK (BookValue book), repo)
  end.

Definition updateBook (now : Time) (r : Request) (id : string)
    (repo : gmap string Book.t) : Response * gmap string Book.t :=
  match json_DecodeBook (Body r) with
  | None => (respondError StatusBadRequest "Invalid JSON", repo)
  | Some book =>
      let book := Book_setID id book in
      match service.UpdateBook now book repo with
      | (Some err, _, repo') =>
          if errors_Is err service_ErrBookNotFound
          then (respondError StatusNotFound "Book not found", repo')
          else if errors_Is err service_ErrInvalidBook
          then (respondError StatusBadRequest (Error err), repo')
          else if errors_Is err service_ErrDuplicateISBN
          then (respondError StatusConflict
                  "Book with this ISBN already exists", repo')
          else (respondError StatusInternalServerError
                  "Failed to update book", repo')
      | (None, book', repo') =>
          (respondJSON StatusOK (BookValue book'), repo')
      end
  end.

Definition deleteBook (id : string) (repo : gmap string Book.t)
  : Response * gmap string Book.t :=
  match service.DeleteBook id repo with
  | (Some err, repo') =>
      if errors_Is err service_ErrBookNotFound
      then (respondError StatusNotFound "Book not found", repo')
      else (respondError StatusInternalServerError "Failed to delete book",
            repo')
  | (None, repo') => (noContent, repo')
  end.

(** [handleBooks]: GET and POST on /api/books *)
Definition handleBooks (now : Time) (r : Request)
    (repo : gmap string Book.t) : Response * gmap string Book.t :=
  if decide (Method r = MethodGet) then listBooks repo
  else if decide (Method r = MethodPost) then createBook now r repo
  else (http_Error "Method not allowed" StatusMethodNotAllowed, repo).

(** [handleBook]: GET, PUT and DELETE on /api/books/{id} *)
Definition handleBook (now : Time) (r : Request)
    (repo : gmap string Book.t) : Response * gmap string Book.t :=
  let id := TrimPrefix (Path r) "/api/books/" in
  if decide (id = "") then (http_Error "Book ID required" StatusBadRequest,
                            repo)
  else if decide (Method r = MethodGet) then getBook id repo
  else if decide (Method r = MethodPut) then updateBook now r id repo
  else if decide (Method r = MethodDelete) then deleteBook id repo
  else (http_Error "Method not allowed" StatusMethodNotAllowed, repo).

(** *** AuthorHandler *)

Definition listAuthors (r : Request) (repo : gmap string Author.t)
  : Response * gmap string Author.t :=
  let country := Country r in
  let authors :=
    if negb (bool_decide (country = ""))
    then AuthorService.GetAuthorsByCountry country repo
    else AuthorService.ListAuthors repo in
  (respondJSON StatusOK (AuthorsValue authors), repo).

Definition createAuthor (now : Time) (r : Request)
    (repo : gmap string Author.t) : Response * gmap string Author.t :=
  match json_DecodeAuthor (Body r) with
  | None => (respondError StatusBadRequest "Invalid JSON", repo)
  | Some author =>
      match service.CreateAuthor now author repo with
      | (Some err, _, repo') =>
          if errors_Is err service_ErrInvalidAuthor
          then (respondError StatusBadRequest (Error err), repo')
          else (respondError StatusInternalServerError
                  "Failed to create author", repo')
      | (None, author', repo') =>
          (respondJSON StatusCreated (AuthorValue author'), repo')
      end
  end.

Definition getAuthor (id : string) (repo : gmap string Author.t)
  : Response * gmap string Author.t :=
  match service.GetAuthor id repo with
  | inr err =>
      if errors_Is err service_ErrAuthorNotFound
      then (respondError StatusNotFound "Author not found", repo)
      else (respondError StatusInternalServerError "Failed to get author",
            repo)
  | inl author => (respondJSON StatusOK (AuthorValue author), repo)
  end.

Definition updateAuthor (now : Time) (r : Request) (id : string)
    (repo : gmap string Author.t) : Response * gmap string Author.t :=
  match json_DecodeAuthor (Body r) with
  | None => (respondError StatusBadRequest "Invalid JSON", repo)
  | Some author =>
      let author := Author_setID id author in
      match service.UpdateAuthor now author repo with
      | (Some err, _, repo') =>
          if errors_Is err service_ErrAuthorNotFound
          then (respondError StatusNotFound "Author not found", repo')
          else if errors_Is err service_ErrInvalidAuthor
          then (respondError StatusBadRequest (Error err), repo')
          else (respondError StatusInternalServerError
                  "Failed to update author", repo')
      | (None, author', repo') =>
          (respondJSON StatusOK (AuthorValue author'), repo')
      end
  end.

Definition deleteAuthor (id : string) (repo : gmap string Author.t)
  : Response * gmap string Author.t :=
  match service.DeleteAuthor id repo with
  | (Some err, repo') =>
      if errors_Is err service_ErrAuthorNotFound
      then (respondError StatusNotFound "Author not found", repo')
      else (respondError StatusInternalServerError "Failed to delete author",
            repo')
  | (None, repo') => (noContent, repo')
  end.

Definition handleAuthors (now : Time) (r : Request)
    (repo : gmap string Author.t) : Response * gmap string Author.t :=
  if decide (Method r = MethodGet) then listAuthors r repo
  else if decide (Method r = MethodPost) then createAuthor now r repo
  else (http_Error "Method not allowed" StatusMethodNotAllowed, repo).

Definition handleAuthor (now : Time) (r : Request)
    (repo : gmap string Author.t) : Response * gmap string Author.t :=
  let id := TrimPrefix (Path r) "/api/authors/" in
  if decide (id = "") then (http_Error "Author ID required" StatusBadRequest,
                            repo)
  else if decide (Method r = MethodGet) then getAuthor id repo
  else if decide (Method r = MethodPut) then updateAuthor now r id repo
  else if decide (Method r = MethodDelete) then deleteAuthor id repo
  else (http_Error "Method not allowed" StatusMethodNotAllowed, repo).

(** *** ReadingListHandler

    Its service holds the reading-list repository [repo], which it writes,
    and the book repository [bookRepo], which it reads. *)

Definition listReadingLists (repo : gmap string ReadingList.t)
  : Response * gmap string ReadingList.t :=
  (respondJSON StatusOK
     (ListsValue (ReadingListService.ListReadingLists repo)), repo).

Definition createReadingList (now : Time) (r : Request)
    (repo : gmap string ReadingList.t)
  : Response * gmap string ReadingList.t :=
  match json_DecodeReadingList (Body r) with
  | None => (respondError StatusBadRequest "Invalid JSON", repo)
  | Some list =>
      match service.CreateReadingList now list repo with
      | (Some err, _, repo') =>
          if errors_Is err service_ErrInvalidReadingList
          then (respondError StatusBadRequest (Error err), repo')
          else (respondError StatusInternalServerError
                  "Failed to create reading list", repo')
      | (None, list', repo') =>
          (respondJSON StatusCreated (ListValue list'), repo')
      end
  end.

Definition getReadingList (id : string) (repo : gmap string ReadingList.t)
  : Response * gmap string ReadingList.t :=
  match service.GetReadingList id repo with
  | inr err =>
      if errors_Is err service_ErrReadingListNotFound
      then (respondError StatusNotFound "Reading list not found", repo)
      else (respondError StatusInternalServerError
              "Failed to get reading list", repo)
  | inl list => (respondJSON StatusOK (ListValue list), repo)
  end.

Definition updateReadingList (now : Time) (r : Request) (id : string)
    (repo : gmap string ReadingList.t)
  : Response * gmap string ReadingList.t :=
  match json_DecodeReadingList (Body r) with
  | None => (respondError StatusBadRequest "Invalid JSON", repo)
  | Some list =>
      let list := ReadingList_setID id list in
      match service.UpdateReadingList now list repo with
      | (Some err, _, repo') =>
          if errors_Is err service_ErrReadingListNotFound
          then (respondError StatusNotFound "Reading list not found", repo')
          else if errors_Is err service_ErrInvalidReadingList
          then (respondError StatusBadRequest (Error err), repo')
          else (respondError StatusInternalServerError
                  "Failed to update reading list", repo')
      | (None, list', repo') =>
          (respondJSON StatusOK (ListValue list'), repo')
      end
  end.

Definition deleteReadingList (id : string)
    (repo : gmap string ReadingList.t)
  : Response * gmap string ReadingList.t :=
  match service.DeleteReadingList id repo with
  | (Some err, repo') =>
      if errors_Is err service_ErrReadingListNotFound
      then (respondError StatusNotFound "Reading list not found", repo')
      else (respondError StatusInternalServerError
              "Failed to delete reading list", repo')
  | (None, repo') => (noContent, repo')
  end.

Definition addBookToList (now : Time) (listID bookID : string)
    (repo : gmap string ReadingList.t) (bookRepo : gmap string Book.t)
  : Response * gmap string ReadingList.t :=
  match service.AddBookToList now listID bookID repo bookRepo with
  | (Some err, repo') =>
      if errors_Is err service_ErrReadingListNotFound
      then (respondError StatusNotFound "Reading list not found", repo')
      else if errors_Is err service_ErrBookNotFound
      then (respondError StatusNotFound "Book not found", repo')
      else if errors_Is err service_ErrBookAlreadyInList
      then (respondError StatusConflict "Book already in list", repo')
      else (respondError StatusInternalServerError
              "Failed to add book to list", repo')
  | (None, repo') => (noContent, repo')
  end.

Definition removeBookFromList (now : Time) (listID bookID : string)
    (repo : gmap string ReadingList.t)
  : Response * gmap string ReadingList.t :=
  match service.RemoveBookFromList now listID bookID repo with
  | (Some err, repo') =>
      if errors_Is err service_ErrReadingListNotFound
      then (respondError StatusNotFound "Reading list not found", repo')
      else if errors_Is err service_ErrBookNotInList
      then (respondError StatusNotFound "Book not in list", repo')
      else (respondError StatusInternalServerError
              "Failed to remove book from list", repo')
  | (None, repo') => (noContent, repo')
  end.

Definition handleLists (now : Time) (r : Request)
    (repo : gmap string ReadingList.t)
  : Response * gmap string ReadingList.t :=
  if decide (Method r = MethodGet) then listReadingLists repo
  else if decide (Method r = MethodPost) then createReadingList now r repo
  else (http_Error "Method not allowed" StatusMethodNotAllowed, repo).

Definition handleListBook (now : Time) (r : Request) (listID bookID : string)
    (repo : gmap string ReadingList.t) (bookRepo : gmap string Book.t)
  : Response * gmap string ReadingList.t :=
  if decide (Method r = MethodPost)
  then addBookToList now listID bookID repo bookRepo
  else if decide (Method r = MethodDelete)
  then removeBookFromList now listID bookID repo
  else (http_Error "Method not allowed" StatusMethodNotAllowed, repo).

(** [handleList]: /api/lists/{id} and /api/lists/{id}/books/{bookId}.
    [parts[i]] is read only where the length test before it holds. *)
Definition handleList (now : Time) (r : Request)
    (repo : gmap string ReadingList.t) (bookRepo : gmap string Book.t)
  : Response * gmap string ReadingList.t :=
  let path := TrimPrefix (Path r) "/api/lists/" in
  let parts := Split path slash in
  if bool_decide (length parts = 0%nat)
     || bool_decide (default "" (parts !! 0%nat) = "")
  then (http_Error "List ID required" StatusBadRequest, repo)
  else
    let listID := default "" (parts !! 0%nat) in
    if (3 <=? length parts)%nat
       && bool_decide (default "" (parts !! 1%nat) = "books")
    then
      let bookID := default "" (parts !! 2%nat) in
      handleListBook now r listID bookID repo bookRepo
    else if decide (Method r = MethodGet) then getReadingList listID repo
    else if decide (Method r = MethodPut)
    then updateReadingList now r listID repo
    else if decide (Method r = MethodDelete)
    then deleteReadingList listID repo
    else (http_Error "Method not allowed" StatusMethodNotAllowed, repo).

End Handlers.

End api.

(** ** Package middleware: roles, encoding, request ids *)

Module authz.

(** The set [RequireRole] builds from its arguments. *)
Definition roleSet (roles : list string) : gmap string bool :=
  foldl (λ set role, <[role := true]> set) ∅ roles.

(** [GetUser]: the user in the context, [None] for nil. *)
Definition GetUser (r : middleware.Request) : option middleware.User :=
  middleware.ctxUser r.

(** [RequireRole(roles...)] around a handler; a missing key of the set reads
    as false.  [http.Error] writes to a response without headers of its
    own. *)
Definition RequireRole (roles : list string) (r : middleware.Request)
  : middleware.Outcome :=
  match GetUser r with
  | None =>
      middleware.Respond (middleware.http_Error ∅ "Unauthorized" 401)
  | Some user =>
      if negb (default false (roleSet roles !! middleware.Role user))
      then middleware.Respond (middleware.http_Error ∅ "Forbidden" 403)
      else middleware.ServeNext r
  end.

Section Encoding.
(** [base64.StdEncoding] of the standard library. *)
Variable base64_EncodeToString : string → string.
Variable base64_DecodeString : string → option string.

Definition EncodeBasicAuth (username password : string) : string :=
  let auth := username +:+ ":" +:+ password in
  "Basic " +:+ base64_EncodeToString auth.

(** [BasicAuth(store, realm)(RequireRole(roles...)(next))] *)
Definition Protected {S : Type} `{!middleware.UserStore S} (store : S)
    (realm : string) (roles : list string) (r : middleware.Request)
  : middleware.Outcome :=
  match middleware.BasicAuth base64_DecodeString store realm r with
  | middleware.Respond resp => middleware.Respond resp
  | middleware.ServeNext r' => RequireRole roles r'
  end.
End Encoding.

End authz.

Module logging.

Definition uint64_max : Z := 18446744073709551615.

(** [byte('0' + d)] for a digit [d] *)
Definition digit_byte (d : Z) : ascii := ascii_of_nat (Z.to_nat (48 + d)).

(** The loop of [uitoa]: [i] is the index it writes next into the 20-byte
    buffer, [acc] the bytes [buf[i+1:]] written so far.  [None] is the panic
    of an index out of range; [fuel] bounds the iterations. *)
Fixpoint uitoa_loop (fuel : nat) (val i : Z) (acc : string)
  : option string :=
  if 0 <? val then
    match fuel with
    | O => None
    | S fuel' =>
        if (i <? 0) || (20 <=? i) then None
        else uitoa_loop fuel' (val / 10) (i - 1)
               (String (digit_byte (val mod 10)) acc)
    end
  else Some acc.

Definition uitoa (val : Z) : option string :=
  if val =? 0 then Some "0" else uitoa_loop 21 val 19 "".

Definition formatRequestID (id : Z) : option string :=
  match uitoa id with
  | Some digits => Some ("req-" +:+ digits)
  | None => None
  end.

(** [RequestID]: one request.  [counter] is the variable the handler closes
    over, a [uint64]; the result is the counter after the request and the
    response headers handed to [next], [None] when [formatRequestID]
    panics. *)
Definition RequestID (counter : Z) (header : gmap string string)
  : option (Z * gmap string string) :=
  let counter := (counter + 1) mod (uint64_max + 1) in
  let reqID := counter in
  match formatRequestID reqID with
  | Some id => Some (counter, <["X-Request-ID" := id]> header)
  | None => None
  end.

(** The requests of a server one after the other: the ids they get. *)
Fixpoint serve (n : nat) (counter : Z) : option (list string) :=
  match n with
  | O => Some []
  | S n' =>
      match RequestID counter ∅ with
      | None => None
      | Some (counter', header) =>
          match serve n' counter' with
          | None => None
          | Some ids => Some (default "" (header !! "X-Request-ID") :: ids)
          end
      end
  end.

End logging.

(** The number a string of decimal digits writes, read from the left after
    [acc]. *)
Fixpoint decimal_value (acc : Z) (s : string) : Z :=
  match s with
  | EmptyString => acc
  | String c s' =>
      decimal_value (10 * acc + (Z.of_nat (nat_of_ascii c) - 48)) s'
  end.

Fixpoint all_digits (s : string) : bool :=
  match s with
  | EmptyString => true
  | String c s' =>
      (48 <=? nat_of_ascii c)%nat && (nat_of_ascii c <=? 57)%nat
      && all_digits s'
  end.

(** ** Package stringutil *)

Module stringutil.

(** [Truncate]; [None] is the panic of [s[:maxLen]] on a negative
    [maxLen]. *)
Definition Truncate (s : string) (maxLen : Z) : option string :=
  if Z.of_nat (String.length s) <=? maxLen then Some s
  else if maxLen <=? 3 then
    if maxLen <? 0 then None
    else Some (middleware.slice_to s (Z.to_nat maxLen))
  else Some (middleware.slice_to s (Z.to_nat (maxLen - 3)) +:+ "...").

End stringutil.


(** ** Package validator: ISBN check digits *)

Module validator.

Inductive err : Type :=
| ErrRequired | ErrTooLong | ErrTooShort | ErrInvalidISBN | ErrInvalidEmail.

(** [strings.ReplaceAll(value, old, "")] for an [old] of one byte, the only
    use the package makes of it: every byte equal to [old] is dropped. *)
Fixpoint ReplaceAll_byte (value : string) (old : ascii) : string :=
  match value with
  | EmptyString => EmptyString
  | String c rest =>
      if Ascii.eqb c old then ReplaceAll_byte rest old
      else String c (ReplaceAll_byte rest old)
  end.

Definition hyphen : ascii := ascii_of_nat 45.

(** The number of a byte *)
Definition byte (c : ascii) : Z := Z.of_nat (nat_of_ascii c).

(** [isbn[i]]; [None] is the panic of an index out of range. *)
Definition index (isbn : string) (i : Z) : option Z :=
  if i <? 0 then None
  else match String.get (Z.to_nat i) isbn with
       | Some c => Some (byte c)
       | None => None
       end.

(** The loop of [isValidISBN10], from [i] on.  [None] is a panic,
    [Some None] the [return false] inside the loop, [Some (Some sum)] the
    sum the loop ends with; [fuel] bounds the iterations.  The sum of at
    most ten digits with weights up to ten is far from the bounds of an
    [int], so it is computed in [Z] as it is. *)
Fixpoint isValidISBN10_loop (fuel : nat) (isbn : string) (i sum : Z)
  : option (option Z) :=
  if i <? 9 then
    match fuel with
    | O => None
    | S fuel' =>
        match index isbn i with
        | None => None
        | Some c =>
            if (c <? 48) || (57 <? c) then Some None
            else isValidISBN10_loop fuel' isbn (i + 1)
                   (sum + (c - 48) * (10 - i))
        end
    end
  else Some (Some sum).

Definition isValidISBN10 (isbn : string) : option bool :=
  if negb (String.length isbn =? 10)%nat then Some false
  else
    match isValidISBN10_loop 9 isbn 0 0 with
    | None => None
    | Some None => Some false
    | Some (Some sum) =>
        match index isbn 9 with
        | None => None
        | Some last =>
            if (last =? 88) || (last =? 120) then
              Some ((sum + 10) mod 11 =? 0)
            else if (48 <=? last) && (last <=? 57) then
              Some ((sum + (last - 48)) mod 11 =? 0)
            else Some false
        end
    end.

(** The loop of [isValidISBN13], read as the one of [isValidISBN10]. *)
Fixpoint isValidISBN13_loop (fuel : nat) (isbn : string) (i sum : Z)
  : option (option Z) :=
  if i <? 13 then
    match fuel with
    | O => None
    | S fuel' =>
        match index isbn i with
        | None => None
        | Some c =>
            if (c <? 48) || (57 <? c) then Some None
            else
              let digit := c - 48 in
              if i mod 2 =? 0 then
                isValidISBN13_loop fuel' isbn (i + 1) (sum + digit)
              else
                isValidISBN13_loop fuel' isbn (i + 1) (sum + digit * 3)
        end
    end
  else Some (Some sum).

Definition isValidISBN13 (isbn : string) : option bool :=
  if negb (String.length isbn =? 13)%nat then Some false
  else
    match isValidISBN13_loop 13 isbn 0 0 with
    | None => None
    | Some None => Some false
    | Some (Some sum) => Some (sum mod 10 =? 0)
    end.

(** [ISBN]: [Some None] is [nil]; [None] a panic of one of the checks. *)
Definition ISBN (value : string) : option (option err) :=
  let cleaned := ReplaceAll_byte value hyphen in
  if (String.length cleaned =? 10)%nat then
    match isValidISBN10 cleaned with
    | None => None
    | Some false => Some (Some ErrInvalidISBN)
    | Some true => Some None
    end
  else if (String.length cleaned =? 13)%nat then
    match isValidISBN13 cleaned with
    | None => None
    | Some false => Some (Some ErrInvalidISBN)
    | Some true => Some None
    end
  else Some (Some ErrInvalidISBN).

End validator.

(** [X] and [x], the two ways to write the check digit ten of an ISBN-10 *)
Definition is_x (c : ascii) : bool :=
  (validator.byte c =? 88) || (validator.byte c =? 120).
(** * Properties *)

(** ** The membership mutators of a reading list *)

Section ReadingListMembership.
Implicit Types (ids : list string) (bookID : string) (r : ReadingList.t).

Lemma ContainsBook_ids_true ids bookID :
  ReadingList.ContainsBook_ids ids bookID = true ↔ bookID ∈ ids.
Proof.
  induction ids as [|id rest IH]; simpl.
  - split; [discriminate | intros H%elem_of_nil; contradiction].
  - destruct (decide (id = bookID)) as [->|Hne].
    + split; [intros _; left | reflexivity].
    + rewrite IH. split; [by right|].
      intros [?|?]%elem_of_cons; congruence.
Qed.

Lemma ContainsBook_ids_false ids bookID :
  ReadingList.ContainsBook_ids ids bookID = false ↔ bookID ∉ ids.
Proof.
  rewrite <- ContainsBook_ids_true.
  destruct (ReadingList.ContainsBook_ids ids bookID); split; congruence.
Qed.

(** [RemoveBook] cuts out the first occurrence. *)
Lemma RemoveBook_ids_present ids bookID :
  bookID ∈ ids →
  ∃ before after,
    ids = before ++ (bookID :: after) ∧ (bookID ∉ before) ∧
    ReadingList.RemoveBook_ids ids bookID = Some (before ++ after).
Proof.
  induction ids as [|id rest IH]; intros Hin.
  - apply elem_of_nil in Hin. contradiction.
  - simpl. destruct (decide (id = bookID)) as [->|Hne].
    + exists [], rest. split_and!; [done | apply not_elem_of_nil | done].
    + apply elem_of_cons in Hin as [->|Hin]; [congruence|].
      destruct (IH Hin) as (before & after & -> & Hnotin & ->).
      exists (id :: before), after. split_and!; [done | | done].
      intros [?|?]%elem_of_cons; congruence.
Qed.

Lemma RemoveBook_ids_absent ids bookID :
  bookID ∉ ids → ReadingList.RemoveBook_ids ids bookID = None.
Proof.
  induction ids as [|id rest IH]; intros Hnotin; [done|].
  simpl. apply not_elem_of_cons in Hnotin as [Hne Hrest].
  destruct (decide (id = bookID)); [congruence|]. by rewrite IH.
Qed.

Lemma RemoveBook_ids_sublist ids bookID ids' :
  ReadingList.RemoveBook_ids ids bookID = Some ids' → ids' `sublist_of` ids.
Proof.
  revert ids'. induction ids as [|id rest IH]; intros ids'; simpl; [done|].
  destruct (decide (id = bookID)).
  - intros [= <-]. by apply sublist_cons.
  - destruct (ReadingList.RemoveBook_ids rest bookID); [|done].
    intros [= <-]. apply sublist_skip, IH. reflexivity.
Qed.

Lemma AddBook_NoDup r bookID :
  NoDup (ReadingList.BookIDs r) →
  NoDup (ReadingList.BookIDs (ReadingList.AddBook r bookID).2).
Proof.
  intros Hnd. unfold ReadingList.AddBook.
  destruct (ReadingList.ContainsBook_ids _ _) eqn:Hc; simpl; [done|].
  apply ContainsBook_ids_false in Hc.
  apply NoDup_app. split_and!; [done | | apply NoDup_singleton].
  intros x Hx ->%list_elem_of_singleton. contradiction.
Qed.

Lemma RemoveBook_NoDup r bookID :
  NoDup (ReadingList.BookIDs r) →
  NoDup (ReadingList.BookIDs (ReadingList.RemoveBook r bookID).2).
Proof.
  intros Hnd. unfold ReadingList.RemoveBook.
  destruct (ReadingList.RemoveBook_ids _ _) as [ids'|] eqn:Hrm; simpl;
    [|done].
  eapply sublist_NoDup; [exact Hnd | by eapply RemoveBook_ids_sublist].
Qed.
End ReadingListMembership.

(** C4.  [AddBook] on an id that is not a member returns true and appends it
    at the end (the membership grows by one, the ids before it stay as they
    were); on a member it returns false and leaves the list as it is.
    [RemoveBook] on a member returns true and cuts out its first occurrence
    (the membership shrinks by one, the other ids keep their order); on an id
    that is not a member it returns false and leaves the list as it is.  Both
    keep [BookIDs] free of duplicates. *)
Theorem C4_membership (r : ReadingList.t) (bookID : string) :
  (bookID ∉ ReadingList.BookIDs r →
     ReadingList.AddBook r bookID
       = (true, ReadingList.setBookIDs (ReadingList.BookIDs r ++ [bookID]) r)
     ∧ length (ReadingList.BookIDs (ReadingList.AddBook r bookID).2)
       = S (length (ReadingList.BookIDs r)))
  ∧ (bookID ∈ ReadingList.BookIDs r →
     ReadingList.AddBook r bookID = (false, r))
  ∧ (bookID ∈ ReadingList.BookIDs r →
     ∃ before after,
       ReadingList.BookIDs r = before ++ (bookID :: after) ∧
       (bookID ∉ before) ∧
       ReadingList.RemoveBook r bookID
         = (true, ReadingList.setBookIDs (before ++ after) r) ∧
       S (length (ReadingList.BookIDs (ReadingList.RemoveBook r bookID).2))
         = length (ReadingList.BookIDs r))
  ∧ (bookID ∉ ReadingList.BookIDs r →
     ReadingList.RemoveBook r bookID = (false, r))
  ∧ (NoDup (ReadingList.BookIDs r) →
     NoDup (ReadingList.BookIDs (ReadingList.AddBook r bookID).2) ∧
     NoDup (ReadingList.BookIDs (ReadingList.RemoveBook r bookID).2)).
Proof.
  split_and!.
  - intros Hnotin%ContainsBook_ids_false. unfold ReadingList.AddBook.
    rewrite Hnotin. simpl. split; [done|].
    rewrite length_app. simpl. lia.
  - intros Hin%ContainsBook_ids_true. unfold ReadingList.AddBook.
    by rewrite Hin.
  - intros Hin.
    destruct (RemoveBook_ids_present _ _ Hin)
      as (before & after & Hsplit & Hnotin & Hrm).
    exists before, after. unfold ReadingList.RemoveBook. rewrite Hrm. simpl.
    split_and!; [done | done | done |].
    rewrite Hsplit, !length_app. simpl. lia.
  - intros Hnotin%RemoveBook_ids_absent. unfold ReadingList.RemoveBook.
    by rewrite Hnotin.
  - intros Hnd. split; [by apply AddBook_NoDup | by apply RemoveBook_NoDup].
Qed.

Lemma C4_membership_witness :
  ReadingList.AddBook two_books "book-3"
    = (true, ReadingList.setBookIDs ["book-1"; "book-2"; "book-3"] two_books)
  ∧ ReadingList.AddBook two_books "book-1" = (false, two_books)
  ∧ ReadingList.RemoveBook two_books "book-3" = (false, two_books)
  ∧ NoDup (ReadingList.BookIDs (ReadingList.RemoveBook two_books "book-1").2).
Proof.
  destruct (C4_membership two_books "book-3") as (Hadd & _ & _ & Hrm & _).
  destruct (C4_membership two_books "book-1") as (_ & Hdup & _ & _ & Hnd).
  split_and!.
  - apply Hadd. compute_done.
  - apply Hdup. compute_done.
  - apply Hrm. compute_done.
  - apply Hnd. compute_done.
Defined.

(** ** Validation *)

(** C5.  [Book.Validate] reports the first violated rule in the order title
    presence, title length, ISBN presence, author-id presence, page count, and
    reports nothing exactly when no rule is violated.  A book with zero pages
    that passes the earlier checks is valid; one with a negative page count
    that passes the earlier checks fails with the pages text. *)
Theorem C5_validate_order (b : Book.t) :
  Book.Validate b = first_violated Book_rules b
  ∧ (Book.Validate b = None ↔
     Forall (λ rl : rule Book.t, rl.1 b = false) Book_rules)
  ∧ (Book.Title b ≠ "" → (String.length (Book.Title b) ≤ 200)%nat →
     Book.ISBN b ≠ "" → Book.AuthorID b ≠ "" →
     (Book.Pages b = 0 → Book.Validate b = None) ∧
     (Book.Pages b < 0 → Book.Validate b = Some "pages cannot be negative")).
Proof.
  assert (Hrefine : Book.Validate b = first_violated Book_rules b).
  { unfold Book.Validate, Book_rules, first_violated, bool_decide.
    repeat case_decide; try congruence;
      repeat match goal with
             | |- context [if ?c then _ else _] => destruct c
             end; reflexivity. }
  split_and!.
  - exact Hrefine.
  - rewrite Hrefine. unfold Book_rules.
    rewrite !Forall_cons, Forall_nil. simpl.
    repeat match goal with
           | |- context [if ?c then _ else _] => destruct c
           end; intuition congruence.
  - intros Htitle Hlen Hisbn Hauthor. unfold Book.Validate.
    rewrite !decide_False by assumption.
    apply Nat.ltb_ge in Hlen. rewrite Hlen.
    split; intros Hpages.
    + rewrite Hpages. reflexivity.
    + apply Z.ltb_lt in Hpages. by rewrite Hpages.
Qed.

Lemma C5_validate_order_witness :
  Book.Validate valid_book = None
  ∧ Book.Validate
      (Book.mk "book-1" "The Go Programming Language" "978-0134190440"
               "author-1" 0 (-1) "" 0 0)
    = Some "pages cannot be negative".
Proof.
  split.
  - apply (C5_validate_order valid_book); [done | simpl; lia | done | done |].
    reflexivity.
  - apply (C5_validate_order
             (Book.mk "book-1" "The Go Programming Language" "978-0134190440"
                      "author-1" 0 (-1) "" 0 0));
      [done | simpl; lia | done | done |].
    simpl. lia.
Defined.



(** ** Repositories *)

Section RepositoryFacts.
Context {E : Type} `{!Entity E}.
Implicit Types (r : gmap string E) (e : E) (now clock : Time).

Lemma Create_fresh now e r :
  r !! entityID e = None →
  repository.Create now e r
    = (None, stamp now now e, <[entityID e := stamp now now e]> r).
Proof. intros Hfresh. unfold repository.Create. by rewrite Hfresh. Qed.

Lemma Create_taken now e r :
  is_Some (r !! entityID e) →
  repository.Create now e r = (Some (ErrVar errExists), e, r).
Proof. intros [old Hold]. unfold repository.Create. by rewrite Hold. Qed.

Lemma Update_present now e r existing :
  r !! entityID e = Some existing →
  repository.Update now e r
    = (None, stamp (createdAt existing) now e,
       <[entityID e := stamp (createdAt existing) now e]> r).
Proof. intros Hold. unfold repository.Update. by rewrite Hold. Qed.

Lemma Update_absent now e r :
  r !! entityID e = None →
  repository.Update now e r = (Some (ErrVar errNotFound), e, r).
Proof. intros Hnone. unfold repository.Update. by rewrite Hnone. Qed.

(** A repository call that returns an error leaves the map as it is. *)
Lemma Create_error now e r err e' r' :
  repository.Create now e r = (Some err, e', r') →
  r' = r ∧ err = ErrVar errExists.
Proof.
  unfold repository.Create. destruct (r !! entityID e); intros [= <- <- <-];
    done.
Qed.

Lemma Update_error now e r err e' r' :
  repository.Update now e r = (Some err, e', r') →
  r' = r ∧ err = ErrVar errNotFound.
Proof.
  unfold repository.Update. destruct (r !! entityID e); intros [= <- <- <-];
    done.
Qed.

Lemma Delete_error id r err r' :
  repository.Delete id r = (Some err, r') →
  r' = r ∧ err = ErrVar errNotFound.
Proof.
  unfold repository.Delete. destruct (r !! id); intros [= <- <-]; done.
Qed.

Lemma Get_error id r err :
  repository.Get id r = inr err → r !! id = None ∧ err = ErrVar errNotFound.
Proof.
  unfold repository.Get. destruct (r !! id); intros [= <-]; done.
Qed.

Lemma elem_of_List e r :
  e ∈ repository.List r ↔ ∃ id, r !! id = Some e.
Proof.
  unfold repository.List. rewrite list_elem_of_fmap. split.
  - intros [[id e'] [-> Hin]]. exists id. by apply elem_of_map_to_list.
  - intros [id Hid]. exists (id, e). split; [done|].
    by apply elem_of_map_to_list.
Qed.

(** Every operation stores entities under their own identifier. *)
Lemma step_keyed_by_ID now op r :
  keyed_by_ID r → keyed_by_ID (step now op r).
Proof.
  intros Hk. destruct op as [e|e|id]; simpl.
  - unfold repository.Create. destruct (r !! entityID e); simpl; [done|].
    apply map_Forall_insert_2; [apply stamp_entityID | done].
  - unfold repository.Update. destruct (r !! entityID e); simpl; [|done].
    apply map_Forall_insert_2; [apply stamp_entityID | done].
  - unfold repository.Delete. destruct (r !! id); simpl; [|done].
    by apply map_Forall_delete.
Qed.

Lemma New_keyed_by_ID : keyed_by_ID (repository.New (E:=E)).
Proof. apply map_Forall_empty. Qed.

(** *** Timestamps *)

Lemma stamped_by_mono clock clock' r :
  clock ≤ clock' → stamped_by clock r → stamped_by clock' r.
Proof.
  intros Hle Hst id e He. destruct (Hst id e He). split; lia.
Qed.

Lemma step_stamped_by clock now op r :
  clock ≤ now → stamped_by clock r → stamped_by now (step now op r).
Proof.
  intros Hle Hst. apply (stamped_by_mono _ _ _ Hle) in Hst.
  destruct op as [e|e|id]; simpl.
  - unfold repository.Create. destruct (r !! entityID e); simpl; [done|].
    apply map_Forall_insert_2; [|done].
    rewrite stamp_createdAt, stamp_updatedAt. lia.
  - unfold repository.Update.
    destruct (r !! entityID e) as [existing|] eqn:Hex; simpl; [|done].
    apply map_Forall_insert_2; [|done].
    rewrite stamp_createdAt, stamp_updatedAt.
    destruct (Hst _ _ Hex). lia.
  - unfold repository.Delete. destruct (r !! id); simpl; [|done].
    by apply map_Forall_delete.
Qed.



End RepositoryFacts.



(** ** BookService *)

Section BookServiceFacts.
Implicit Types (repo : gmap string Book.t) (book existing : Book.t).

Lemma CreateBook_scan_true (books : list Book.t) book :
  service.CreateBook_scan books book = true ↔
  ∃ existing, existing ∈ books ∧ Book.ISBN existing = Book.ISBN book.
Proof.
  induction books as [|b rest IH]; simpl.
  - split; [discriminate | intros (? & []%elem_of_nil & _)].
  - destruct (decide (Book.ISBN b = Book.ISBN book)) as [Heq|Hne].
    + split; [|done]. intros _. exists b. split; [left | done].
    + rewrite IH. split.
      * intros (ex & Hin & Hex). exists ex. split; [by right | done].
      * intros (ex & [->|Hin]%elem_of_cons & Hex); [done|]. by exists ex.
Qed.

Lemma UpdateBook_scan_true (books : list Book.t) book :
  service.UpdateBook_scan books book = true ↔
  ∃ existing, existing ∈ books ∧ Book.ISBN existing = Book.ISBN book ∧
              Book.ID existing ≠ Book.ID book.
Proof.
  induction books as [|b rest IH]; simpl.
  - split; [discriminate | intros (? & []%elem_of_nil & _)].
  - destruct (bool_decide (Book.ISBN b = Book.ISBN book) &&
              negb (bool_decide (Book.ID b = Book.ID book))) eqn:Hhit.
    + split; [|done]. intros _. exists b.
      apply andb_true_iff in Hhit as [Hisbn%bool_decide_eq_true Hid].
      apply negb_true_iff, bool_decide_eq_false in Hid.
      split_and!; [left | done | done].
    + rewrite IH. split.
      * intros (ex & Hin & Hex). exists ex. split; [by right | done].
      * intros (ex & [->|Hin]%elem_of_cons & Hisbn & Hid); [|by exists ex].
        rewrite bool_decide_eq_true_2, bool_decide_eq_false_2 in Hhit
          by done.
        discriminate.
Qed.

(** The result of either loop does not depend on the order in which [List]
    ranges over the map. *)
Lemma CreateBook_scan_order (books books' : list Book.t) book :
  books ≡ₚ books' →
  service.CreateBook_scan books book = service.CreateBook_scan books' book.
Proof.
  intros Hperm. apply eq_true_iff_eq. rewrite !CreateBook_scan_true.
  by setoid_rewrite Hperm.
Qed.

Lemma UpdateBook_scan_order (books books' : list Book.t) book :
  books ≡ₚ books' →
  service.UpdateBook_scan books book = service.UpdateBook_scan books' book.
Proof.
  intros Hperm. apply eq_true_iff_eq. rewrite !UpdateBook_scan_true.
  by setoid_rewrite Hperm.
Qed.

Lemma CreateBook_scan_stored repo book :
  service.CreateBook_scan (repository.List repo) book = true ↔
  stored_book repo (λ existing, Book.ISBN existing = Book.ISBN book).
Proof.
  rewrite CreateBook_scan_true. unfold stored_book. split.
  - intros (ex & [id Hid]%elem_of_List & Hex). by exists id, ex.
  - intros (id & ex & Hid & Hex). exists ex. split; [|done].
    apply elem_of_List. by exists id.
Qed.

Lemma UpdateBook_scan_stored repo book :
  service.UpdateBook_scan (repository.List repo) book = true ↔
  stored_book repo (λ existing, Book.ISBN existing = Book.ISBN book ∧
                                Book.ID existing ≠ Book.ID book).
Proof.
  rewrite UpdateBook_scan_true. unfold stored_book. split.
  - intros (ex & [id Hid]%elem_of_List & Hex). by exists id, ex.
  - intros (id & ex & Hid & Hex). exists ex. split; [|done].
    apply elem_of_List. by exists id.
Qed.

(** What [CreateBook] returns on a valid book, case by case. *)
Lemma CreateBook_valid now book repo :
  Book.Validate book = None →
  service.CreateBook now book repo =
    if service.CreateBook_scan (repository.List repo) book
    then (Some (ErrVar service_ErrDuplicateISBN), book, repo)
    else repository.Create now book repo.
Proof. intros Hv. unfold service.CreateBook. by rewrite Hv. Qed.

Lemma UpdateBook_valid_stored now book repo existing :
  Book.Validate book = None →
  repo !! Book.ID book = Some existing →
  service.UpdateBook now book repo =
    if service.UpdateBook_scan (repository.List repo) book
    then (Some (ErrVar service_ErrDuplicateISBN), book, repo)
    else (None, Book.stamp (Book.CreatedAt existing) now book,
          <[Book.ID book := Book.stamp (Book.CreatedAt existing) now book]>
            repo).
Proof.
  intros Hv Hex. unfold service.UpdateBook. rewrite Hv.
  destruct (service.UpdateBook_scan _ _); [done|].
  by rewrite (Update_present now book repo existing) by exact Hex.
Qed.

(** *** What the service maintains *)

Lemma New_isbn_unique : isbn_unique repository.New.
Proof. intros id1 id2 b1 b2 H. by apply lookup_empty_Some in H. Qed.

Lemma CreateBook_isbn_unique now book repo :
  isbn_unique repo → isbn_unique (service.CreateBook now book repo).2.
Proof.
  intros Hu. unfold service.CreateBook.
  destruct (Book.Validate book); [done|].
  destruct (service.CreateBook_scan _ _) eqn:Hscan; [done|].
  unfold repository.Create.
  destruct (repo !! entityID book) eqn:Hex; [done|]. simpl.
  assert (Hfree : ∀ id b, repo !! id = Some b →
                          Book.ISBN b ≠ Book.ISBN book).
  { intros id b Hb Heq.
    assert (service.CreateBook_scan (repository.List repo) book = true)
      as Hhit; [|congruence].
    apply CreateBook_scan_stored. by exists id, b. }
  intros id1 id2 b1 b2.
  rewrite !lookup_insert. repeat case_decide; subst; try done.
  - intros [= <-] Hb2 Heq. exfalso. by eapply Hfree.
  - intros Hb1 [= <-] Heq. exfalso. by eapply Hfree.
  - apply Hu.
Qed.

Lemma UpdateBook_isbn_unique now book repo :
  keyed_by_ID repo → isbn_unique repo →
  isbn_unique (service.UpdateBook now book repo).2.
Proof.
  intros Hk Hu. unfold service.UpdateBook.
  destruct (Book.Validate book); [done|].
  destruct (service.UpdateBook_scan _ _) eqn:Hscan; [done|].
  unfold repository.Update.
  destruct (repo !! entityID book) eqn:Hex; [|done]. simpl.
  assert (Hfree : ∀ id b, repo !! id = Some b → id ≠ Book.ID book →
                          Book.ISBN b ≠ Book.ISBN book).
  { intros id b Hb Hid Heq.
    assert (service.UpdateBook_scan (repository.List repo) book = true)
      as Hhit; [|congruence].
    apply UpdateBook_scan_stored. exists id, b. split_and!; [done | done |].
    pose proof (Hk id b Hb) as Hkey. simpl in Hkey. congruence. }
  intros id1 id2 b1 b2.
  rewrite !lookup_insert. repeat case_decide; subst; try done.
  - intros [= <-] Hb2 Heq. exfalso. eapply Hfree; [done | | done].
    congruence.
  - intros Hb1 [= <-] Heq. exfalso. eapply Hfree; [done | | done].
    congruence.
  - apply Hu.
Qed.

Lemma DeleteBook_isbn_unique id repo :
  isbn_unique repo → isbn_unique (service.DeleteBook id repo).2.
Proof.
  intros Hu. unfold service.DeleteBook, repository.Delete.
  destruct (repo !! id); simpl; [|done].
  intros id1 id2 b1 b2 H1%lookup_delete_Some H2%lookup_delete_Some.
  apply Hu; tauto.
Qed.
End BookServiceFacts.

Lemma one_book_lookup id b :
  one_book !! id = Some b →
  id = "book-1" ∧ b = Book.mk "book-1" "T" "111" "a1" 0 0 "" 5 5.
Proof.
  unfold one_book. intros [[<- <-]|[_ Hid]]%lookup_insert_Some; [done|].
  by apply lookup_empty_Some in Hid.
Qed.

(** C1 as stated fails where it says that [CreateBook] succeeds once the ISBN
    is one no stored book has: with ["book-1"] stored under ISBN ["111"],
    creating a valid book with the id ["book-1"] and the fresh ISBN ["222"]
    returns the repository's [ErrBookExists]. *)
Lemma C1_counterexample :
  Book.Validate (Book.mk "book-1" "T" "222" "a1" 0 0 "" 0 0) = None
  ∧ ¬ stored_book one_book (λ existing, Book.ISBN existing = "222")
  ∧ (service.CreateBook 6 (Book.mk "book-1" "T" "222" "a1" 0 0 "" 0 0)
       one_book).1.1
    = Some (ErrVar repository_ErrBookExists).
Proof.
  split_and!.
  - reflexivity.
  - intros (id & existing & [_ ->]%one_book_lookup & Hisbn). discriminate.
  - vm_compute. reflexivity.
Qed.

(** C1, amended.  On a valid book, [CreateBook] fails with [ErrDuplicateISBN]
    if and only if some stored book has the same ISBN, and succeeds when no
    stored book has its ISBN and its id is not stored.  On a valid book whose
    id is stored, [UpdateBook] fails with [ErrDuplicateISBN] if and only if
    some stored book with a different id has the same ISBN, and succeeds
    otherwise; so, in a repository that stores books under their ids and
    holds no ISBN twice (which the service maintains), an update that keeps
    the book's own ISBN succeeds. *)
Theorem C1_duplicate_isbn (now : Time) (book : Book.t)
    (repo : gmap string Book.t) :
  Book.Validate book = None →
  ((service.CreateBook now book repo).1.1
     = Some (ErrVar service_ErrDuplicateISBN)
   ↔ stored_book repo (λ existing, Book.ISBN existing = Book.ISBN book))
  ∧ (¬ stored_book repo (λ existing, Book.ISBN existing = Book.ISBN book) →
     repo !! Book.ID book = None →
     (service.CreateBook now book repo).1.1 = None)
  ∧ (is_Some (repo !! Book.ID book) →
     ((service.UpdateBook now book repo).1.1
        = Some (ErrVar service_ErrDuplicateISBN)
      ↔ stored_book repo (λ existing,
          Book.ISBN existing = Book.ISBN book ∧
          Book.ID existing ≠ Book.ID book))
     ∧ (¬ stored_book repo (λ existing,
          Book.ISBN existing = Book.ISBN book ∧
          Book.ID existing ≠ Book.ID book) →
        (service.UpdateBook now book repo).1.1 = None)
     ∧ (keyed_by_ID repo → isbn_unique repo →
        (∃ own, repo !! Book.ID book = Some own ∧
                Book.ISBN own = Book.ISBN book) →
        (service.UpdateBook now book repo).1.1 = None)).
Proof.
  intros Hvalid. split_and!.
  - rewrite (CreateBook_valid _ _ _ Hvalid), <- CreateBook_scan_stored.
    destruct (service.CreateBook_scan _ _); simpl; [done|].
    unfold repository.Create. split; [|done].
    destruct (repo !! entityID book); simpl; discriminate.
  - intros Hfree Hid.
    rewrite <- CreateBook_scan_stored in Hfree.
    apply not_true_is_false in Hfree.
    rewrite (CreateBook_valid _ _ _ Hvalid), Hfree.
    by rewrite Create_fresh.
  - intros [existing Hex].
    assert (Hcases :
      (service.UpdateBook now book repo).1.1
        = Some (ErrVar service_ErrDuplicateISBN)
      ↔ stored_book repo (λ existing,
          Book.ISBN existing = Book.ISBN book ∧
          Book.ID existing ≠ Book.ID book)).
    { rewrite (UpdateBook_valid_stored _ _ _ _ Hvalid Hex),
        <- UpdateBook_scan_stored.
      destruct (service.UpdateBook_scan _ _); simpl; done. }
    assert (Hok :
      ¬ stored_book repo (λ existing,
          Book.ISBN existing = Book.ISBN book ∧
          Book.ID existing ≠ Book.ID book) →
      (service.UpdateBook now book repo).1.1 = None).
    { intros Hfree. rewrite <- UpdateBook_scan_stored in Hfree.
      apply not_true_is_false in Hfree.
      by rewrite (UpdateBook_valid_stored _ _ _ _ Hvalid Hex), Hfree. }
    split_and!; [exact Hcases | exact Hok |].
    intros Hk Hu (own & Hown & Hisbn). apply Hok.
    intros (id & other & Hother & Hsame & Hdiff).
    apply Hdiff.
    pose proof (Hk _ _ Hother) as Hkey. simpl in Hkey.
    rewrite Hkey. apply (Hu id (Book.ID book) other own Hother Hown).
    congruence.
Qed.

Lemma C1_duplicate_isbn_witness :
  (service.CreateBook 6 (Book.mk "book-2" "U" "111" "a1" 0 0 "" 0 0)
     one_book).1.1
    = Some (ErrVar service_ErrDuplicateISBN)
  ∧ (service.CreateBook 6 (Book.mk "book-2" "U" "222" "a1" 0 0 "" 0 0)
       one_book).1.1 = None
  ∧ (service.UpdateBook 6 (Book.mk "book-1" "T2" "111" "a1" 0 0 "" 0 0)
       one_book).1.1 = None.
Proof.
  split_and!.
  - destruct (C1_duplicate_isbn 6
                (Book.mk "book-2" "U" "111" "a1" 0 0 "" 0 0) one_book)
      as ([_ Hdup] & _); [reflexivity|].
    apply Hdup.
    exists "book-1", (Book.mk "book-1" "T" "111" "a1" 0 0 "" 5 5).
    split; reflexivity.
  - destruct (C1_duplicate_isbn 6
                (Book.mk "book-2" "U" "222" "a1" 0 0 "" 0 0) one_book)
      as (_ & Hok & _); [reflexivity|].
    apply Hok; [|reflexivity].
    intros (id & existing & [_ ->]%one_book_lookup & Hisbn). discriminate.
  - destruct (C1_duplicate_isbn 6
                (Book.mk "book-1" "T2" "111" "a1" 0 0 "" 0 0) one_book)
      as (_ & _ & Hupd); [reflexivity|].
    destruct Hupd as (_ & _ & Hown); [by eexists|].
    apply Hown.
    + refine (bool_decide_unpack _ _). vm_compute. reflexivity.
    + intros id1 id2 b1 b2 [-> _]%one_book_lookup [-> _]%one_book_lookup _.
      reflexivity.
    + eexists. split; reflexivity.
Defined.

(** C7.  Round trip.  When [CreateBook] accepts a book, [GetBook] with the
    book's id on the resulting repository returns a book with the id, title,
    ISBN, author id, page count, genre and publication date of the input, and
    with [CreatedAt] and [UpdatedAt] not the zero time, the clock not reading
    the zero time.  [CreateBook] accepts every valid book whose ISBN and id no
    stored book has, so every valid book into an empty repository. *)
Theorem C7_create_get_roundtrip (now : Time) (book : Book.t)
    (repo : gmap string Book.t) :
  now ≠ zeroTime →
  (∀ book' repo',
     service.CreateBook now book repo = (None, book', repo') →
     ∃ got, service.GetBook (Book.ID book) repo' = inl got ∧
       Book.ID got = Book.ID book ∧
       Book.Title got = Book.Title book ∧
       Book.ISBN got = Book.ISBN book ∧
       Book.AuthorID got = Book.AuthorID book ∧
       Book.Pages got = Book.Pages book ∧
       Book.Genre got = Book.Genre book ∧
       Book.PublishedAt got = Book.PublishedAt book ∧
       IsZero (Book.CreatedAt got) = false ∧
       IsZero (Book.UpdatedAt got) = false)
  ∧ (Book.Validate book = None →
     ¬ stored_book repo (λ existing, Book.ISBN existing = Book.ISBN book) →
     repo !! Book.ID book = None →
     ∃ book' repo', service.CreateBook now book repo = (None, book', repo'))
  ∧ (Book.Validate book = None →
     ∃ book' repo',
       service.CreateBook now book repository.New = (None, book', repo')).
Proof.
  intros Hclock.
  assert (Haccept :
    Book.Validate book = None →
    ∀ repo0 : gmap string Book.t,
    ¬ stored_book repo0 (λ existing, Book.ISBN existing = Book.ISBN book) →
    repo0 !! Book.ID book = None →
    ∃ book' repo', service.CreateBook now book repo0 = (None, book', repo')).
  { intros Hvalid repo0 Hfree Hid.
    rewrite <- CreateBook_scan_stored in Hfree.
    apply not_true_is_false in Hfree.
    rewrite (CreateBook_valid _ _ _ Hvalid), Hfree.
    rewrite Create_fresh by exact Hid. by eexists _, _. }
  split_and!.
  - intros book' repo'. unfold service.CreateBook.
    destruct (Book.Validate book); [discriminate|].
    destruct (service.CreateBook_scan _ _); [discriminate|].
    unfold repository.Create.
    destruct (repo !! entityID book); intros [= <- <-].
    exists (Book.stamp now now book).
    unfold service.GetBook, repository.Get. simpl.
    rewrite lookup_insert_eq. split_and!; try reflexivity.
    + by apply Z.eqb_neq.
    + by apply Z.eqb_neq.
  - intros Hvalid. by apply Haccept.
  - intros Hvalid. apply Haccept; [done | | apply lookup_empty].
    intros (id & existing & Hid & _). by apply lookup_empty_Some in Hid.
Qed.

Lemma C7_create_get_roundtrip_witness :
  ∃ got, service.GetBook "book-1"
           (service.CreateBook 5 valid_book repository.New).2 = inl got ∧
         Book.Title got = "The Go Programming Language" ∧
         IsZero (Book.CreatedAt got) = false.
Proof.
  destruct (C7_create_get_roundtrip 5 valid_book repository.New)
    as (Hround & _ & _); [discriminate|].
  destruct (Hround (Book.stamp 5 5 valid_book)
              (service.CreateBook 5 valid_book repository.New).2)
    as (got & Hget & _ & Htitle & _ & _ & _ & _ & _ & Hcreated & _);
    [reflexivity|].
  exists got. split_and!; [exact Hget | exact Htitle | exact Hcreated].
Defined.

(** ** The book handler *)

(** C8.  A POST whose body decodes to a valid book with an ISBN no stored book
    has and an id that is stored: the repository's [ErrBookExists] comes out
    of [CreateBook] as it is, [errors.Is] matches it with none of
    [ErrInvalidBook], [ErrDuplicateISBN] and the service's [ErrBookNotFound],
    and [createBook] answers 500 with the text "Failed to create book",
    leaving the repository as it was. *)
Theorem C8_duplicate_id_is_500 (json_Decode : string → option Book.t)
    (now : Time) (body : string) (book : Book.t)
    (repo : gmap string Book.t) :
  json_Decode body = Some book →
  Book.Validate book = None →
  ¬ stored_book repo (λ existing, Book.ISBN existing = Book.ISBN book) →
  is_Some (repo !! Book.ID book) →
  service.CreateBook now book repo
    = (Some (ErrVar repository_ErrBookExists), book, repo)
  ∧ errors_Is (ErrVar repository_ErrBookExists) service_ErrInvalidBook = false
  ∧ errors_Is (ErrVar repository_ErrBookExists) service_ErrDuplicateISBN
    = false
  ∧ errors_Is (ErrVar repository_ErrBookExists) service_ErrBookNotFound
    = false
  ∧ handler.createBook json_Decode now body repo
    = (handler.respondError 500 "Failed to create book", repo).
Proof.
  intros Hdecode Hvalid Hfree Hstored.
  rewrite <- CreateBook_scan_stored in Hfree.
  apply not_true_is_false in Hfree.
  assert (Hsvc : service.CreateBook now book repo
                 = (Some (ErrVar repository_ErrBookExists), book, repo)).
  { rewrite (CreateBook_valid _ _ _ Hvalid), Hfree.
    by rewrite Create_taken. }
  split_and!; [exact Hsvc | reflexivity | reflexivity | reflexivity |].
  unfold handler.createBook. rewrite Hdecode, Hsvc. reflexivity.
Qed.

Lemma C8_duplicate_id_is_500_witness :
  handler.createBook
    (λ _, Some (Book.mk "book-1" "T" "222" "a1" 0 0 "" 0 0)) 6 "{}" one_book
  = (handler.mkResponse 500 (handler.ErrorBody "Failed to create book"),
     one_book).
Proof.
  apply (C8_duplicate_id_is_500
           (λ _, Some (Book.mk "book-1" "T" "222" "a1" 0 0 "" 0 0)) 6 "{}"
           (Book.mk "book-1" "T" "222" "a1" 0 0 "" 0 0) one_book).
  - reflexivity.
  - reflexivity.
  - intros (id & existing & [_ ->]%one_book_lookup & Hisbn). discriminate.
  - by eexists.
Defined.

(** ** Failed calls change nothing *)

Section ServiceErrors.
Context {E : Type} `{!Entity E}.
Implicit Types (r : gmap string E) (e : E).

Lemma Create_error_unchanged now e r err :
  (repository.Create now e r).1.1 = Some err →
  (repository.Create now e r).2 = r.
Proof. unfold repository.Create. by destruct (r !! entityID e). Qed.

Lemma Update_error_unchanged now e r err :
  (repository.Update now e r).1.1 = Some err →
  (repository.Update now e r).2 = r.
Proof. unfold repository.Update. by destruct (r !! entityID e). Qed.

Lemma Delete_error_unchanged id r err :
  (repository.Delete id r).1 = Some err → (repository.Delete id r).2 = r.
Proof. unfold repository.Delete. by destruct (r !! id). Qed.
End ServiceErrors.

(** Splits a service call into the paths of its body. *)
Ltac service_paths :=
  repeat match goal with
         | |- context [match ?x with _ => _ end] =>
             lazymatch x with
             | repository.Create _ _ _ =>
                 let H := fresh "Hrepo" in
                 destruct x as [[[?|] ?] ?] eqn:H;
                 [apply Create_error in H as [-> ->]|]
             | repository.Update _ _ _ =>
                 let H := fresh "Hrepo" in
                 destruct x as [[[?|] ?] ?] eqn:H;
                 [apply Update_error in H as [-> ->]|]
             | repository.Delete _ _ =>
                 let H := fresh "Hrepo" in
                 destruct x as [[?|] ?] eqn:H;
                 [apply Delete_error in H as [-> ->]|]
             | _ => destruct x eqn:?
             end
         end; simpl in *.

Section ServiceCallErrors.
Implicit Types (now : Time) (err : error).

Lemma CreateBook_error_unchanged now book repo err :
  (service.CreateBook now book repo).1.1 = Some err →
  (service.CreateBook now book repo).2 = repo.
Proof.
  unfold service.CreateBook. service_paths; try done.
  apply Create_error_unchanged.
Qed.

Lemma UpdateBook_error_unchanged now book repo err :
  (service.UpdateBook now book repo).1.1 = Some err →
  (service.UpdateBook now book repo).2 = repo.
Proof. unfold service.UpdateBook. service_paths; done. Qed.

Lemma DeleteBook_error_unchanged id repo err :
  (service.DeleteBook id repo).1 = Some err →
  (service.DeleteBook id repo).2 = repo.
Proof. unfold service.DeleteBook. service_paths; done. Qed.

Lemma CreateAuthor_error_unchanged now author repo err :
  (service.CreateAuthor now author repo).1.1 = Some err →
  (service.CreateAuthor now author repo).2 = repo.
Proof.
  unfold service.CreateAuthor. destruct (Author.Validate author); [done|].
  apply Create_error_unchanged.
Qed.

Lemma UpdateAuthor_error_unchanged now author repo err :
  (service.UpdateAuthor now author repo).1.1 = Some err →
  (service.UpdateAuthor now author repo).2 = repo.
Proof. unfold service.UpdateAuthor. service_paths; done. Qed.

Lemma DeleteAuthor_error_unchanged id repo err :
  (service.DeleteAuthor id repo).1 = Some err →
  (service.DeleteAuthor id repo).2 = repo.
Proof. unfold service.DeleteAuthor. service_paths; done. Qed.

Lemma CreateReadingList_error_unchanged now list repo err :
  (service.CreateReadingList now list repo).1.1 = Some err →
  (service.CreateReadingList now list repo).2 = repo.
Proof.
  unfold service.CreateReadingList.
  destruct (ReadingList.Validate list); [done|].
  apply Create_error_unchanged.
Qed.

Lemma UpdateReadingList_error_unchanged now list repo err :
  (service.UpdateReadingList now list repo).1.1 = Some err →
  (service.UpdateReadingList now list repo).2 = repo.
Proof. unfold service.UpdateReadingList. service_paths; done. Qed.

Lemma DeleteReadingList_error_unchanged id repo err :
  (service.DeleteReadingList id repo).1 = Some err →
  (service.DeleteReadingList id repo).2 = repo.
Proof. unfold service.DeleteReadingList. service_paths; done. Qed.

Lemma AddBookToList_error_unchanged now listID bookID repo bookRepo err :
  (service.AddBookToList now listID bookID repo bookRepo).1 = Some err →
  (service.AddBookToList now listID bookID repo bookRepo).2 = repo.
Proof. unfold service.AddBookToList. service_paths; done. Qed.

Lemma RemoveBookFromList_error_unchanged now listID bookID repo err :
  (service.RemoveBookFromList now listID bookID repo).1 = Some err →
  (service.RemoveBookFromList now listID bookID repo).2 = repo.
Proof. unfold service.RemoveBookFromList. service_paths; done. Qed.
End ServiceCallErrors.

(** C10.  Error atomicity.  Whenever a service call returns an error, the
    three repository maps are what they were before the call. *)
Theorem C10_error_atomicity (now : Time) (c : Call) (w w' : World)
    (err : error) :
  exec now c w = (Some err, w') → w' = w.
Proof.
  destruct w as [books authors lists].
  destruct c; unfold exec; simpl.
  - pose proof (CreateBook_error_unchanged now book books err) as Hsame.
    destruct (service.CreateBook now book books) as [[? ?] ?].
    intros [= -> <-]. simpl in Hsame. by rewrite Hsame.
  - intros [= _ <-]. reflexivity.
  - pose proof (UpdateBook_error_unchanged now book books err) as Hsame.
    destruct (service.UpdateBook now book books) as [[? ?] ?].
    intros [= -> <-]. simpl in Hsame. by rewrite Hsame.
  - pose proof (DeleteBook_error_unchanged id books err) as Hsame.
    destruct (service.DeleteBook id books) as [? ?].
    intros [= -> <-]. simpl in Hsame. by rewrite Hsame.
  - pose proof (CreateAuthor_error_unchanged now author authors err)
      as Hsame.
    destruct (service.CreateAuthor now author authors) as [[? ?] ?].
    intros [= -> <-]. simpl in Hsame. by rewrite Hsame.
  - intros [= _ <-]. reflexivity.
  - pose proof (UpdateAuthor_error_unchanged now author authors err)
      as Hsame.
    destruct (service.UpdateAuthor now author authors) as [[? ?] ?].
    intros [= -> <-]. simpl in Hsame. by rewrite Hsame.
  - pose proof (DeleteAuthor_error_unchanged id authors err) as Hsame.
    destruct (service.DeleteAuthor id authors) as [? ?].
    intros [= -> <-]. simpl in Hsame. by rewrite Hsame.
  - pose proof (CreateReadingList_error_unchanged now list lists err)
      as Hsame.
    destruct (service.CreateReadingList now list lists) as [[? ?] ?].
    intros [= -> <-]. simpl in Hsame. by rewrite Hsame.
  - intros [= _ <-]. reflexivity.
  - pose proof (UpdateReadingList_error_unchanged now list lists err)
      as Hsame.
    destruct (service.UpdateReadingList now list lists) as [[? ?] ?].
    intros [= -> <-]. simpl in Hsame. by rewrite Hsame.
  - pose proof (DeleteReadingList_error_unchanged id lists err) as Hsame.
    destruct (service.DeleteReadingList id lists) as [? ?].
    intros [= -> <-]. simpl in Hsame. by rewrite Hsame.
  - pose proof (AddBookToList_error_unchanged now listID bookID lists books
                  err) as Hsame.
    destruct (service.AddBookToList now listID bookID lists books) as [? ?].
    intros [= -> <-]. simpl in Hsame. by rewrite Hsame.
  - pose proof (RemoveBookFromList_error_unchanged now listID bookID lists
                  err) as Hsame.
    destruct (service.RemoveBookFromList now listID bookID lists) as [? ?].
    intros [= -> <-]. simpl in Hsame. by rewrite Hsame.
Qed.

Lemma C10_error_atomicity_witness :
  (exec 6 (CreateBook (Book.mk "book-1" "T" "222" "a1" 0 0 "" 0 0))
     (mkWorld one_book ∅ ∅)).2
  = mkWorld one_book ∅ ∅.
Proof.
  apply (C10_error_atomicity 6
           (CreateBook (Book.mk "book-1" "T" "222" "a1" 0 0 "" 0 0))
           (mkWorld one_book ∅ ∅) _ (ErrVar repository_ErrBookExists)).
  vm_compute. reflexivity.
Defined.

(** ** Reachable repositories

    A service call leaves each repository as it was or applies one repository
    operation to it, so every repository reached from empty ones through the
    services stores its entities under their ids. *)

Section ServiceSteps.
Implicit Types (now : Time).

Lemma CreateBook_step now book repo :
  (service.CreateBook now book repo).2 = repo ∨
  (service.CreateBook now book repo).2 = step now (OpCreate book) repo.
Proof. unfold service.CreateBook. service_paths; auto. Qed.

Lemma UpdateBook_step now book repo :
  (service.UpdateBook now book repo).2 = repo ∨
  (service.UpdateBook now book repo).2 = step now (OpUpdate book) repo.
Proof.
  unfold service.UpdateBook, step.
  destruct (Book.Validate book); [by left|].
  destruct (service.UpdateBook_scan _ _); [by left|].
  destruct (repository.Update now book repo) as [[[?|] ?] ?]; simpl;
    [|by right].
  destruct (errors_Is _ _); by right.
Qed.

Lemma DeleteBook_step now id repo :
  (service.DeleteBook id repo).2 = step (E:=Book.t) now (OpDelete id) repo.
Proof.
  unfold service.DeleteBook, step.
  destruct (repository.Delete id repo) as [[?|] ?]; simpl; [|done].
  by destruct (errors_Is _ _).
Qed.

Lemma CreateAuthor_step now author repo :
  (service.CreateAuthor now author repo).2 = repo ∨
  (service.CreateAuthor now author repo).2 = step now (OpCreate author) repo.
Proof. unfold service.CreateAuthor. service_paths; auto. Qed.

Lemma UpdateAuthor_step now author repo :
  (service.UpdateAuthor now author repo).2 = repo ∨
  (service.UpdateAuthor now author repo).2 = step now (OpUpdate author) repo.
Proof.
  unfold service.UpdateAuthor, step.
  destruct (Author.Validate author); [by left|].
  destruct (repository.Update now author repo) as [[[?|] ?] ?]; simpl;
    [|by right].
  destruct (errors_Is _ _); by right.
Qed.

Lemma DeleteAuthor_step now id repo :
  (service.DeleteAuthor id repo).2 = step (E:=Author.t) now (OpDelete id) repo.
Proof.
  unfold service.DeleteAuthor, step.
  destruct (repository.Delete id repo) as [[?|] ?]; simpl; [|done].
  by destruct (errors_Is _ _).
Qed.

Lemma CreateReadingList_step now list repo :
  (service.CreateReadingList now list repo).2 = repo ∨
  (service.CreateReadingList now list repo).2
    = step now (OpCreate list) repo.
Proof. unfold service.CreateReadingList. service_paths; auto. Qed.

Lemma UpdateReadingList_step now list repo :
  (service.UpdateReadingList now list repo).2 = repo ∨
  (service.UpdateReadingList now list repo).2
    = step now (OpUpdate list) repo.
Proof.
  unfold service.UpdateReadingList, step.
  destruct (ReadingList.Validate list); [by left|].
  destruct (repository.Update now list repo) as [[[?|] ?] ?]; simpl;
    [|by right].
  destruct (errors_Is _ _); by right.
Qed.

Lemma DeleteReadingList_step now id repo :
  (service.DeleteReadingList id repo).2
    = step (E:=ReadingList.t) now (OpDelete id) repo.
Proof.
  unfold service.DeleteReadingList, step.
  destruct (repository.Delete id repo) as [[?|] ?]; simpl; [|done].
  by destruct (errors_Is _ _).
Qed.

Lemma AddBookToList_step now listID bookID repo bookRepo :
  (service.AddBookToList now listID bookID repo bookRepo).2 = repo ∨
  ∃ list, (service.AddBookToList now listID bookID repo bookRepo).2
          = step now (OpUpdate list) repo.
Proof.
  unfold service.AddBookToList, step.
  destruct (repository.Get bookID bookRepo); [|left; by destruct (errors_Is _ _)].
  destruct (repository.Get listID repo) as [list|];
    [|left; by destruct (errors_Is _ _)].
  destruct (ReadingList.AddBook list bookID) as [[|] list']; simpl; [|by left].
  right. exists list'.
  by destruct (repository.Update now list' repo) as [[? ?] ?].
Qed.

Lemma RemoveBookFromList_step now listID bookID repo :
  (service.RemoveBookFromList now listID bookID repo).2 = repo ∨
  ∃ list, (service.RemoveBookFromList now listID bookID repo).2
          = step now (OpUpdate list) repo.
Proof.
  unfold service.RemoveBookFromList, step.
  destruct (repository.Get listID repo) as [list|];
    [|left; by destruct (errors_Is _ _)].
  destruct (ReadingList.RemoveBook list bookID) as [[|] list']; simpl;
    [|by left].
  right. exists list'.
  by destruct (repository.Update now list' repo) as [[? ?] ?].
Qed.

Lemma exec_world_keyed now c w :
  world_keyed w → world_keyed (exec now c w).2.
Proof.
  destruct w as [books authors lists]. intros (Hb & Ha & Hl).
  cbn [bookRepo authorRepo listRepo] in *.
  destruct c; unfold exec, world_keyed;
    cbn [bookRepo authorRepo listRepo].
  - pose proof (CreateBook_step now book books) as Hs.
    destruct (service.CreateBook now book books) as [[? ?] r'].
    cbn [fst snd bookRepo authorRepo listRepo] in *.
    destruct Hs as [->| ->]; split_and!; try done; by apply step_keyed_by_ID.
  - done.
  - pose proof (UpdateBook_step now book books) as Hs.
    destruct (service.UpdateBook now book books) as [[? ?] r'].
    cbn [fst snd bookRepo authorRepo listRepo] in *.
    destruct Hs as [->| ->]; split_and!; try done; by apply step_keyed_by_ID.
  - pose proof (DeleteBook_step now id books) as Hs.
    destruct (service.DeleteBook id books) as [? r'].
    cbn [fst snd bookRepo authorRepo listRepo] in *.
    subst r'; split_and!; try done; by apply step_keyed_by_ID.
  - pose proof (CreateAuthor_step now author authors) as Hs.
    destruct (service.CreateAuthor now author authors) as [[? ?] r'].
    cbn [fst snd bookRepo authorRepo listRepo] in *.
    destruct Hs as [->| ->]; split_and!; try done; by apply step_keyed_by_ID.
  - done.
  - pose proof (UpdateAuthor_step now author authors) as Hs.
    destruct (service.UpdateAuthor now author authors) as [[? ?] r'].
    cbn [fst snd bookRepo authorRepo listRepo] in *.
    destruct Hs as [->| ->]; split_and!; try done; by apply step_keyed_by_ID.
  - pose proof (DeleteAuthor_step now id authors) as Hs.
    destruct (service.DeleteAuthor id authors) as [? r'].
    cbn [fst snd bookRepo authorRepo listRepo] in *.
    subst r'; split_and!; try done; by apply step_keyed_by_ID.
  - pose proof (CreateReadingList_step now list lists) as Hs.
    destruct (service.CreateReadingList now list lists) as [[? ?] r'].
    cbn [fst snd bookRepo authorRepo listRepo] in *.
    destruct Hs as [->| ->]; split_and!; try done; by apply step_keyed_by_ID.
  - done.
  - pose proof (UpdateReadingList_step now list lists) as Hs.
    destruct (service.UpdateReadingList now list lists) as [[? ?] r'].
    cbn [fst snd bookRepo authorRepo listRepo] in *.
    destruct Hs as [->| ->]; split_and!; try done; by apply step_keyed_by_ID.
  - pose proof (DeleteReadingList_step now id lists) as Hs.
    destruct (service.DeleteReadingList id lists) as [? r'].
    cbn [fst snd bookRepo authorRepo listRepo] in *.
    subst r'; split_and!; try done; by apply step_keyed_by_ID.
  - pose proof (AddBookToList_step now listID bookID lists books) as Hs.
    destruct (service.AddBookToList now listID bookID lists books)
      as [? r'].
    cbn [fst snd bookRepo authorRepo listRepo] in *.
    destruct Hs as [->|[list ->]]; split_and!; try done;
      by apply step_keyed_by_ID.
  - pose proof (RemoveBookFromList_step now listID bookID lists) as Hs.
    destruct (service.RemoveBookFromList now listID bookID lists) as [? r'].
    cbn [fst snd bookRepo authorRepo listRepo] in *.
    destruct Hs as [->|[list ->]]; split_and!; try done;
      by apply step_keyed_by_ID.
Qed.

Lemma empty_world_keyed : world_keyed (mkWorld ∅ ∅ ∅).
Proof. split_and!; apply map_Forall_empty. Qed.

(** The book service keeps ISBNs unique among the stored books. *)
Lemma exec_isbn_unique now c w :
  world_keyed w → isbn_unique (bookRepo w) →
  isbn_unique (bookRepo (exec now c w).2).
Proof.
  destruct w as [books authors lists]. intros (Hb & _ & _) Hu. simpl in *.
  destruct c; unfold exec; simpl; try done.
  - pose proof (CreateBook_isbn_unique now book books Hu) as Hu'.
    by destruct (service.CreateBook now book books) as [[? ?] ?].
  - pose proof (UpdateBook_isbn_unique now book books Hb Hu) as Hu'.
    by destruct (service.UpdateBook now book books) as [[? ?] ?].
  - pose proof (DeleteBook_isbn_unique id books Hu) as Hu'.
    by destruct (service.DeleteBook id books) as [? ?].
  - by destruct (service.CreateAuthor now author (authors)) as [[? ?] ?].
  - by destruct (service.UpdateAuthor now author (authors)) as [[? ?] ?].
  - by destruct (service.DeleteAuthor id authors) as [? ?].
  - by destruct (service.CreateReadingList now list lists) as [[? ?] ?].
  - by destruct (service.UpdateReadingList now list lists) as [[? ?] ?].
  - by destruct (service.DeleteReadingList id lists) as [? ?].
  - by destruct (service.AddBookToList now listID bookID lists books)
      as [? ?].
  - by destruct (service.RemoveBookFromList now listID bookID lists)
      as [? ?].
Qed.
End ServiceSteps.

(** ** ReadingListService *)

(** C2.  [AddBookToList] fails with [ErrBookNotFound] when the book repository
    does not hold [bookID], whatever else holds; otherwise with
    [ErrReadingListNotFound] when the list repository does not hold [listID];
    otherwise with [ErrBookAlreadyInList] when [bookID] is a member of the
    list; otherwise it succeeds and the list stored under [listID] has
    [bookID] appended to its members.  [RemoveBookFromList] fails with
    [ErrReadingListNotFound] when [listID] is not stored; otherwise with
    [ErrBookNotInList] when [bookID] is not a member; otherwise it succeeds
    and the list stored under [listID] has the first occurrence of [bookID]
    cut out.  A stored list keeps its [CreatedAt] and takes the time of the
    call as [UpdatedAt]; a failed call leaves the repository as it was. *)
Theorem C2_list_membership (now : Time) (listID bookID : string)
    (repo : gmap string ReadingList.t) (bookRepo : gmap string Book.t) :
  keyed_by_ID repo →
  (bookRepo !! bookID = None →
   service.AddBookToList now listID bookID repo bookRepo
     = (Some (ErrVar service_ErrBookNotFound), repo))
  ∧ (is_Some (bookRepo !! bookID) → repo !! listID = None →
     service.AddBookToList now listID bookID repo bookRepo
       = (Some (ErrVar service_ErrReadingListNotFound), repo))
  ∧ (∀ list, is_Some (bookRepo !! bookID) → repo !! listID = Some list →
     (bookID ∈ ReadingList.BookIDs list →
      service.AddBookToList now listID bookID repo bookRepo
        = (Some (ErrVar service_ErrBookAlreadyInList), repo))
     ∧ (bookID ∉ ReadingList.BookIDs list →
        service.AddBookToList now listID bookID repo bookRepo
          = (None,
             <[listID :=
                 ReadingList.stamp (ReadingList.CreatedAt list) now
                   (ReadingList.setBookIDs
                      (ReadingList.BookIDs list ++ [bookID]) list)]> repo)))
  ∧ (repo !! listID = None →
     service.RemoveBookFromList now listID bookID repo
       = (Some (ErrVar service_ErrReadingListNotFound), repo))
  ∧ (∀ list, repo !! listID = Some list →
     (bookID ∉ ReadingList.BookIDs list →
      service.RemoveBookFromList now listID bookID repo
        = (Some (ErrVar service_ErrBookNotInList), repo))
     ∧ (bookID ∈ ReadingList.BookIDs list →
        ∃ before after,
          ReadingList.BookIDs list = before ++ (bookID :: after) ∧
          (bookID ∉ before) ∧
          service.RemoveBookFromList now listID bookID repo
            = (None,
               <[listID :=
                   ReadingList.stamp (ReadingList.CreatedAt list) now
                     (ReadingList.setBookIDs (before ++ after) list)]>
                 repo))).
Proof.
  intros Hkeyed.
  assert (Hpersist : ∀ list ids, repo !! listID = Some list →
    repository.Update now (ReadingList.setBookIDs ids list) repo
      = (None,
         ReadingList.stamp (ReadingList.CreatedAt list) now
           (ReadingList.setBookIDs ids list),
         <[listID := ReadingList.stamp (ReadingList.CreatedAt list) now
                       (ReadingList.setBookIDs ids list)]> repo)).
  { intros list ids Hlist.
    pose proof (Hkeyed _ _ Hlist) as Hkey. simpl in Hkey.
    rewrite (Update_present now _ repo list) by (simpl; by rewrite Hkey).
    simpl. by rewrite Hkey. }
  split_and!.
  - intros Hbook. unfold service.AddBookToList, repository.Get.
    by rewrite Hbook.
  - intros [book Hbook] Hlist. unfold service.AddBookToList, repository.Get.
    by rewrite Hbook, Hlist.
  - intros list [book Hbook] Hlist.
    unfold service.AddBookToList, repository.Get. rewrite Hbook, Hlist.
    unfold ReadingList.AddBook. split.
    + intros Hin%ContainsBook_ids_true. by rewrite Hin.
    + intros Hnotin%ContainsBook_ids_false. rewrite Hnotin. simpl.
      by rewrite (Hpersist list _ Hlist).
  - intros Hlist. unfold service.RemoveBookFromList, repository.Get.
    by rewrite Hlist.
  - intros list Hlist.
    unfold service.RemoveBookFromList, repository.Get. rewrite Hlist.
    unfold ReadingList.RemoveBook. split.
    + intros Hnotin%RemoveBook_ids_absent. by rewrite Hnotin.
    + intros Hin.
      destruct (RemoveBook_ids_present _ _ Hin)
        as (before & after & Hsplit & Hnotin & Hrm).
      exists before, after. rewrite Hrm. simpl.
      by rewrite (Hpersist list _ Hlist).
Qed.

Lemma C2_list_membership_witness :
  service.AddBookToList 11 "list-1" "book-9" one_list one_book
    = (Some (ErrVar service_ErrBookNotFound), one_list)
  ∧ service.AddBookToList 11 "list-9" "book-1" one_list one_book
    = (Some (ErrVar service_ErrReadingListNotFound), one_list)
  ∧ service.AddBookToList 11 "list-1" "book-1" one_list one_book
    = (Some (ErrVar service_ErrBookAlreadyInList), one_list)
  ∧ service.RemoveBookFromList 11 "list-1" "book-9" one_list
    = (Some (ErrVar service_ErrBookNotInList), one_list)
  ∧ service.AddBookToList 11 "list-1" "book-3"
      one_list (<["book-3" := valid_book]> one_book)
    = (None,
       <["list-1" :=
           ReadingList.mk "list-1" "Summer" ""
             ["book-1"; "book-2"; "book-3"] 7 11]> one_list).
Proof.
  assert (Hkeyed : keyed_by_ID one_list).
  { refine (bool_decide_unpack _ _). vm_compute. reflexivity. }
  split_and!.
  - destruct (C2_list_membership 11 "list-1" "book-9" one_list one_book
                Hkeyed) as (Hnobook & _).
    apply Hnobook. reflexivity.
  - destruct (C2_list_membership 11 "list-9" "book-1" one_list one_book
                Hkeyed) as (_ & Hnolist & _).
    apply Hnolist; [by eexists | reflexivity].
  - destruct (C2_list_membership 11 "list-1" "book-1" one_list one_book
                Hkeyed) as (_ & _ & Hadd & _).
    apply (Hadd two_books); [by eexists | reflexivity | compute_done].
  - destruct (C2_list_membership 11 "list-1" "book-9" one_list one_book
                Hkeyed) as (_ & _ & _ & _ & Hrm).
    apply (Hrm two_books); [reflexivity | compute_done].
  - destruct (C2_list_membership 11 "list-1" "book-3" one_list
                (<["book-3" := valid_book]> one_book) Hkeyed)
      as (_ & _ & Hadd & _).
    apply (Hadd two_books); [by eexists | reflexivity | compute_done].
Defined.

(** ** Basic authentication *)

Section StringFacts.
Implicit Types (s t u p rest : string) (c : ascii) (n : nat).
Local Arguments String.append : simpl nomatch.

Lemma length_append s t :
  String.length (s +:+ t) = (String.length s + String.length t)%nat.
Proof. induction s as [|a s IH]; simpl; [done | by rewrite IH]. Qed.

Lemma append_assoc s t u : (s +:+ t) +:+ u = s +:+ (t +:+ u).
Proof. induction s as [|a s IH]; simpl; [done | by rewrite IH]. Qed.

Lemma substring_all s : substring 0 (String.length s) s = s.
Proof. induction s as [|a s IH]; simpl; [done | by rewrite IH]. Qed.

Lemma slice_to_app p rest :
  middleware.slice_to (p +:+ rest) (String.length p) = p.
Proof.
  unfold middleware.slice_to.
  induction p as [|a p IH]; simpl; [by destruct rest | by rewrite IH].
Qed.

Lemma slice_from_app p rest :
  middleware.slice_from (p +:+ rest) (String.length p) = rest.
Proof.
  unfold middleware.slice_from.
  induction p as [|a p IH]; simpl.
  - rewrite Nat.sub_0_r. apply substring_all.
  - exact IH.
Qed.

Lemma slice_split s n :
  (n ≤ String.length s)%nat →
  s = middleware.slice_to s n +:+ middleware.slice_from s n ∧
  String.length (middleware.slice_to s n) = n.
Proof.
  unfold middleware.slice_to, middleware.slice_from.
  revert n. induction s as [|a s IH]; intros n Hn; simpl in *.
  - assert (n = 0%nat) as -> by lia. done.
  - destruct n as [|n]; simpl.
    + split; [|done]. by rewrite substring_all.
    + destruct (IH n) as [Hs Hl]; [lia|]. rewrite Hl. by rewrite <- Hs.
Qed.

Lemma length_lower s : String.length (lower s) = String.length s.
Proof. induction s as [|a s IH]; simpl; [done | by rewrite IH]. Qed.

Lemma EqualFold_lower s t :
  middleware.EqualFold s t = true ↔ lower s = lower t.
Proof.
  revert t. induction s as [|a s IH]; intros [|b t]; simpl;
    try (split; [discriminate | discriminate]); [done|].
  rewrite andb_true_iff, Ascii.eqb_eq, IH. split.
  - intros [-> ->]. done.
  - intros [= -> ->]. done.
Qed.

Lemma IndexByte_lower_bound s c : -1 ≤ middleware.IndexByte s c.
Proof.
  induction s as [|a s IH]; simpl; [lia|].
  destruct (Ascii.eqb a c); [lia|].
  destruct (middleware.IndexByte s c <? 0) eqn:Hneg; [lia|].
  apply Z.ltb_ge in Hneg. lia.
Qed.

(** [IndexByte] finds the first occurrence. *)
Lemma IndexByte_first before after c :
  ¬ contains_byte before c →
  middleware.IndexByte (before +:+ String c after) c
    = Z.of_nat (String.length before).
Proof.
  induction before as [|a before IH]; intros Hfirst; simpl.
  - by rewrite Ascii.eqb_refl.
  - destruct (Ascii.eqb a c) eqn:Hac.
    + apply Ascii.eqb_eq in Hac as ->. exfalso. apply Hfirst.
      by exists "", before.
    + rewrite IH.
      * destruct (Z.of_nat (String.length before) <? 0) eqn:Hneg; [|lia].
        apply Z.ltb_lt in Hneg. lia.
      * intros (u & v & ->). apply Hfirst. by exists (String a u), v.
Qed.

Lemma IndexByte_found s c :
  0 ≤ middleware.IndexByte s c →
  ∃ before after, s = before +:+ String c after ∧
                  ¬ contains_byte before c.
Proof.
  induction s as [|a s IH]; simpl; [lia|].
  destruct (Ascii.eqb a c) eqn:Hac.
  - apply Ascii.eqb_eq in Hac as ->. intros _. exists "", s.
    split; [done|]. intros (u & v & Huv). by destruct u.
  - destruct (middleware.IndexByte s c <? 0) eqn:Hneg; [lia|].
    apply Z.ltb_ge in Hneg. intros _.
    destruct (IH Hneg) as (before & after & -> & Hfirst).
    exists (String a before), after. split; [done|].
    intros (u & v & Huv). destruct u as [|a' u]; simpl in Huv.
    + injection Huv as -> _. by rewrite Ascii.eqb_refl in Hac.
    + injection Huv as _ ->. apply Hfirst. by exists u, v.
Qed.

Lemma contains_byte_IndexByte s c :
  contains_byte s c ↔ 0 ≤ middleware.IndexByte s c.
Proof.
  split.
  - intros (before & after & ->).
    induction before as [|a before IH]; simpl.
    + by rewrite Ascii.eqb_refl.
    + destruct (Ascii.eqb a c); [done|].
      destruct (middleware.IndexByte _ c <? 0) eqn:Hneg; [|lia].
      apply Z.ltb_lt in Hneg. lia.
  - intros (before & after & -> & _)%IndexByte_found. by exists before, after.
Qed.
End StringFacts.

Section ParseBasicAuth.
Variable base64_DecodeString : string → option string.

Lemma parseBasicAuth_split username password :
  ¬ contains_byte username middleware.colon →
  let decoded := username +:+ String middleware.colon password in
  let colonIdx := middleware.IndexByte decoded middleware.colon in
  colonIdx = Z.of_nat (String.length username) ∧
  middleware.slice_to decoded (Z.to_nat colonIdx) = username ∧
  middleware.slice_from decoded (Z.to_nat (colonIdx + 1)) = password.
Proof.
  intros Hfirst decoded colonIdx.
  assert (Hidx : colonIdx = Z.of_nat (String.length username))
    by by apply IndexByte_first.
  rewrite Hidx. split_and!; [done | |].
  - rewrite Nat2Z.id. apply slice_to_app.
  - replace (Z.to_nat (Z.of_nat (String.length username) + 1))
      with (String.length (username +:+ String middleware.colon ""))
      by (rewrite length_append; simpl; lia).
    unfold decoded.
    replace (username +:+ String middleware.colon password)
      with ((username +:+ String middleware.colon "") +:+ password)
      by (by rewrite append_assoc).
    apply slice_from_app.
Qed.

Lemma parseBasicAuth_ok auth username password :
  middleware.parseBasicAuth base64_DecodeString auth
    = (username, password, true)
  ↔ basic_credentials base64_DecodeString auth username password.
Proof.
  unfold middleware.parseBasicAuth, basic_credentials. split.
  - destruct (String.length auth <? String.length "Basic ")%nat eqn:Hlen;
      [discriminate|]. apply Nat.ltb_ge in Hlen. simpl orb.
    destruct (middleware.EqualFold _ _) eqn:Hfold; [|discriminate].
    apply EqualFold_lower in Hfold. simpl negb. cbv iota.
    destruct (slice_split auth _ Hlen) as [Hsplit _].
    destruct (base64_DecodeString _) as [decoded|] eqn:Hdec;
      [|discriminate].
    destruct (middleware.IndexByte decoded middleware.colon <? 0)
      eqn:Hneg; [discriminate|]. apply Z.ltb_ge in Hneg.
    destruct (IndexByte_found _ _ Hneg) as (u & v & -> & Hfirst).
    destruct (parseBasicAuth_split u v Hfirst) as (_ & -> & ->).
    intros [= <- <-].
    eexists _, _, _. split_and!; [exact Hsplit | exact Hfold | exact Hdec
                                  | done | done].
  - intros (prefix & payload & decoded & -> & Hprefix & Hdec & -> & Hfirst).
    assert (Hlen : String.length prefix = 6%nat).
    { by rewrite <- length_lower, Hprefix. }
    change (String.length "Basic ") with 6%nat. rewrite <- Hlen.
    rewrite slice_to_app, slice_from_app, Hdec.
    rewrite length_append.
    replace (_ <? _)%nat with false by (symmetry; apply Nat.ltb_ge; lia).
    replace (middleware.EqualFold prefix "Basic ") with true
      by (symmetry; by apply EqualFold_lower).
    simpl orb. cbv iota.
    destruct (parseBasicAuth_split username password Hfirst)
      as (Hidx & -> & ->).
    rewrite Hidx.
    replace (_ <? 0) with false by (symmetry; apply Z.ltb_ge; lia).
    done.
Qed.

Lemma parseBasicAuth_cases auth :
  (∃ username password,
     middleware.parseBasicAuth base64_DecodeString auth
       = (username, password, true))
  ∨ middleware.parseBasicAuth base64_DecodeString auth = ("", "", false).
Proof.
  unfold middleware.parseBasicAuth.
  repeat case_match; eauto.
Qed.
End ParseBasicAuth.

(** C9.  [BasicAuth] calls the wrapped handler if and only if the
    [Authorization] header is "Basic " (in any case of its letters) followed
    by valid base64 whose decoding contains a colon, and the user store
    authenticates the user name before the first colon with the password
    after it; the request handed on carries the user the store returned in
    its context.  In every other case the answer is [requireAuth]: status 401
    with the header [WWW-Authenticate: Basic realm="<realm>"].  The in-memory
    store authenticates exactly the stored user names with their stored
    password, and returns the user name with its stored role. *)
Theorem C9_basic_auth (base64_DecodeString : string → option string)
    {S : Type} `{!middleware.UserStore S} (store : S) (realm : string)
    (r : middleware.Request) :
  (∀ r' : middleware.Request,
     middleware.BasicAuth base64_DecodeString store realm r
       = middleware.ServeNext r'
     ↔ ∃ username password user,
         basic_credentials base64_DecodeString (middleware.Authorization r)
           username password ∧
         middleware.Authenticate store username password = (user, true) ∧
         r' = middleware.mkRequest (middleware.Authorization r) user)
  ∧ ((∀ r', middleware.BasicAuth base64_DecodeString store realm r
             ≠ middleware.ServeNext r') →
     middleware.BasicAuth base64_DecodeString store realm r
       = middleware.Respond (middleware.requireAuth realm))
  ∧ middleware.StatusCode (middleware.requireAuth realm) = 401
  ∧ middleware.Header (middleware.requireAuth realm) !! "WWW-Authenticate"
    = Some ("Basic realm=" +:+ middleware.quote +:+ realm
            +:+ middleware.quote)
  ∧ (∀ (s : middleware.InMemoryUserStore) username password user,
     middleware.Authenticate s username password = (user, true)
     ↔ ∃ creds, middleware.users s !! username = Some creds ∧
                middleware.Password creds = password ∧
                user = Some (middleware.mkUser username
                               (default "" (middleware.roles s !! username)))).
Proof.
  split_and!.
  - intros r'. unfold middleware.BasicAuth. split.
    + destruct (parseBasicAuth_cases base64_DecodeString
                  (middleware.Authorization r))
        as [(username & password & Hparse)|Hparse]; rewrite Hparse; simpl;
        [|discriminate].
      destruct (middleware.Authenticate store username password)
        as [user authenticated] eqn:Hauth.
      destruct authenticated; simpl; [|discriminate].
      intros [= <-]. exists username, password, user.
      split_and!; [by apply parseBasicAuth_ok | done | done].
    + intros (username & password & user & Hcreds & Hauth & ->).
      apply parseBasicAuth_ok in Hcreds. rewrite Hcreds. simpl.
      by rewrite Hauth.
  - intros Hnot. unfold middleware.BasicAuth in *.
    destruct (middleware.parseBasicAuth _ _) as [[username password] ok].
    destruct ok; simpl in *; [|done].
    destruct (middleware.Authenticate store username password)
      as [user authenticated].
    destruct authenticated; simpl in *; [|done].
    by destruct (Hnot (middleware.mkRequest (middleware.Authorization r)
                         user)).
  - reflexivity.
  - unfold middleware.requireAuth, middleware.http_Error. simpl.
    rewrite !lookup_insert_ne by done.
    rewrite lookup_delete_ne by done.
    by rewrite lookup_insert_eq.
  - intros s username password user. simpl.
    unfold middleware.InMemoryUserStore_Authenticate,
      middleware.ConstantTimeCompare.
    destruct (middleware.users s !! username) as [creds|]; split.
    + destruct (decide (middleware.Password creds = password)); simpl;
        [|discriminate].
      intros [= <-]. by exists creds.
    + intros (creds' & [= <-] & Hpw & ->).
      by rewrite decide_True by done.
    + discriminate.
    + intros (creds' & [=] & _).
Qed.

Lemma C9_basic_auth_witness :
  middleware.BasicAuth sample_decode sample_store "bookshelf"
    (middleware.mkRequest "basic dXNlcjpwYXNz" None)
  = middleware.ServeNext
      (middleware.mkRequest "basic dXNlcjpwYXNz"
         (Some (middleware.mkUser "user" "admin")))
  ∧ middleware.BasicAuth sample_decode sample_store "bookshelf"
      (middleware.mkRequest "Bearer dXNlcjpwYXNz" None)
    = middleware.Respond (middleware.requireAuth "bookshelf").
Proof.
  split.
  - apply (C9_basic_auth sample_decode sample_store "bookshelf"
             (middleware.mkRequest "basic dXNlcjpwYXNz" None)).
    exists "user", "pass", (Some (middleware.mkUser "user" "admin")).
    split_and!; [|reflexivity|reflexivity].
    exists "basic ", "dXNlcjpwYXNz", "user:pass".
    split_and!; [reflexivity | reflexivity | reflexivity | reflexivity |].
    intros Hcolon%contains_byte_IndexByte. vm_compute in Hcolon.
    by apply Hcolon.
  - apply (C9_basic_auth sample_decode sample_store "bookshelf"
             (middleware.mkRequest "Bearer dXNlcjpwYXNz" None)).
    intros r'. vm_compute. discriminate.
Defined.

(** * Further properties *)

(** ** Repositories: lookup, removal, listing *)

Section RepositoryQueries.
Context {E : Type} `{!Entity E}.
Implicit Types (r : gmap string E) (e : E) (id : string).

Lemma Count_insert_fresh id e r :
  r !! id = None →
  repository.Count (<[id := e]> r) = repository.Count r + 1.
Proof.
  intros Hfresh. unfold repository.Count.
  rewrite map_size_insert_None by done. lia.
Qed.

Lemma Count_insert_present id e r :
  is_Some (r !! id) → repository.Count (<[id := e]> r) = repository.Count r.
Proof.
  intros Hpresent. unfold repository.Count.
  by rewrite map_size_insert_Some.
Qed.

Lemma Count_delete_present id r :
  is_Some (r !! id) → repository.Count (delete id r) = repository.Count r - 1.
Proof.
  intros Hpresent. unfold repository.Count.
  rewrite map_size_delete_Some by done.
  assert (size r ≠ 0%nat).
  { intros Hzero%map_size_empty_inv. subst r. destruct Hpresent as [e He].
    by apply lookup_empty_Some in He. }
  lia.
Qed.

Lemma List_keyed_IDs r :
  keyed_by_ID r → entityID <$> repository.List r = (map_to_list r).*1.
Proof.
  intros Hk. unfold repository.List. rewrite <- list_fmap_compose.
  apply Forall_fmap_ext_1, Forall_forall. intros [id e] Hin.
  apply elem_of_map_to_list in Hin. simpl. by apply Hk in Hin.
Qed.
End RepositoryQueries.

(** X1.  [Delete] on an id that is not stored fails with the repository's
    not-found error and leaves the map as it is.  On a stored id it succeeds;
    afterwards [Get] of that id and a second [Delete] of it fail with the
    not-found error, every other id reads as before, and [Count] is one
    less. *)
Theorem X1_delete {E : Type} `{!Entity E} (id : string)
    (r : gmap string E) :
  (r !! id = None →
   repository.Delete id r = (Some (ErrVar errNotFound), r))
  ∧ (is_Some (r !! id) →
     (repository.Delete id r).1 = None ∧
     repository.Get id (repository.Delete id r).2
       = inr (ErrVar errNotFound) ∧
     (repository.Delete id (repository.Delete id r).2).1
       = Some (ErrVar errNotFound) ∧
     (∀ id', id' ≠ id →
        repository.Get id' (repository.Delete id r).2
          = repository.Get id' r) ∧
     repository.Count (repository.Delete id r).2 = repository.Count r - 1).
Proof.
  split.
  - intros Hnone. unfold repository.Delete. by rewrite Hnone.
  - intros [e He]. unfold repository.Delete, repository.Get. rewrite He.
    simpl. rewrite lookup_delete_eq. split_and!; try done.
    + intros id' Hne. by rewrite lookup_delete_ne.
    + apply Count_delete_present. by exists e.
Qed.

Lemma X1_delete_witness :
  repository.Get "book-1" (repository.Delete "book-1" one_book).2
    = inr (ErrVar repository_ErrBookNotFound)
  ∧ repository.Delete "book-9" one_book
    = (Some (ErrVar repository_ErrBookNotFound), one_book).
Proof.
  split.
  - destruct (X1_delete "book-1" one_book) as [_ Hstored].
    destruct Hstored as (_ & Hget & _); [by eexists | exact Hget].
  - destruct (X1_delete "book-9" one_book) as [Hmissing _].
    apply Hmissing. reflexivity.
Defined.

(** X2.  [Create] succeeds exactly on an id that is not stored, and [Update]
    exactly on one that is.  A successful [Create] makes [Get] of the id
    return the entity with both times set to the time of the call and adds
    one to [Count]; a successful [Update] keeps [Count]; both leave every
    other id reading as before.  The caller's entity comes back with the
    stored times written into it. *)
Theorem X2_create_update_frame {E : Type} `{!Entity E} (now : Time) (e : E)
    (r : gmap string E) :
  ((repository.Create now e r).1.1 = None ↔ r !! entityID e = None)
  ∧ ((repository.Update now e r).1.1 = None ↔ is_Some (r !! entityID e))
  ∧ (r !! entityID e = None →
     repository.Get (entityID e) (repository.Create now e r).2
       = inl (stamp now now e) ∧
     (repository.Create now e r).1.2 = stamp now now e ∧
     repository.Count (repository.Create now e r).2
       = repository.Count r + 1 ∧
     ∀ id', id' ≠ entityID e →
       repository.Get id' (repository.Create now e r).2
         = repository.Get id' r)
  ∧ (∀ old, r !! entityID e = Some old →
     repository.Get (entityID e) (repository.Update now e r).2
       = inl (stamp (createdAt old) now e) ∧
     (repository.Update now e r).1.2 = stamp (createdAt old) now e ∧
     repository.Count (repository.Update now e r).2 = repository.Count r ∧
     ∀ id', id' ≠ entityID e →
       repository.Get id' (repository.Update now e r).2
         = repository.Get id' r).
Proof.
  split_and!.
  - unfold repository.Create. destruct (r !! entityID e); simpl; split;
      congruence.
  - unfold repository.Update. destruct (r !! entityID e); simpl; split;
      done.
  - intros Hfresh. rewrite Create_fresh by done. simpl.
    unfold repository.Get. rewrite lookup_insert_eq.
    split_and!; [done | done | by apply Count_insert_fresh |].
    intros id' Hne. by rewrite lookup_insert_ne.
  - intros old Hold. rewrite (Update_present now e r old) by done. simpl.
    unfold repository.Get. rewrite lookup_insert_eq.
    split_and!; [done | done | apply Count_insert_present; by exists old |].
    intros id' Hne. by rewrite lookup_insert_ne.
Qed.

Lemma X2_create_update_frame_witness :
  repository.Count
    (repository.Create 6 (Book.mk "book-2" "U" "222" "a1" 0 0 "" 0 0)
       one_book).2 = 2
  ∧ repository.Count (repository.Update 6 valid_book one_book).2 = 1.
Proof.
  destruct (X2_create_update_frame 6
              (Book.mk "book-2" "U" "222" "a1" 0 0 "" 0 0) one_book)
    as (_ & _ & Hcreate & _).
  destruct (X2_create_update_frame 6 valid_book one_book)
    as (_ & _ & _ & Hupdate).
  split.
  - destruct Hcreate as (_ & _ & Hcount & _); [reflexivity|].
    rewrite Hcount. reflexivity.
  - destruct (Hupdate (Book.mk "book-1" "T" "111" "a1" 0 0 "" 5 5))
      as (_ & _ & Hcount & _); [reflexivity|].
    rewrite Hcount. reflexivity.
Defined.

(** X3.  [List] returns exactly the stored entities, as many as [Count]
    says, none for an empty repository; in a repository that stores entities
    under their ids no two listed entities have the same id. *)
Theorem X3_list_count {E : Type} `{!Entity E} (r : gmap string E) :
  Z.of_nat (length (repository.List r)) = repository.Count r
  ∧ (∀ e, e ∈ repository.List r ↔ ∃ id, repository.Get id r = inl e)
  ∧ (repository.List r = [] ↔ r = ∅)
  ∧ (keyed_by_ID r → NoDup (entityID <$> repository.List r)).
Proof.
  split_and!.
  - unfold repository.List, repository.Count.
    by rewrite length_fmap, length_map_to_list.
  - intros e. rewrite elem_of_List. unfold repository.Get.
    split; intros [id Hid]; exists id.
    + by rewrite Hid.
    + destruct (r !! id); by simplify_eq.
  - unfold repository.List. rewrite <- map_to_list_empty_iff. split.
    + apply fmap_nil_inv.
    + by intros ->.
  - intros Hk. rewrite List_keyed_IDs by done. apply NoDup_fst_map_to_list.
Qed.

Lemma X3_list_count_witness :
  NoDup (Book.ID <$> repository.List one_book).
Proof.
  destruct (X3_list_count one_book) as (_ & _ & _ & Hnodup).
  apply Hnodup.
  refine (bool_decide_unpack _ _). vm_compute. reflexivity.
Defined.

(** X4.  [FindByAuthor], [FindByCountry] and [FindByBook] return exactly the
    stored entities whose author id, country, resp. member ids match; so the
    result is empty when nothing matches, which is no error.  In a
    repository that stores entities under their ids no entity is returned
    twice. *)
Theorem X4_find_by (bookRepo0 : gmap string Book.t)
    (authorRepo0 : gmap string Author.t)
    (listRepo0 : gmap string ReadingList.t) (key : string) :
  (∀ b, b ∈ BookRepository.FindByAuthor key bookRepo0 ↔
        (∃ id, bookRepo0 !! id = Some b) ∧ Book.AuthorID b = key)
  ∧ (∀ a, a ∈ AuthorRepository.FindByCountry key authorRepo0 ↔
          (∃ id, authorRepo0 !! id = Some a) ∧ Author.Country a = key)
  ∧ (∀ l, l ∈ ReadingListRepository.FindByBook key listRepo0 ↔
          (∃ id, listRepo0 !! id = Some l) ∧ key ∈ ReadingList.BookIDs l)
  ∧ (keyed_by_ID bookRepo0 →
     NoDup (Book.ID <$> BookRepository.FindByAuthor key bookRepo0))
  ∧ (keyed_by_ID authorRepo0 →
     NoDup (Author.ID <$> AuthorRepository.FindByCountry key authorRepo0))
  ∧ (keyed_by_ID listRepo0 →
     NoDup (ReadingList.ID <$>
              ReadingListRepository.FindByBook key listRepo0)).
Proof.
  assert (Hfilter : ∀ (A : Type) (p : A → bool) (l : list A) (x : A),
            x ∈ List.filter p l ↔ x ∈ l ∧ p x = true).
  { intros A p l x. rewrite !list_elem_of_In. apply filter_In. }
  assert (Hsub : ∀ (A : Type) (p : A → bool) (l : list A),
            List.filter p l `sublist_of` l).
  { intros A p l. induction l as [|x l IH]; simpl; [done|].
    destruct (p x); [by apply sublist_skip | by apply sublist_cons]. }
  assert (Hnodup : ∀ (E : Type) (HE : Entity E) (p : E → bool)
                     (r : gmap string E),
            keyed_by_ID r →
            NoDup (entityID <$> List.filter p (repository.List r))).
  { intros E HE p r Hk.
    eapply sublist_NoDup; [|apply fmap_sublist, Hsub].
    rewrite List_keyed_IDs by done. apply NoDup_fst_map_to_list. }
  split_and!.
  - intros b. unfold BookRepository.FindByAuthor.
    by rewrite Hfilter, elem_of_List, bool_decide_eq_true.
  - intros a. unfold AuthorRepository.FindByCountry.
    by rewrite Hfilter, elem_of_List, bool_decide_eq_true.
  - intros l. unfold ReadingListRepository.FindByBook.
    rewrite Hfilter, elem_of_List. unfold ReadingList.ContainsBook.
    by rewrite ContainsBook_ids_true.
  - intros Hk. by apply (Hnodup Book.t Book_Entity).
  - intros Hk. by apply (Hnodup Author.t Author_Entity).
  - intros Hk. by apply (Hnodup ReadingList.t ReadingList_Entity).
Qed.

Lemma X4_find_by_witness :
  NoDup (Book.ID <$> BookRepository.FindByAuthor "a1" (bookRepo sample_world)).
Proof.
  destruct (X4_find_by (bookRepo sample_world) ∅ ∅ "a1")
    as (_ & _ & _ & Hnodup & _).
  apply Hnodup. refine (bool_decide_unpack _ _). vm_compute. reflexivity.
Defined.

(** ** Services: outcomes of the calls *)



(** X6.  Update round trip.  After a successful [UpdateBook], [GetBook] with
    the book's id returns the book as given, with the creation time of the
    book it replaces and the time of the call as update time; the same
    struct comes back to the caller.  [UpdateAuthor] and [UpdateReadingList]
    do the same; in particular a successful [UpdateReadingList] stores the
    member ids it is given, whatever they are. *)
Theorem X6_update_get_roundtrip (now : Time) :
  (∀ (book : Book.t) (repo : gmap string Book.t),
     (service.UpdateBook now book repo).1.1 = None →
     ∃ old, repo !! Book.ID book = Some old ∧
       service.GetBook (Book.ID book) (service.UpdateBook now book repo).2
         = inl (Book.stamp (Book.CreatedAt old) now book) ∧
       (service.UpdateBook now book repo).1.2
         = Book.stamp (Book.CreatedAt old) now book)
  ∧ (∀ (author : Author.t) (repo : gmap string Author.t),
     (service.UpdateAuthor now author repo).1.1 = None →
     ∃ old, repo !! Author.ID author = Some old ∧
       service.GetAuthor (Author.ID author)
         (service.UpdateAuthor now author repo).2
         = inl (Author.stamp (Author.CreatedAt old) now author))
  ∧ (∀ (list : ReadingList.t) (repo : gmap string ReadingList.t),
     (service.UpdateReadingList now list repo).1.1 = None →
     ∃ old stored, repo !! ReadingList.ID list = Some old ∧
       service.GetReadingList (ReadingList.ID list)
         (service.UpdateReadingList now list repo).2 = inl stored ∧
       stored = ReadingList.stamp (ReadingList.CreatedAt old) now list ∧
       ReadingList.BookIDs stored = ReadingList.BookIDs list).
Proof.
  split_and!.
  - intros book repo.
    unfold service.UpdateBook, service.GetBook, repository.Update,
      repository.Get.
    destruct (Book.Validate book); [done|].
    destruct (service.UpdateBook_scan _ _); [done|].
    destruct (repo !! entityID book) as [old|] eqn:Hold; [|done].
    intros _. exists old. simpl. by rewrite lookup_insert_eq.
  - intros author repo.
    unfold service.UpdateAuthor, service.GetAuthor, repository.Update,
      repository.Get.
    destruct (Author.Validate author); [done|].
    destruct (repo !! entityID author) as [old|] eqn:Hold; [|done].
    intros _. exists old. simpl. by rewrite lookup_insert_eq.
  - intros list repo.
    unfold service.UpdateReadingList, service.GetReadingList,
      repository.Update, repository.Get.
    destruct (ReadingList.Validate list); [done|].
    destruct (repo !! entityID list) as [old|] eqn:Hold; [|done].
    intros _. exists old. eexists. simpl. by rewrite lookup_insert_eq.
Qed.

Lemma X6_update_get_roundtrip_witness :
  ∃ old, one_book !! "book-1" = Some old ∧
    service.GetBook "book-1"
      (service.UpdateBook 6 (Book.mk "book-1" "T2" "111" "a1" 0 0 "" 0 0)
         one_book).2
    = inl (Book.mk "book-1" "T2" "111" "a1" 0 0 "" (Book.CreatedAt old) 6).
Proof.
  destruct (X6_update_get_roundtrip 6) as (Hbook & _).
  destruct (Hbook (Book.mk "book-1" "T2" "111" "a1" 0 0 "" 0 0) one_book)
    as (old & Hold & Hget & _); [reflexivity|].
  exists old. split; [exact Hold | exact Hget].
Defined.

(** X7.  When the calls that write an entity succeed.  [CreateBook] succeeds
    exactly on a valid book whose ISBN and id no stored book has;
    [UpdateBook] exactly on a valid book whose id is stored and whose ISBN no
    stored book with another id has; the author and reading-list calls
    exactly on a valid entity whose id is not stored (create) or is stored
    (update).  Validation comes first: an invalid entity always gets the
    wrapped invalid-data error with the text of [Validate], whatever is
    stored. *)
Theorem X7_write_success (now : Time) :
  (∀ (book : Book.t) (repo : gmap string Book.t),
     ((service.CreateBook now book repo).1.1 = None ↔
      Book.Validate book = None ∧
      ¬ stored_book repo (λ existing, Book.ISBN existing = Book.ISBN book) ∧
      repo !! Book.ID book = None)
     ∧ ((service.UpdateBook now book repo).1.1 = None ↔
        Book.Validate book = None ∧
        ¬ stored_book repo (λ existing,
            Book.ISBN existing = Book.ISBN book ∧
            Book.ID existing ≠ Book.ID book) ∧
        is_Some (repo !! Book.ID book))
     ∧ (∀ msg, Book.Validate book = Some msg →
        (service.CreateBook now book repo).1.1
          = Some (Errorf_w service_ErrInvalidBook msg) ∧
        (service.UpdateBook now book repo).1.1
          = Some (Errorf_w service_ErrInvalidBook msg)))
  ∧ (∀ (author : Author.t) (repo : gmap string Author.t),
     ((service.CreateAuthor now author repo).1.1 = None ↔
      Author.Validate author = None ∧ repo !! Author.ID author = None)
     ∧ ((service.UpdateAuthor now author repo).1.1 = None ↔
        Author.Validate author = None ∧
        is_Some (repo !! Author.ID author))
     ∧ (∀ msg, Author.Validate author = Some msg →
        (service.CreateAuthor now author repo).1.1
          = Some (Errorf_w service_ErrInvalidAuthor msg) ∧
        (service.UpdateAuthor now author repo).1.1
          = Some (Errorf_w service_ErrInvalidAuthor msg)))
  ∧ (∀ (list : ReadingList.t) (repo : gmap string ReadingList.t),
     ((service.CreateReadingList now list repo).1.1 = None ↔
      ReadingList.Validate list = None ∧
      repo !! ReadingList.ID list = None)
     ∧ ((service.UpdateReadingList now list repo).1.1 = None ↔
        ReadingList.Validate list = None ∧
        is_Some (repo !! ReadingList.ID list))
     ∧ (∀ msg, ReadingList.Validate list = Some msg →
        (service.CreateReadingList now list repo).1.1
          = Some (Errorf_w service_ErrInvalidReadingList msg) ∧
        (service.UpdateReadingList now list repo).1.1
          = Some (Errorf_w service_ErrInvalidReadingList msg))).
Proof.
  split_and!.
  - intros book repo. split_and!.
    + rewrite <- CreateBook_scan_stored. unfold service.CreateBook.
      destruct (Book.Validate book); [intuition discriminate|].
      destruct (service.CreateBook_scan _ _); [intuition discriminate|].
      unfold repository.Create.
      destruct (repo !! entityID book) eqn:Hid; simpl in *;
        rewrite Hid; intuition discriminate.
    + rewrite <- UpdateBook_scan_stored. unfold service.UpdateBook.
      destruct (Book.Validate book); [intuition discriminate|].
      destruct (service.UpdateBook_scan _ _); [intuition discriminate|].
      unfold repository.Update.
      destruct (repo !! entityID book) eqn:Hid; simpl in *; rewrite Hid.
      * intuition (discriminate || eauto).
      * split; [discriminate|]. by intros (_ & _ & [? ?]).
    + intros msg Hmsg. unfold service.CreateBook, service.UpdateBook.
      by rewrite Hmsg.
  - intros author repo. split_and!.
    + unfold service.CreateAuthor.
      destruct (Author.Validate author); [intuition discriminate|].
      unfold repository.Create.
      destruct (repo !! entityID author) eqn:Hid; simpl in *;
        rewrite Hid; intuition discriminate.
    + unfold service.UpdateAuthor.
      destruct (Author.Validate author); [intuition discriminate|].
      unfold repository.Update.
      destruct (repo !! entityID author) eqn:Hid; simpl in *; rewrite Hid.
      * intuition (discriminate || eauto).
      * split; [discriminate|]. by intros (_ & [? ?]).
    + intros msg Hmsg. unfold service.CreateAuthor, service.UpdateAuthor.
      by rewrite Hmsg.
  - intros list repo. split_and!.
    + unfold service.CreateReadingList.
      destruct (ReadingList.Validate list); [intuition discriminate|].
      unfold repository.Create.
      destruct (repo !! entityID list) eqn:Hid; simpl in *;
        rewrite Hid; intuition discriminate.
    + unfold service.UpdateReadingList.
      destruct (ReadingList.Validate list); [intuition discriminate|].
      unfold repository.Update.
      destruct (repo !! entityID list) eqn:Hid; simpl in *; rewrite Hid.
      * intuition (discriminate || eauto).
      * split; [discriminate|]. by intros (_ & [? ?]).
    + intros msg Hmsg.
      unfold service.CreateReadingList, service.UpdateReadingList.
      by rewrite Hmsg.
Qed.

Lemma X7_write_success_witness :
  (service.CreateBook 6 (Book.mk "book-1" "" "111" "a1" 0 0 "" 0 0)
     one_book).1.1
  = Some (Errorf_w service_ErrInvalidBook "title is required").
Proof.
  destruct (X7_write_success 6) as (Hbook & _).
  destruct (Hbook (Book.mk "book-1" "" "111" "a1" 0 0 "" 0 0) one_book)
    as (_ & _ & Hinvalid).
  apply (Hinvalid "title is required"). reflexivity.
Defined.

(** ** Services: books and reading lists together *)

Section ListServiceFacts.
Implicit Types (repo : gmap string ReadingList.t) (list : ReadingList.t).

(** What [AddBookToList] stores when it succeeds. *)
Lemma AddBookToList_success now listID bookID repo bookRepo0 list :
  keyed_by_ID repo →
  is_Some (bookRepo0 !! bookID) → repo !! listID = Some list →
  bookID ∉ ReadingList.BookIDs list →
  service.AddBookToList now listID bookID repo bookRepo0
    = (None,
       <[listID := ReadingList.stamp (ReadingList.CreatedAt list) now
                     (ReadingList.setBookIDs
                        (ReadingList.BookIDs list ++ [bookID]) list)]> repo).
Proof.
  intros Hk [book Hbook] Hlist Hnotin%ContainsBook_ids_false.
  pose proof (Hk _ _ Hlist) as Hkey. simpl in Hkey.
  unfold service.AddBookToList, repository.Get. rewrite Hbook, Hlist.
  unfold ReadingList.AddBook. rewrite Hnotin. simpl.
  rewrite (Update_present now _ repo list) by (simpl; by rewrite Hkey).
  simpl. by rewrite Hkey.
Qed.

(** What [RemoveBookFromList] stores when it succeeds. *)
Lemma RemoveBookFromList_success now listID bookID repo list ids :
  keyed_by_ID repo → repo !! listID = Some list →
  ReadingList.RemoveBook_ids (ReadingList.BookIDs list) bookID = Some ids →
  service.RemoveBookFromList now listID bookID repo
    = (None,
       <[listID := ReadingList.stamp (ReadingList.CreatedAt list) now
                     (ReadingList.setBookIDs ids list)]> repo).
Proof.
  intros Hk Hlist Hrm.
  pose proof (Hk _ _ Hlist) as Hkey. simpl in Hkey.
  unfold service.RemoveBookFromList, repository.Get. rewrite Hlist.
  unfold ReadingList.RemoveBook. rewrite Hrm. simpl.
  rewrite (Update_present now _ repo list) by (simpl; by rewrite Hkey).
  simpl. by rewrite Hkey.
Qed.

(** Removing the id that was appended last gives the ids back. *)
Lemma RemoveBook_ids_appended (ids : list string) bookID :
  bookID ∉ ids →
  ReadingList.RemoveBook_ids (ids ++ [bookID]) bookID = Some ids.
Proof.
  induction ids as [|id rest IH]; intros Hnotin; simpl.
  - by rewrite decide_True.
  - apply not_elem_of_cons in Hnotin as [Hne Hrest].
    rewrite decide_False by congruence. by rewrite IH.
Qed.

Lemma RemoveBook_ids_NoDup_gone (ids ids' : list string) bookID :
  NoDup ids → ReadingList.RemoveBook_ids ids bookID = Some ids' →
  bookID ∉ ids'.
Proof.
  intros Hnd Hrm.
  assert (Hin : bookID ∈ ids).
  { destruct (decide (bookID ∈ ids)) as [|Hnotin]; [done|].
    apply RemoveBook_ids_absent in Hnotin. congruence. }
  destruct (RemoveBook_ids_present _ _ Hin)
    as (before & after & -> & Hfirst & Hrm').
  rewrite Hrm in Hrm'. injection Hrm' as ->.
  apply NoDup_app in Hnd as (_ & Hdisj & Hnd).
  apply NoDup_cons in Hnd as [Hafter _].
  intros [?|?]%elem_of_app; done.
Qed.
End ListServiceFacts.

(** X8.  Deleting a book does not touch the reading lists.  After a
    successful [DeleteBook] every reading list is stored as before, so the
    lists that had the book among their members still have it; from then on
    [AddBookToList] with that book fails with [ErrBookNotFound] on every
    list, while [RemoveBookFromList] still takes it out of a list that has
    it. *)
Theorem X8_delete_book_keeps_lists (now now' : Time) (bookID : string)
    (w : World) :
  is_Some (bookRepo w !! bookID) →
  (exec now (DeleteBook bookID) w).1 = None
  ∧ listRepo (exec now (DeleteBook bookID) w).2 = listRepo w
  ∧ ReadingListService.GetListsContainingBook bookID
      (listRepo (exec now (DeleteBook bookID) w).2)
    = ReadingListService.GetListsContainingBook bookID (listRepo w)
  ∧ (∀ listID,
     (exec now' (AddBookToList listID bookID)
        (exec now (DeleteBook bookID) w).2).1
     = Some (ErrVar service_ErrBookNotFound))
  ∧ (keyed_by_ID (listRepo w) →
     ∀ listID list,
       listRepo w !! listID = Some list →
       bookID ∈ ReadingList.BookIDs list →
       (exec now' (RemoveBookFromList listID bookID)
          (exec now (DeleteBook bookID) w).2).1 = None).
Proof.
  destruct w as [books authors lists]. cbn [bookRepo listRepo].
  intros [book Hbook].
  assert (Hdel : exec now (DeleteBook bookID) (mkWorld books authors lists)
                 = (None, mkWorld (delete bookID books) authors lists)).
  { unfold exec, service.DeleteBook, repository.Delete.
    cbn [bookRepo authorRepo listRepo]. by rewrite Hbook. }
  rewrite Hdel. cbn [fst snd bookRepo listRepo].
  split_and!; try done.
  - intros listID. unfold exec. cbn [bookRepo authorRepo listRepo].
    unfold service.AddBookToList, repository.Get.
    by rewrite lookup_delete_eq.
  - intros Hk listID list Hlist Hin. unfold exec.
    cbn [bookRepo authorRepo listRepo].
    destruct (RemoveBook_ids_present _ _ Hin)
      as (before & after & _ & _ & Hrm).
    by rewrite (RemoveBookFromList_success now' listID bookID lists list
                  _ Hk Hlist Hrm).
Qed.

Lemma X8_delete_book_keeps_lists_witness :
  (exec 12 (AddBookToList "list-1" "book-1")
     (exec 11 (DeleteBook "book-1") sample_world).2).1
    = Some (ErrVar service_ErrBookNotFound)
  ∧ (exec 12 (RemoveBookFromList "list-1" "book-1")
       (exec 11 (DeleteBook "book-1") sample_world).2).1 = None.
Proof.
  destruct (X8_delete_book_keeps_lists 11 12 "book-1" sample_world)
    as (_ & _ & _ & Hadd & Hrm); [by eexists|].
  split.
  - apply Hadd.
  - apply (Hrm ltac:(refine (bool_decide_unpack _ _); vm_compute;
                     reflexivity) "list-1" two_books).
    + reflexivity.
    + compute_done.
Defined.

(** X9.  Adding a book to a list and removing it again gives the list back.
    In a repository that stores lists under their ids, when [AddBookToList]
    succeeds the following [RemoveBookFromList] with the same ids succeeds
    too, and the list then stored has the member ids, name, description and
    creation time it had before the two calls and the time of the second
    call as update time; no other list changes. *)
Theorem X9_add_remove_roundtrip (now now' : Time) (listID bookID : string)
    (repo : gmap string ReadingList.t) (bookRepo0 : gmap string Book.t) :
  keyed_by_ID repo →
  (service.AddBookToList now listID bookID repo bookRepo0).1 = None →
  ∃ list,
    repo !! listID = Some list ∧
    service.RemoveBookFromList now' listID bookID
      (service.AddBookToList now listID bookID repo bookRepo0).2
    = (None,
       <[listID := ReadingList.stamp (ReadingList.CreatedAt list) now' list]>
         repo).
Proof.
  intros Hk Hadd.
  assert (Hcase : ∃ list, is_Some (bookRepo0 !! bookID) ∧
                          repo !! listID = Some list ∧
                          bookID ∉ ReadingList.BookIDs list).
  { revert Hadd.
    unfold service.AddBookToList, repository.Get, ReadingList.AddBook.
    destruct (bookRepo0 !! bookID) as [book|];
      [|by destruct (errors_Is _ _)].
    destruct (repo !! listID) as [list|]; [|by destruct (errors_Is _ _)].
    destruct (ReadingList.ContainsBook_ids _ _) eqn:Hc; simpl; [done|].
    intros _. exists list. split_and!; [by eexists | done |].
    by apply ContainsBook_ids_false. }
  destruct Hcase as (list & Hbook & Hlist & Hnotin).
  exists list. split; [done|].
  rewrite (AddBookToList_success now listID bookID repo bookRepo0 list)
    by done.
  simpl.
  set (list1 := ReadingList.stamp (ReadingList.CreatedAt list) now
                  (ReadingList.setBookIDs
                     (ReadingList.BookIDs list ++ [bookID]) list)).
  rewrite (RemoveBookFromList_success now' listID bookID
             (<[listID := list1]> repo) list1 (ReadingList.BookIDs list)).
  - rewrite insert_insert_eq. by destruct list.
  - pose proof (step_keyed_by_ID now
      (OpUpdate (ReadingList.setBookIDs
                   (ReadingList.BookIDs list ++ [bookID]) list)) repo Hk)
      as Hk'.
    pose proof (Hk _ _ Hlist) as Hkey. simpl in Hkey.
    unfold step in Hk'.
    rewrite (Update_present now _ repo list) in Hk'
      by (simpl; by rewrite Hkey).
    simpl in Hk'. by rewrite Hkey in Hk'.
  - apply lookup_insert_eq.
  - simpl. by apply RemoveBook_ids_appended.
Qed.

Lemma X9_add_remove_roundtrip_witness :
  ∃ list,
    one_list !! "list-1" = Some list ∧
    service.RemoveBookFromList 12 "list-1" "book-3"
      (service.AddBookToList 11 "list-1" "book-3" one_list
         (<["book-3" := valid_book]> one_book)).2
    = (None,
       <["list-1" := ReadingList.stamp (ReadingList.CreatedAt list) 12 list]>
         one_list).
Proof.
  apply (X9_add_remove_roundtrip 11 12 "list-1" "book-3" one_list
           (<["book-3" := valid_book]> one_book)).
  - refine (bool_decide_unpack _ _). vm_compute. reflexivity.
  - reflexivity.
Defined.

Lemma elem_of_FindByBook (l : ReadingList.t) (bookID : string)
    (repo : gmap string ReadingList.t) :
  l ∈ ReadingListRepository.FindByBook bookID repo ↔
  (∃ id, repo !! id = Some l) ∧ bookID ∈ ReadingList.BookIDs l.
Proof.
  unfold ReadingListRepository.FindByBook.
  rewrite list_elem_of_In, filter_In, <- list_elem_of_In, elem_of_List.
  unfold ReadingList.ContainsBook. by rewrite ContainsBook_ids_true.
Qed.

(** X10.  [GetListsContainingBook] follows the membership calls.  In a
    repository that stores lists under their ids: after a successful
    [AddBookToList] the list with that id is among the lists containing the
    book; after a successful [RemoveBookFromList] on a list that had no id
    twice, no list with that id is among them; and either call leaves the
    answer for every other list as it was. *)
Theorem X10_lists_containing_book (now : Time) (listID bookID : string)
    (repo : gmap string ReadingList.t) (bookRepo0 : gmap string Book.t) :
  keyed_by_ID repo →
  ((service.AddBookToList now listID bookID repo bookRepo0).1 = None →
   (∃ l, l ∈ ReadingListService.GetListsContainingBook bookID
               (service.AddBookToList now listID bookID repo bookRepo0).2 ∧
         ReadingList.ID l = listID) ∧
   ∀ l, ReadingList.ID l ≠ listID →
     (l ∈ ReadingListService.GetListsContainingBook bookID
            (service.AddBookToList now listID bookID repo bookRepo0).2
      ↔ l ∈ ReadingListService.GetListsContainingBook bookID repo))
  ∧ ((service.RemoveBookFromList now listID bookID repo).1 = None →
     (∀ old, repo !! listID = Some old → NoDup (ReadingList.BookIDs old) →
      ∀ l, l ∈ ReadingListService.GetListsContainingBook bookID
                 (service.RemoveBookFromList now listID bookID repo).2 →
           ReadingList.ID l ≠ listID) ∧
     ∀ l, ReadingList.ID l ≠ listID →
       (l ∈ ReadingListService.GetListsContainingBook bookID
              (service.RemoveBookFromList now listID bookID repo).2
        ↔ l ∈ ReadingListService.GetListsContainingBook bookID repo)).
Proof.
  intros Hk.
  unfold ReadingListService.GetListsContainingBook.
  assert (Hframe : ∀ (new : ReadingList.t) l,
    ReadingList.ID new = listID → ReadingList.ID l ≠ listID →
    (l ∈ ReadingListRepository.FindByBook bookID (<[listID := new]> repo)
     ↔ l ∈ ReadingListRepository.FindByBook bookID repo)).
  { intros new l Hnew Hl. rewrite !elem_of_FindByBook.
    split; intros [[id Hid] Hin]; (split; [|done]); exists id.
    - apply lookup_insert_Some in Hid as [[_ <-]|[_ Hid]]; [done | done].
    - rewrite lookup_insert_ne; [done|].
      intros <-. apply Hl. by apply (Hk _ _ Hid). }
  split.
  - intros Hadd.
    assert (Hcase : ∃ list, is_Some (bookRepo0 !! bookID) ∧
                            repo !! listID = Some list ∧
                            bookID ∉ ReadingList.BookIDs list).
    { revert Hadd.
      unfold service.AddBookToList, repository.Get, ReadingList.AddBook.
      destruct (bookRepo0 !! bookID) as [book|];
        [|by destruct (errors_Is _ _)].
      destruct (repo !! listID) as [list|]; [|by destruct (errors_Is _ _)].
      destruct (ReadingList.ContainsBook_ids _ _) eqn:Hc; simpl; [done|].
      intros _. exists list. split_and!; [by eexists | done |].
      by apply ContainsBook_ids_false. }
    destruct Hcase as (list & Hbook & Hlist & Hnotin).
    pose proof (Hk _ _ Hlist) as Hkey. simpl in Hkey.
    rewrite (AddBookToList_success now listID bookID repo bookRepo0 list)
      by done.
    simpl. split.
    + exists (ReadingList.stamp (ReadingList.CreatedAt list) now
                (ReadingList.setBookIDs
                   (ReadingList.BookIDs list ++ [bookID]) list)).
      split; [|exact Hkey].
      apply elem_of_FindByBook. split.
      * exists listID. apply lookup_insert_eq.
      * simpl. apply elem_of_app. right. by left.
    + intros l Hl. by apply Hframe.
  - intros Hrm.
    assert (Hcase : ∃ list ids, repo !! listID = Some list ∧
              ReadingList.RemoveBook_ids (ReadingList.BookIDs list) bookID
                = Some ids).
    { revert Hrm.
      unfold service.RemoveBookFromList, repository.Get,
        ReadingList.RemoveBook.
      destruct (repo !! listID) as [list|]; [|by destruct (errors_Is _ _)].
      destruct (ReadingList.RemoveBook_ids _ _) as [ids|] eqn:Hids; simpl;
        [|done].
      intros _. by exists list, ids. }
    destruct Hcase as (list & ids & Hlist & Hids).
    pose proof (Hk _ _ Hlist) as Hkey. simpl in Hkey.
    rewrite (RemoveBookFromList_success now listID bookID repo list ids)
      by done.
    simpl. split.
    + intros old Hold Hnd l [[id Hid] Hin]%elem_of_FindByBook Hl.
      rewrite Hlist in Hold. injection Hold as <-.
      apply lookup_insert_Some in Hid as [[_ <-]|[Hne Hid]].
      * simpl in Hin. by eapply RemoveBook_ids_NoDup_gone.
      * apply Hne. rewrite <- Hl. by apply (Hk _ _ Hid).
    + intros l Hl. by apply Hframe.
Qed.

Lemma X10_lists_containing_book_witness :
  ∃ l, l ∈ ReadingListService.GetListsContainingBook "book-3"
             (service.AddBookToList 11 "list-1" "book-3" one_list
                (<["book-3" := valid_book]> one_book)).2 ∧
       ReadingList.ID l = "list-1".
Proof.
  destruct (X10_lists_containing_book 11 "list-1" "book-3" one_list
              (<["book-3" := valid_book]> one_book)) as [Hadd _].
  - refine (bool_decide_unpack _ _). vm_compute. reflexivity.
  - destruct Hadd as [Hin _]; [reflexivity | exact Hin].
Defined.

(** ** Services: what every run maintains *)

Section RunInvariant.
Implicit Types (now clock : Time) (w : World) (c : Call).

Lemma step_or_same_stamped {E : Type} `{!Entity E} clock now
    (r r' : gmap string E) (op : RepoOp E) :
  clock ≤ now → stamped_by clock r →
  r' = r ∨ r' = step now op r → stamped_by now r'.
Proof.
  intros Hle Hst [->| ->].
  - by eapply stamped_by_mono.
  - by eapply step_stamped_by.
Qed.

Lemma exec_stamped clock now c w :
  clock ≤ now →
  stamped_by clock (bookRepo w) → stamped_by clock (authorRepo w) →
  stamped_by clock (listRepo w) →
  stamped_by now (bookRepo (exec now c w).2) ∧
  stamped_by now (authorRepo (exec now c w).2) ∧
  stamped_by now (listRepo (exec now c w).2).
Proof.
  destruct w as [books authors lists]. cbn [bookRepo authorRepo listRepo].
  intros Hle Hb Ha Hl.
  pose proof (stamped_by_mono _ _ _ Hle Hb) as Hb'.
  pose proof (stamped_by_mono _ _ _ Hle Ha) as Ha'.
  pose proof (stamped_by_mono _ _ _ Hle Hl) as Hl'.
  destruct c; unfold exec; cbn [bookRepo authorRepo listRepo].
  - pose proof (CreateBook_step now book books) as Hs.
    destruct (service.CreateBook now book books) as [[? ?] r'].
    cbn [fst snd bookRepo authorRepo listRepo] in *.
    split_and!; try done. by eapply step_or_same_stamped.
  - done.
  - pose proof (UpdateBook_step now book books) as Hs.
    destruct (service.UpdateBook now book books) as [[? ?] r'].
    cbn [fst snd bookRepo authorRepo listRepo] in *.
    split_and!; try done. by eapply step_or_same_stamped.
  - pose proof (DeleteBook_step now id books) as Hs.
    destruct (service.DeleteBook id books) as [? r'].
    cbn [fst snd bookRepo authorRepo listRepo] in *.
    split_and!; try done. subst r'. by eapply step_stamped_by.
  - pose proof (CreateAuthor_step now author authors) as Hs.
    destruct (service.CreateAuthor now author authors) as [[? ?] r'].
    cbn [fst snd bookRepo authorRepo listRepo] in *.
    split_and!; try done. by eapply step_or_same_stamped.
  - done.
  - pose proof (UpdateAuthor_step now author authors) as Hs.
    destruct (service.UpdateAuthor now author authors) as [[? ?] r'].
    cbn [fst snd bookRepo authorRepo listRepo] in *.
    split_and!; try done. by eapply step_or_same_stamped.
  - pose proof (DeleteAuthor_step now id authors) as Hs.
    destruct (service.DeleteAuthor id authors) as [? r'].
    cbn [fst snd bookRepo authorRepo listRepo] in *.
    split_and!; try done. subst r'. by eapply step_stamped_by.
  - pose proof (CreateReadingList_step now list lists) as Hs.
    destruct (service.CreateReadingList now list lists) as [[? ?] r'].
    cbn [fst snd bookRepo authorRepo listRepo] in *.
    split_and!; try done. by eapply step_or_same_stamped.
  - done.
  - pose proof (UpdateReadingList_step now list lists) as Hs.
    destruct (service.UpdateReadingList now list lists) as [[? ?] r'].
    cbn [fst snd bookRepo authorRepo listRepo] in *.
    split_and!; try done. by eapply step_or_same_stamped.
  - pose proof (DeleteReadingList_step now id lists) as Hs.
    destruct (service.DeleteReadingList id lists) as [? r'].
    cbn [fst snd bookRepo authorRepo listRepo] in *.
    split_and!; try done. subst r'. by eapply step_stamped_by.
  - pose proof (AddBookToList_step now listID bookID lists books) as Hs.
    destruct (service.AddBookToList now listID bookID lists books)
      as [? r'].
    cbn [fst snd bookRepo authorRepo listRepo] in *.
    split_and!; try done.
    destruct Hs as [->|[list ->]]; [done | by eapply step_stamped_by].
  - pose proof (RemoveBookFromList_step now listID bookID lists) as Hs.
    destruct (service.RemoveBookFromList now listID bookID lists) as [? r'].
    cbn [fst snd bookRepo authorRepo listRepo] in *.
    split_and!; try done.
    destruct Hs as [->|[list ->]]; [done | by eapply step_stamped_by].
Qed.

Lemma exec_lists_NoDup now c w :
  lists_given_NoDup c → lists_NoDup (listRepo w) →
  lists_NoDup (listRepo (exec now c w).2).
Proof.
  destruct w as [books authors lists]. cbn [listRepo].
  intros Hgiven Hnd.
  assert (Hadd : ∀ l bookID, NoDup (ReadingList.BookIDs l) →
            NoDup (ReadingList.BookIDs (ReadingList.AddBook l bookID).2))
    by (intros; by apply AddBook_NoDup).
  assert (Hrm : ∀ l bookID, NoDup (ReadingList.BookIDs l) →
            NoDup (ReadingList.BookIDs (ReadingList.RemoveBook l bookID).2))
    by (intros; by apply RemoveBook_NoDup).
  destruct c; unfold exec; cbn [bookRepo authorRepo listRepo];
    try (by repeat case_match).
  - unfold service.CreateReadingList, repository.Create.
    repeat case_match; simplify_eq/=; try done.
    by apply map_Forall_insert_2.
  - unfold service.UpdateReadingList, repository.Update.
    repeat case_match; simplify_eq/=; try done.
    all: by apply map_Forall_insert_2.
  - unfold service.DeleteReadingList, repository.Delete.
    repeat case_match; simplify_eq/=; try done.
    all: by apply map_Forall_delete.
  - unfold service.AddBookToList, repository.Get, repository.Update.
    repeat case_match; simplify_eq/=; try done.
    apply map_Forall_insert_2; [|done]. simpl.
    match goal with
    | Hget : lists !! listID = Some ?l, Hab : ReadingList.AddBook ?l _ = _
      |- _ => pose proof (Hadd l bookID (Hnd _ _ Hget)) as Hn;
              by rewrite Hab in Hn
    end.
  - unfold service.RemoveBookFromList, repository.Get, repository.Update.
    repeat case_match; simplify_eq/=; try done.
    apply map_Forall_insert_2; [|done]. simpl.
    match goal with
    | Hget : lists !! listID = Some ?l, Hab : ReadingList.RemoveBook ?l _ = _
      |- _ => pose proof (Hrm l bookID (Hnd _ _ Hget)) as Hn;
              by rewrite Hab in Hn
    end.
Qed.

Lemma exec_world_inv clock now c w :
  clock ≤ now → world_inv clock w → world_inv now (exec now c w).2.
Proof.
  intros Hle (Hk & Hu & Hb & Ha & Hl).
  destruct (exec_stamped clock now c w) as (Hb' & Ha' & Hl'); try done.
  split_and!; try done.
  - by apply exec_world_keyed.
  - by apply exec_isbn_unique.
Qed.
End RunInvariant.

(** X11.  What every run of service calls maintains, under a clock that
    never goes back.  Starting from empty repositories (or from any
    repositories where this holds), after any sequence of calls: every
    entity is stored under its own id, no two stored books have the same
    ISBN, and every stored entity has [CreatedAt ≤ UpdatedAt], both no later
    than the last clock reading.  When moreover the lists handed to
    [CreateReadingList] and [UpdateReadingList] have no member id twice, no
    stored list has. *)
Theorem X11_run_invariant (calls : list (Time * Call)) (clock : Time)
    (w : World) :
  world_inv clock empty_world
  ∧ (world_inv clock w → times_nondecreasing clock calls.*1 →
     world_inv (last_time clock calls.*1) (exec_run calls w))
  ∧ (lists_NoDup (listRepo w) → Forall lists_given_NoDup calls.*2 →
     lists_NoDup (listRepo (exec_run calls w))).
Proof.
  split_and!.
  - split_and!; try apply map_Forall_empty.
    + apply empty_world_keyed.
    + apply New_isbn_unique.
  - revert clock w. induction calls as [|[now c] rest IH];
      intros clock w Hinv Htimes; simpl in *; [done|].
    destruct Htimes as [Hle Hrest].
    apply IH; [|done]. by eapply exec_world_inv.
  - revert w. induction calls as [|[now c] rest IH]; intros w Hnd Hgiven;
      simpl in *; [done|].
    apply Forall_cons in Hgiven as [Hc Hrest].
    apply IH; [|done]. by apply exec_lists_NoDup.
Qed.

Lemma X11_run_invariant_witness :
  isbn_unique
    (bookRepo
       (exec_run
          [ (5, CreateBook valid_book);
            (7, CreateBook (Book.mk "book-2" "U" "978-0134190440" "a" 0 0 ""
                              0 0));
            (7, DeleteBook "book-1") ] empty_world)).
Proof.
  destruct (X11_run_invariant
              [ (5, CreateBook valid_book);
                (7, CreateBook (Book.mk "book-2" "U" "978-0134190440" "a"
                                  0 0 "" 0 0));
                (7, DeleteBook "book-1") ] 0 empty_world)
    as (Hempty & Hrun & _).
  destruct Hrun as (_ & Hunique & _); [exact Hempty | simpl; lia |].
  exact Hunique.
Defined.

(** ** Models *)

Section MembershipFacts.
Implicit Types (ids : list string) (bookID other : string).

Lemma RemoveBook_ids_other ids ids' bookID other :
  other ≠ bookID → ReadingList.RemoveBook_ids ids bookID = Some ids' →
  (other ∈ ids' ↔ other ∈ ids).
Proof.
  intros Hne Hrm.
  assert (Hin : bookID ∈ ids).
  { destruct (decide (bookID ∈ ids)) as [|Hnotin]; [done|].
    apply RemoveBook_ids_absent in Hnotin. congruence. }
  destruct (RemoveBook_ids_present _ _ Hin)
    as (before & after & -> & _ & Hrm').
  rewrite Hrm in Hrm'. injection Hrm' as ->.
  rewrite !elem_of_app, elem_of_cons. intuition congruence.
Qed.
End MembershipFacts.

(** X12.  [ContainsBook] tells membership, and the two mutators agree with
    it: [AddBook] returns true exactly when the id was not contained and the
    id is contained afterwards either way; [RemoveBook] returns true exactly
    when the id was contained, and afterwards it is no longer contained
    provided the list had no id twice (only the first occurrence is cut
    out).  Neither changes whether any other id is contained, and removing
    an id right after adding it gives the list back. *)
Theorem X12_contains_add_remove (r : ReadingList.t) (bookID : string) :
  (ReadingList.ContainsBook r bookID = true ↔
   bookID ∈ ReadingList.BookIDs r)
  ∧ (ReadingList.AddBook r bookID).1
    = negb (ReadingList.ContainsBook r bookID)
  ∧ ReadingList.ContainsBook (ReadingList.AddBook r bookID).2 bookID = true
  ∧ (ReadingList.RemoveBook r bookID).1 = ReadingList.ContainsBook r bookID
  ∧ (NoDup (ReadingList.BookIDs r) →
     ReadingList.ContainsBook (ReadingList.RemoveBook r bookID).2 bookID
       = false)
  ∧ (∀ other, other ≠ bookID →
     ReadingList.ContainsBook (ReadingList.AddBook r bookID).2 other
       = ReadingList.ContainsBook r other ∧
     ReadingList.ContainsBook (ReadingList.RemoveBook r bookID).2 other
       = ReadingList.ContainsBook r other)
  ∧ (bookID ∉ ReadingList.BookIDs r →
     ReadingList.RemoveBook (ReadingList.AddBook r bookID).2 bookID
       = (true, r)).
Proof.
  unfold ReadingList.ContainsBook.
  assert (Hbool : ∀ ids ids' (x y : string),
            (x ∈ ids ↔ y ∈ ids') →
            ReadingList.ContainsBook_ids ids x
              = ReadingList.ContainsBook_ids ids' y).
  { intros ids ids' x y Hiff. apply eq_true_iff_eq.
    by rewrite !ContainsBook_ids_true. }
  split_and!.
  - apply ContainsBook_ids_true.
  - unfold ReadingList.AddBook.
    by destruct (ReadingList.ContainsBook_ids _ _).
  - unfold ReadingList.AddBook.
    destruct (ReadingList.ContainsBook_ids (ReadingList.BookIDs r) bookID)
      eqn:Hc; simpl; [done|].
    apply ContainsBook_ids_true, elem_of_app. right. by left.
  - unfold ReadingList.RemoveBook.
    destruct (ReadingList.ContainsBook_ids _ _) eqn:Hc.
    + apply ContainsBook_ids_true in Hc.
      destruct (RemoveBook_ids_present _ _ Hc) as (? & ? & _ & _ & ->).
      done.
    + apply ContainsBook_ids_false in Hc.
      by rewrite (RemoveBook_ids_absent _ _ Hc).
  - intros Hnd. unfold ReadingList.RemoveBook.
    destruct (ReadingList.RemoveBook_ids _ _) as [ids'|] eqn:Hrm; simpl.
    + apply ContainsBook_ids_false. by eapply RemoveBook_ids_NoDup_gone.
    + apply ContainsBook_ids_false. intros Hin.
      destruct (RemoveBook_ids_present _ _ Hin) as (? & ? & _ & _ & Hrm').
      congruence.
  - intros other Hne. split.
    + unfold ReadingList.AddBook.
      destruct (ReadingList.ContainsBook_ids _ bookID); simpl; [done|].
      apply Hbool. rewrite elem_of_app, list_elem_of_singleton.
      intuition congruence.
    + unfold ReadingList.RemoveBook.
      destruct (ReadingList.RemoveBook_ids _ _) as [ids'|] eqn:Hrm; simpl;
        [|done].
      apply Hbool. by eapply RemoveBook_ids_other.
  - intros Hnotin. unfold ReadingList.AddBook.
    rewrite (proj2 (ContainsBook_ids_false _ _) Hnotin). simpl.
    unfold ReadingList.RemoveBook. simpl.
    rewrite RemoveBook_ids_appended by done. by destruct r.
Qed.

Lemma X12_contains_add_remove_witness :
  ReadingList.ContainsBook (ReadingList.RemoveBook two_books "book-1").2
    "book-1" = false
  ∧ ReadingList.RemoveBook (ReadingList.AddBook two_books "book-3").2
      "book-3" = (true, two_books).
Proof.
  destruct (X12_contains_add_remove two_books "book-1")
    as (_ & _ & _ & _ & Hgone & _).
  destruct (X12_contains_add_remove two_books "book-3")
    as (_ & _ & _ & _ & _ & _ & Hback).
  split.
  - apply Hgone. compute_done.
  - apply Hback. compute_done.
Defined.

(** X13.  [Author.Validate] and [ReadingList.Validate] report the first
    violated rule in the order name presence, name length, then bio resp.
    description length, and nothing exactly when no rule is violated.  No
    rule reads the id: an entity that passes keeps passing under any id,
    the empty one included. *)
Theorem X13_validate_author_list :
  (∀ a : Author.t,
     Author.Validate a = first_violated Author_rules a ∧
     (Author.Validate a = None ↔
      Author.Name a ≠ "" ∧ (String.length (Author.Name a) ≤ 100)%nat ∧
      (String.length (Author.Bio a) ≤ 2000)%nat) ∧
     ∀ id, Author.Validate
             (Author.mk id (Author.Name a) (Author.Bio a)
                (Author.BirthDate a) (Author.Country a)
                (Author.CreatedAt a) (Author.UpdatedAt a))
           = Author.Validate a)
  ∧ (∀ r : ReadingList.t,
     ReadingList.Validate r = first_violated ReadingList_rules r ∧
     (ReadingList.Validate r = None ↔
      ReadingList.Name r ≠ "" ∧
      (String.length (ReadingList.Name r) ≤ 100)%nat ∧
      (String.length (ReadingList.Description r) ≤ 500)%nat) ∧
     ∀ id ids, ReadingList.Validate
                 (ReadingList.mk id (ReadingList.Name r)
                    (ReadingList.Description r) ids
                    (ReadingList.CreatedAt r) (ReadingList.UpdatedAt r))
               = ReadingList.Validate r).
Proof.
  split.
  - intros a. split_and!.
    + unfold Author.Validate, Author_rules, first_violated, bool_decide.
      repeat case_decide; try congruence;
        repeat match goal with
               | |- context [if ?c then _ else _] => destruct c
               end; reflexivity.
    + unfold Author.Validate.
      destruct (decide (Author.Name a = "")); [split; [discriminate | by intros [? _]]|].
      destruct (Nat.ltb_spec 100 (String.length (Author.Name a)));
        [split; [discriminate | lia]|].
      destruct (Nat.ltb_spec 2000 (String.length (Author.Bio a)));
        [split; [discriminate | lia]|].
      done.
    + done.
  - intros r. split_and!.
    + unfold ReadingList.Validate, ReadingList_rules, first_violated,
        bool_decide.
      repeat case_decide; try congruence;
        repeat match goal with
               | |- context [if ?c then _ else _] => destruct c
               end; reflexivity.
    + unfold ReadingList.Validate.
      destruct (decide (ReadingList.Name r = "")); [split; [discriminate | by intros [? _]]|].
      destruct (Nat.ltb_spec 100 (String.length (ReadingList.Name r)));
        [split; [discriminate | lia]|].
      destruct (Nat.ltb_spec 500
                  (String.length (ReadingList.Description r)));
        [split; [discriminate | lia]|].
      done.
    + done.
Qed.

(** ** Handlers *)

(** Unfolds a handler down to the repository operations. *)
Ltac unfold_handlers :=
  unfold api.handleBooks, api.handleBook, api.listBooks, api.createBook,
    api.getBook, api.updateBook, api.deleteBook, handler.createBook,
    api.handleAuthors, api.handleAuthor, api.listAuthors, api.createAuthor,
    api.getAuthor, api.updateAuthor, api.deleteAuthor,
    api.handleLists, api.handleList, api.handleListBook,
    api.listReadingLists, api.createReadingList, api.getReadingList,
    api.updateReadingList, api.deleteReadingList, api.addBookToList,
    api.removeBookFromList, api.of_handler;
  unfold service.CreateBook, service.UpdateBook, service.DeleteBook,
    service.GetBook, service.CreateAuthor, service.UpdateAuthor,
    service.DeleteAuthor, service.GetAuthor, service.CreateReadingList,
    service.UpdateReadingList, service.DeleteReadingList,
    service.GetReadingList, service.AddBookToList,
    service.RemoveBookFromList,
    repository.Create, repository.Update, repository.Delete,
    repository.Get, ReadingList.AddBook, ReadingList.RemoveBook.

(** X14.  The status codes of the book endpoints.  The item endpoint
    /api/books/{id} answers 200, 204, 400, 404, 405 or 409 and never 500:
    every error its service calls return is one its handlers match.  The
    collection endpoint /api/books answers 200, 201, 400, 405, 409 or 500,
    and 500 exactly on a POST whose body decodes to a valid book with an
    ISBN no stored book has and an id that is already stored. *)
Theorem X14_book_status_codes (json_DecodeBook : string → option Book.t)
    (now : Time) (r : api.Request) (repo : gmap string Book.t) :
  api.StatusCode (api.handleBook json_DecodeBook now r repo).1
    ∈ [200; 204; 400; 404; 405; 409]
  ∧ api.StatusCode (api.handleBooks json_DecodeBook now r repo).1
    ∈ [200; 201; 400; 405; 409; 500]
  ∧ (api.StatusCode (api.handleBooks json_DecodeBook now r repo).1 = 500 ↔
     api.Method r = "POST" ∧
     ∃ book, json_DecodeBook (api.Body r) = Some book ∧
       Book.Validate book = None ∧
       ¬ stored_book repo (λ existing,
           Book.ISBN existing = Book.ISBN book) ∧
       is_Some (repo !! Book.ID book)).
Proof.
  split_and!.
  - unfold_handlers. repeat case_match; simplify_eq/=; compute_done.
  - unfold_handlers. repeat case_match; simplify_eq/=; compute_done.
  - unfold api.handleBooks, api.listBooks, api.createBook,
      handler.createBook.
    destruct (decide (api.Method r = api.MethodGet)) as [Hget|Hget].
    { simpl. split; [done|]. intros [Hpost _]. rewrite Hpost in Hget.
      discriminate. }
    destruct (decide (api.Method r = api.MethodPost)) as [Hpost|Hpost];
      [|simpl; split; [done | by intros [? _]]].
    destruct (json_DecodeBook (api.Body r)) as [book|] eqn:Hdec;
      [|simpl; split; [done | by intros (_ & ? & ? & _)]].
    unfold service.CreateBook.
    destruct (Book.Validate book) as [msg|] eqn:Hvalid.
    { simpl. split; [done|]. intros (_ & b & [= <-] & Hv & _). congruence. }
    destruct (service.CreateBook_scan (repository.List repo) book)
      eqn:Hscan.
    { simpl. split; [done|].
      intros (_ & b & [= <-] & _ & Hfree & _). exfalso. apply Hfree.
      by apply CreateBook_scan_stored. }
    unfold repository.Create.
    destruct (repo !! entityID book) as [old|] eqn:Hid; simpl.
    + split; [|done]. intros _. split; [done|]. exists book.
      split_and!; [done | done | | by exists old].
      intros Hstored%CreateBook_scan_stored. congruence.
    + split; [done|]. intros (_ & b & [= <-] & _ & _ & [? Hsome]).
      simpl in Hid. congruence.
Qed.


Section HandlerAtomicity.
Variable json_DecodeBook : string → option Book.t.
Variable json_DecodeAuthor : string → option Author.t.
Variable json_DecodeReadingList : string → option ReadingList.t.
Implicit Types (now : Time) (r : api.Request) (id : string).

(** Closes the branches of a handler after its service call: an error
    branch returns the repository the call left, a success branch does not
    have a status of 400 or more. *)
Ltac close_branches :=
  repeat case_match; simplify_eq/=; try done;
  try (intros Hge; vm_compute in Hge; by destruct Hge).

Lemma createBook_unchanged now r repo :
  400 ≤ api.StatusCode (api.createBook json_DecodeBook now r repo).1 →
  (api.createBook json_DecodeBook now r repo).2 = repo.
Proof.
  unfold api.createBook, handler.createBook.
  destruct (json_DecodeBook (api.Body r)) as [book|]; [|done].
  pose proof (CreateBook_error_unchanged now book repo) as Hsame.
  destruct (service.CreateBook now book repo) as [[[err|] ?] repo'];
    simpl in *; [rewrite (Hsame err eq_refl)|]; close_branches.
Qed.

Lemma updateBook_unchanged now r id repo :
  400 ≤ api.StatusCode (api.updateBook json_DecodeBook now r id repo).1 →
  (api.updateBook json_DecodeBook now r id repo).2 = repo.
Proof.
  unfold api.updateBook.
  destruct (json_DecodeBook (api.Body r)) as [book|]; [|done].
  pose proof (UpdateBook_error_unchanged now (api.Book_setID id book) repo)
    as Hsame.
  destruct (service.UpdateBook now _ repo) as [[[err|] ?] repo'];
    simpl in *; [rewrite (Hsame err eq_refl)|]; close_branches.
Qed.

Lemma deleteBook_unchanged id repo :
  400 ≤ api.StatusCode (api.deleteBook id repo).1 →
  (api.deleteBook id repo).2 = repo.
Proof.
  unfold api.deleteBook.
  pose proof (DeleteBook_error_unchanged id repo) as Hsame.
  destruct (service.DeleteBook id repo) as [[err|] repo'];
    simpl in *; [rewrite (Hsame err eq_refl)|]; close_branches.
Qed.

Lemma createAuthor_unchanged now r repo :
  400 ≤ api.StatusCode (api.createAuthor json_DecodeAuthor now r repo).1 →
  (api.createAuthor json_DecodeAuthor now r repo).2 = repo.
Proof.
  unfold api.createAuthor.
  destruct (json_DecodeAuthor (api.Body r)) as [author|]; [|done].
  pose proof (CreateAuthor_error_unchanged now author repo) as Hsame.
  destruct (service.CreateAuthor now author repo) as [[[err|] ?] repo'];
    simpl in *; [rewrite (Hsame err eq_refl)|]; close_branches.
Qed.

Lemma updateAuthor_unchanged now r id repo :
  400 ≤ api.StatusCode (api.updateAuthor json_DecodeAuthor now r id repo).1 →
  (api.updateAuthor json_DecodeAuthor now r id repo).2 = repo.
Proof.
  unfold api.updateAuthor.
  destruct (json_DecodeAuthor (api.Body r)) as [author|]; [|done].
  pose proof (UpdateAuthor_error_unchanged now (api.Author_setID id author)
                repo) as Hsame.
  destruct (service.UpdateAuthor now _ repo) as [[[err|] ?] repo'];
    simpl in *; [rewrite (Hsame err eq_refl)|]; close_branches.
Qed.

Lemma deleteAuthor_unchanged id repo :
  400 ≤ api.StatusCode (api.deleteAuthor id repo).1 →
  (api.deleteAuthor id repo).2 = repo.
Proof.
  unfold api.deleteAuthor.
  pose proof (DeleteAuthor_error_unchanged id repo) as Hsame.
  destruct (service.DeleteAuthor id repo) as [[err|] repo'];
    simpl in *; [rewrite (Hsame err eq_refl)|]; close_branches.
Qed.

Lemma createReadingList_unchanged now r repo :
  400 ≤ api.StatusCode
          (api.createReadingList json_DecodeReadingList now r repo).1 →
  (api.createReadingList json_DecodeReadingList now r repo).2 = repo.
Proof.
  unfold api.createReadingList.
  destruct (json_DecodeReadingList (api.Body r)) as [list|]; [|done].
  pose proof (CreateReadingList_error_unchanged now list repo) as Hsame.
  destruct (service.CreateReadingList now list repo)
    as [[[err|] ?] repo'];
    simpl in *; [rewrite (Hsame err eq_refl)|]; close_branches.
Qed.

Lemma updateReadingList_unchanged now r id repo :
  400 ≤ api.StatusCode
          (api.updateReadingList json_DecodeReadingList now r id repo).1 →
  (api.updateReadingList json_DecodeReadingList now r id repo).2 = repo.
Proof.
  unfold api.updateReadingList.
  destruct (json_DecodeReadingList (api.Body r)) as [list|]; [|done].
  pose proof (UpdateReadingList_error_unchanged now
                (api.ReadingList_setID id list) repo) as Hsame.
  destruct (service.UpdateReadingList now _ repo) as [[[err|] ?] repo'];
    simpl in *; [rewrite (Hsame err eq_refl)|]; close_branches.
Qed.

Lemma deleteReadingList_unchanged id repo :
  400 ≤ api.StatusCode (api.deleteReadingList id repo).1 →
  (api.deleteReadingList id repo).2 = repo.
Proof.
  unfold api.deleteReadingList.
  pose proof (DeleteReadingList_error_unchanged id repo) as Hsame.
  destruct (service.DeleteReadingList id repo) as [[err|] repo'];
    simpl in *; [rewrite (Hsame err eq_refl)|]; close_branches.
Qed.

Lemma addBookToList_unchanged now listID bookID repo bookRepo0 :
  400 ≤ api.StatusCode (api.addBookToList now listID bookID repo
                          bookRepo0).1 →
  (api.addBookToList now listID bookID repo bookRepo0).2 = repo.
Proof.
  unfold api.addBookToList.
  pose proof (AddBookToList_error_unchanged now listID bookID repo
                bookRepo0) as Hsame.
  destruct (service.AddBookToList now listID bookID repo bookRepo0)
    as [[err|] repo'];
    simpl in *; [rewrite (Hsame err eq_refl)|]; close_branches.
Qed.

Lemma removeBookFromList_unchanged now listID bookID repo :
  400 ≤ api.StatusCode (api.removeBookFromList now listID bookID repo).1 →
  (api.removeBookFromList now listID bookID repo).2 = repo.
Proof.
  unfold api.removeBookFromList.
  pose proof (RemoveBookFromList_error_unchanged now listID bookID repo)
    as Hsame.
  destruct (service.RemoveBookFromList now listID bookID repo)
    as [[err|] repo'];
    simpl in *; [rewrite (Hsame err eq_refl)|]; close_branches.
Qed.

Lemma getBook_unchanged id repo : (api.getBook id repo).2 = repo.
Proof. unfold api.getBook. by repeat case_match. Qed.

Lemma getAuthor_unchanged id repo : (api.getAuthor id repo).2 = repo.
Proof. unfold api.getAuthor. by repeat case_match. Qed.

Lemma getReadingList_unchanged id repo :
  (api.getReadingList id repo).2 = repo.
Proof. unfold api.getReadingList. by repeat case_match. Qed.
End HandlerAtomicity.

(** Splits a route on its method tests, keeping what each test decided. *)
Ltac route_cases :=
  repeat match goal with
         | |- context [decide (api.Method ?r = ?m)] =>
             destruct (decide (api.Method r = m))
         end.

(** X15.  Failed and read-only requests change nothing.  On each of the six
    endpoints (collection and item, for books, authors and reading lists,
    the membership paths included), a request answered with a status of 400
    or more leaves the repository as it was, and so does every GET
    request. *)
Theorem X15_http_atomicity (json_DecodeBook : string → option Book.t)
    (json_DecodeAuthor : string → option Author.t)
    (json_DecodeReadingList : string → option ReadingList.t)
    (now : Time) (r : api.Request) (w : World) :
  (400 ≤ api.StatusCode (api.handleBooks json_DecodeBook now r
                           (bookRepo w)).1 ∨ api.Method r = "GET" →
   (api.handleBooks json_DecodeBook now r (bookRepo w)).2 = bookRepo w)
  ∧ (400 ≤ api.StatusCode (api.handleBook json_DecodeBook now r
                             (bookRepo w)).1 ∨ api.Method r = "GET" →
     (api.handleBook json_DecodeBook now r (bookRepo w)).2 = bookRepo w)
  ∧ (400 ≤ api.StatusCode (api.handleAuthors json_DecodeAuthor now r
                             (authorRepo w)).1 ∨ api.Method r = "GET" →
     (api.handleAuthors json_DecodeAuthor now r (authorRepo w)).2
       = authorRepo w)
  ∧ (400 ≤ api.StatusCode (api.handleAuthor json_DecodeAuthor now r
                             (authorRepo w)).1 ∨ api.Method r = "GET" →
     (api.handleAuthor json_DecodeAuthor now r (authorRepo w)).2
       = authorRepo w)
  ∧ (400 ≤ api.StatusCode (api.handleLists json_DecodeReadingList now r
                             (listRepo w)).1 ∨ api.Method r = "GET" →
     (api.handleLists json_DecodeReadingList now r (listRepo w)).2
       = listRepo w)
  ∧ (400 ≤ api.StatusCode (api.handleList json_DecodeReadingList now r
                             (listRepo w) (bookRepo w)).1
       ∨ api.Method r = "GET" →
     (api.handleList json_DecodeReadingList now r (listRepo w)
        (bookRepo w)).2 = listRepo w).
Proof.
  destruct w as [books authors lists]. cbn [bookRepo authorRepo listRepo].
  assert (Hnot : ∀ m : string, api.Method r ≠ m → api.Method r = m →
                               False) by (intros; done).
  split_and!.
  - unfold api.handleBooks. route_cases; try done.
    intros [Hge|Hget]; [by apply createBook_unchanged | done].
  - unfold api.handleBook. destruct (decide (_ = "")); [done|].
    route_cases; try done.
    + intros _. apply getBook_unchanged.
    + intros [Hge|Hget]; [by apply updateBook_unchanged | done].
    + intros [Hge|Hget]; [by apply deleteBook_unchanged | done].
  - unfold api.handleAuthors. route_cases; try done.
    intros [Hge|Hget]; [by apply createAuthor_unchanged | done].
  - unfold api.handleAuthor. destruct (decide (_ = "")); [done|].
    route_cases; try done.
    + intros _. apply getAuthor_unchanged.
    + intros [Hge|Hget]; [by apply updateAuthor_unchanged | done].
    + intros [Hge|Hget]; [by apply deleteAuthor_unchanged | done].
  - unfold api.handleLists. route_cases; try done.
    intros [Hge|Hget]; [by apply createReadingList_unchanged | done].
  - unfold api.handleList, api.handleListBook.
    destruct (_ || _); [done|]. destruct (_ && _).
    + route_cases; try done.
      * intros [Hge|Hget]; [by apply addBookToList_unchanged|].
        rewrite Hget in *. discriminate.
      * intros [Hge|Hget]; [by apply removeBookFromList_unchanged|].
        rewrite Hget in *. discriminate.
    + route_cases; try done.
      * intros _. apply getReadingList_unchanged.
      * intros [Hge|Hget]; [by apply updateReadingList_unchanged | done].
      * intros [Hge|Hget]; [by apply deleteReadingList_unchanged | done].
Qed.

Lemma X15_http_atomicity_witness :
  (api.handleBook (λ _, None) 6
     (api.mkRequest "PUT" "/api/books/book-1" "" "{") one_book).2 = one_book.
Proof.
  destruct (X15_http_atomicity (λ _, None) (λ _, None) (λ _, None) 6
              (api.mkRequest "PUT" "/api/books/book-1" "" "{")
              (mkWorld one_book ∅ ∅)) as (_ & Hitem & _).
  apply Hitem. left. vm_compute. discriminate.
Defined.


(** X16.  PUT /api/books/{id}.  The id of the path replaces the id of the
    decoded body.  The answer is 400 with the text of the validation failure
    when the book is invalid; otherwise 409 when a stored book with another
    id has its ISBN, also when the id of the path is not stored; otherwise
    404 when the id of the path is not stored; otherwise 200 with the stored
    book, which is the body under the id of the path, with the creation time
    of the book it replaces and the time of the call as update time.  A body
    that does not decode gives 400 "Invalid JSON". *)
Theorem X16_update_book_http (json_DecodeBook : string → option Book.t)
    (now : Time) (r : api.Request) (id : string)
    (repo : gmap string Book.t) :
  (json_DecodeBook (api.Body r) = None →
   api.updateBook json_DecodeBook now r id repo
     = (api.respondError 400 "Invalid JSON", repo))
  ∧ (∀ body, json_DecodeBook (api.Body r) = Some body →
     let book := api.Book_setID id body in
     let clash := stored_book repo (λ existing,
                    Book.ISBN existing = Book.ISBN body ∧
                    Book.ID existing ≠ id) in
     (∀ msg, Book.Validate body = Some msg →
        api.updateBook json_DecodeBook now r id repo
          = (api.respondError 400 ("invalid book data: " +:+ msg), repo))
     ∧ (Book.Validate body = None → clash →
        api.updateBook json_DecodeBook now r id repo
          = (api.respondError 409 "Book with this ISBN already exists",
             repo))
     ∧ (Book.Validate body = None → ¬ clash → repo !! id = None →
        api.updateBook json_DecodeBook now r id repo
          = (api.respondError 404 "Book not found", repo))
     ∧ (∀ old, Book.Validate body = None → ¬ clash →
        repo !! id = Some old →
        api.updateBook json_DecodeBook now r id repo
          = (api.respondJSON 200
               (api.BookValue (Book.stamp (Book.CreatedAt old) now book)),
             <[id := Book.stamp (Book.CreatedAt old) now book]> repo))).
Proof.
  split.
  - intros Hdec. unfold api.updateBook. by rewrite Hdec.
  - intros body Hdec book clash.
    assert (Hvalid : Book.Validate book = Book.Validate body) by done.
    assert (Hscan : service.UpdateBook_scan (repository.List repo) book
                    = true ↔ clash).
    { rewrite UpdateBook_scan_stored. done. }
    unfold api.updateBook. rewrite Hdec. fold book.
    unfold service.UpdateBook. rewrite Hvalid.
    split_and!.
    + intros msg ->. done.
    + intros -> Hclash%Hscan. by rewrite Hclash.
    + intros -> Hfree Hid.
      rewrite <- Hscan in Hfree. apply not_true_is_false in Hfree.
      rewrite Hfree. by rewrite Update_absent.
    + intros old -> Hfree Hid.
      rewrite <- Hscan in Hfree. apply not_true_is_false in Hfree.
      rewrite Hfree. by rewrite (Update_present now book repo old).
Qed.

Lemma X16_update_book_http_witness :
  api.updateBook (λ _, Some (Book.mk "other" "T2" "111" "a1" 0 0 "" 0 0)) 6
    (api.mkRequest "PUT" "/api/books/book-1" "" "{}") "book-1" one_book
  = (api.respondJSON 200
       (api.BookValue (Book.mk "book-1" "T2" "111" "a1" 0 0 "" 5 6)),
     <["book-1" := Book.mk "book-1" "T2" "111" "a1" 0 0 "" 5 6]> one_book).
Proof.
  destruct (X16_update_book_http
              (λ _, Some (Book.mk "other" "T2" "111" "a1" 0 0 "" 0 0)) 6
              (api.mkRequest "PUT" "/api/books/book-1" "" "{}") "book-1"
              one_book) as [_ Hbody].
  destruct (Hbody (Book.mk "other" "T2" "111" "a1" 0 0 "" 0 0) eq_refl)
    as (_ & _ & _ & Hok).
  apply (Hok (Book.mk "book-1" "T" "111" "a1" 0 0 "" 5 5)).
  - reflexivity.
  - intros (k & existing & [_ ->]%one_book_lookup & _ & Hid). by apply Hid.
  - reflexivity.
Defined.


(** ** Paths *)

Section PathFacts.
Implicit Types (s p rest part : string) (sep c : ascii).
Local Arguments String.append : simpl nomatch.

Lemma CutPrefix_app p s : api.CutPrefix (p +:+ s) p = Some s.
Proof.
  induction p as [|c p IH]; simpl; [done|]. by rewrite Ascii.eqb_refl.
Qed.

Lemma CutPrefix_Some s p rest :
  api.CutPrefix s p = Some rest → s = p +:+ rest.
Proof.
  revert s. induction p as [|c p IH]; intros s; simpl.
  - by intros [= ->].
  - destruct s as [|a s]; [done|].
    destruct (Ascii.eqb a c) eqn:Hac; [|done].
    apply Ascii.eqb_eq in Hac as ->. intros Hcut. by rewrite (IH _ Hcut).
Qed.

Lemma Split_nonempty s sep : ∃ part parts, api.Split s sep = part :: parts.
Proof.
  induction s as [|c s (part & parts & IH)]; simpl; [by eexists _, _|].
  destruct (Ascii.eqb c sep); [by eexists _, _|].
  rewrite IH. by eexists _, _.
Qed.

Lemma not_contains_cons c s sep :
  ¬ contains_byte (String c s) sep ↔ c ≠ sep ∧ ¬ contains_byte s sep.
Proof.
  split.
  - intros Hno. split.
    + intros ->. apply Hno. by exists "", s.
    + intros (u & v & ->). apply Hno. by exists (String c u), v.
  - intros [Hne Hno] (u & v & Huv). destruct u as [|a u]; simpl in Huv.
    + injection Huv as -> _. done.
    + injection Huv as _ ->. apply Hno. by exists u, v.
Qed.

Lemma not_contains_empty sep : ¬ contains_byte "" sep.
Proof. intros (u & v & Huv). by destruct u. Qed.

Lemma Split_no_sep s sep : ¬ contains_byte s sep → api.Split s sep = [s].
Proof.
  induction s as [|c s IH]; simpl; [done|].
  intros [Hne Hno]%not_contains_cons.
  destruct (Ascii.eqb c sep) eqn:Hc; [by apply Ascii.eqb_eq in Hc|].
  by rewrite IH.
Qed.

Lemma Split_app_sep part rest sep :
  ¬ contains_byte part sep →
  api.Split (part +:+ String sep rest) sep = part :: api.Split rest sep.
Proof.
  induction part as [|c part IH]; simpl.
  - intros _. by rewrite Ascii.eqb_refl.
  - intros [Hne Hno]%not_contains_cons.
    destruct (Ascii.eqb c sep) eqn:Hc; [by apply Ascii.eqb_eq in Hc|].
    by rewrite IH.
Qed.

Lemma Split_parts s sep :
  Forall (λ part, ¬ contains_byte part sep) (api.Split s sep).
Proof.
  induction s as [|c s IH]; simpl.
  - apply Forall_singleton, not_contains_empty.
  - destruct (Ascii.eqb c sep) eqn:Hc.
    + apply Forall_cons. split; [apply not_contains_empty | done].
    + destruct (Split_nonempty s sep) as (part & parts & Hs).
      rewrite Hs in *. apply Forall_cons in IH as [Hpart Hparts].
      apply Forall_cons. split; [|done].
      apply not_contains_cons. split; [|done].
      intros ->. by rewrite Ascii.eqb_refl in Hc.
Qed.

Lemma Split_join s sep :
  String.concat (String sep "") (api.Split s sep) = s.
Proof.
  induction s as [|c s IH]; simpl; [done|].
  destruct (Split_nonempty s sep) as (part & parts & Hs).
  rewrite Hs in *.
  destruct (Ascii.eqb c sep) eqn:Hc.
  - apply Ascii.eqb_eq in Hc as ->. simpl. simpl in IH. by rewrite IH.
  - destruct parts as [|part' parts]; simpl in *; by rewrite IH.
Qed.
End PathFacts.

(** [Split] on a one-byte separator and [TrimPrefix].  Joining the
    parts of [Split] with the separator gives the string back; there is
    always at least one part (the empty string gives one empty part), no
    part contains the separator, and a first part without separator is cut
    off at the first separator.  [TrimPrefix] cuts a prefix that is there
    and returns every other string as it is. *)
Theorem Split_TrimPrefix_facts (s : string) (sep : ascii) :
  String.concat (String sep "") (api.Split s sep) = s
  ∧ (0 < length (api.Split s sep))%nat
  ∧ Forall (λ part, ¬ contains_byte part sep) (api.Split s sep)
  ∧ (¬ contains_byte s sep → api.Split s sep = [s])
  ∧ (∀ rest, ¬ contains_byte s sep →
     api.Split (s +:+ String sep rest) sep = s :: api.Split rest sep)
  ∧ (∀ prefix, api.TrimPrefix (prefix +:+ s) prefix = s)
  ∧ (∀ prefix, api.TrimPrefix s prefix = s ∨
               s = prefix +:+ api.TrimPrefix s prefix).
Proof.
  split_and!.
  - apply Split_join.
  - destruct (Split_nonempty s sep) as (part & parts & ->). simpl. lia.
  - apply Split_parts.
  - apply Split_no_sep.
  - intros rest Hno. by apply Split_app_sep.
  - intros prefix. unfold api.TrimPrefix. by rewrite CutPrefix_app.
  - intros prefix. unfold api.TrimPrefix.
    destruct (api.CutPrefix s prefix) as [rest|] eqn:Hcut; [|by left].
    right. by apply CutPrefix_Some.
Qed.

Lemma Split_TrimPrefix_example :
  api.Split ("L1" +:+ String api.slash "books/B1") api.slash
  = "L1" :: api.Split "books/B1" api.slash.
Proof.
  destruct (Split_TrimPrefix_facts "L1" api.slash) as (_ & _ & _ & _ & Hcut & _).
  apply Hcut. intros Hin%contains_byte_IndexByte. vm_compute in Hin.
  by apply Hin.
Defined.


Lemma append_empty_r (s : string) : s +:+ "" = s.
Proof.
  induction s as [|c s IH]; [done|].
  change (String c s +:+ "") with (String c (s +:+ "")). by rewrite IH.
Qed.

(** X17.  How [handleList] reads the path below /api/lists/.  With a list id
    and a book id that are free of slashes, the list id not empty:
    {listId}/books/{bookId} goes to the membership handler, and so does the
    same path followed by further segments, which are ignored;
    {listId}/{segment} with a single further segment, be it "books" or
    empty, is handled as {listId} alone; and a path whose first segment is
    empty is answered 400 "List ID required" whatever the method. *)
Theorem X17_list_routes
    (json_DecodeReadingList : string → option ReadingList.t) (now : Time)
    (r : api.Request) (repo : gmap string ReadingList.t)
    (bookRepo0 : gmap string Book.t) (listID bookID : string) :
  listID ≠ "" →
  ¬ contains_byte listID api.slash → ¬ contains_byte bookID api.slash →
  (∀ tail,
     api.Path r = "/api/lists/" +:+ listID +:+ "/books/" +:+ bookID +:+ tail →
     tail = "" ∨ (∃ more, tail = String api.slash more) →
     api.handleList json_DecodeReadingList now r repo bookRepo0
       = api.handleListBook now r listID bookID repo bookRepo0)
  ∧ (∀ segment,
     api.Path r = "/api/lists/" +:+ listID +:+ String api.slash segment →
     ¬ contains_byte segment api.slash →
     api.handleList json_DecodeReadingList now r repo bookRepo0
       = api.handleList json_DecodeReadingList now
           (api.mkRequest (api.Method r) ("/api/lists/" +:+ listID)
              (api.Country r) (api.Body r)) repo bookRepo0)
  ∧ (∀ tail,
     api.Path r = "/api/lists/" +:+ tail →
     tail = "" ∨ (∃ more, tail = String api.slash more) →
     api.handleList json_DecodeReadingList now r repo bookRepo0
       = (api.http_Error "List ID required" 400, repo)).
Proof.
  intros Hid Hlist Hbook.
  assert (Htrim : ∀ rest, api.TrimPrefix ("/api/lists/" +:+ rest)
                            "/api/lists/" = rest).
  { intros rest. unfold api.TrimPrefix. by rewrite CutPrefix_app. }
  assert (Hempty : bool_decide (listID = "") = false)
    by by apply bool_decide_eq_false.
  split_and!.
  - intros tail Hpath Htail. unfold api.handleList.
    rewrite Hpath, Htrim.
    assert (Hparts : ∃ more,
      api.Split (listID +:+ "/books/" +:+ bookID +:+ tail) api.slash
        = listID :: "books" :: bookID :: more).
    { change ("/books/" +:+ bookID +:+ tail)
        with (String api.slash ("books" +:+
                String api.slash (bookID +:+ tail))).
      rewrite Split_app_sep by done.
      rewrite Split_app_sep
        by (intros Hin%contains_byte_IndexByte; vm_compute in Hin;
            by apply Hin).
      destruct Htail as [->|[more ->]].
      - exists []. rewrite append_empty_r. by rewrite Split_no_sep.
      - exists (api.Split more api.slash). by rewrite Split_app_sep. }
    destruct Hparts as [more ->]. simpl. rewrite Hempty. simpl. done.
  - intros segment Hpath Hseg. unfold api.handleList.
    rewrite Hpath. simpl api.Path. rewrite !Htrim.
    rewrite Split_app_sep by done.
    rewrite (Split_no_sep segment) by done.
    rewrite (Split_no_sep listID) by done.
    simpl. rewrite Hempty. simpl. done.
  - intros tail Hpath Htail. unfold api.handleList.
    rewrite Hpath, Htrim.
    destruct Htail as [->|[more ->]]; [done|].
    simpl. reflexivity.
Qed.

Lemma X17_list_routes_witness :
  api.handleList (λ _, None) 11
    (api.mkRequest "POST" "/api/lists/list-1/books/book-3/extra" "" "")
    one_list one_book
  = api.handleListBook 11
      (api.mkRequest "POST" "/api/lists/list-1/books/book-3/extra" "" "")
      "list-1" "book-3" one_list one_book.
Proof.
  destruct (X17_list_routes (λ _, None) 11
              (api.mkRequest "POST" "/api/lists/list-1/books/book-3/extra"
                 "" "")
              one_list one_book "list-1" "book-3") as (Hmember & _).
  - discriminate.
  - intros Hin%contains_byte_IndexByte. vm_compute in Hin. by apply Hin.
  - intros Hin%contains_byte_IndexByte. vm_compute in Hin. by apply Hin.
  - apply (Hmember "/extra"); [reflexivity|]. right. by exists "extra".
Defined.


(** X18.  The membership endpoint, end to end.  For a stored book and a
    stored list that does not have it, the lists being stored under their
    ids: POST answers 204; the same POST again answers 409 and changes
    nothing; DELETE then answers 204; and the same DELETE again answers 404
    "Book not in list" and changes nothing.  Any other method is answered
    405. *)
Theorem X18_membership_statuses (now1 now2 : Time) (post delete : api.Request)
    (listID bookID : string) (repo : gmap string ReadingList.t)
    (bookRepo0 : gmap string Book.t) (list : ReadingList.t) :
  api.Method post = "POST" → api.Method delete = "DELETE" →
  keyed_by_ID repo → is_Some (bookRepo0 !! bookID) →
  repo !! listID = Some list → bookID ∉ ReadingList.BookIDs list →
  let added := api.handleListBook now1 post listID bookID repo bookRepo0 in
  let again := api.handleListBook now1 post listID bookID added.2 bookRepo0 in
  let removed := api.handleListBook now2 delete listID bookID added.2
                   bookRepo0 in
  let gone := api.handleListBook now2 delete listID bookID removed.2
                bookRepo0 in
  added.1 = api.noContent
  ∧ again = (api.respondError 409 "Book already in list", added.2)
  ∧ removed.1 = api.noContent
  ∧ gone = (api.respondError 404 "Book not in list", removed.2)
  ∧ (∀ other : api.Request,
     api.Method other ≠ "POST" → api.Method other ≠ "DELETE" →
     api.handleListBook now1 other listID bookID repo bookRepo0
       = (api.http_Error "Method not allowed" 405, repo)).
Proof.
  intros Hpost Hdelete Hk Hbook Hlist Hnotin.
  set (list1 := ReadingList.stamp (ReadingList.CreatedAt list) now1
                  (ReadingList.setBookIDs
                     (ReadingList.BookIDs list ++ [bookID]) list)).
  set (list2 := ReadingList.stamp (ReadingList.CreatedAt list1) now2
                  (ReadingList.setBookIDs (ReadingList.BookIDs list) list1)).
  pose proof (Hk _ _ Hlist) as Hkey. simpl in Hkey.
  assert (Hk1 : keyed_by_ID (<[listID := list1]> repo)).
  { apply map_Forall_insert_2; [exact Hkey | done]. }
  assert (Hadded : api.handleListBook now1 post listID bookID repo bookRepo0
                   = (api.noContent, <[listID := list1]> repo)).
  { unfold api.handleListBook, api.addBookToList.
    rewrite decide_True by done.
    by rewrite (AddBookToList_success now1 listID bookID repo bookRepo0 list).
  }
  assert (Hremoved :
    api.handleListBook now2 delete listID bookID (<[listID := list1]> repo)
      bookRepo0
    = (api.noContent, <[listID := list2]> (<[listID := list1]> repo))).
  { unfold api.handleListBook, api.removeBookFromList.
    rewrite decide_False by (rewrite Hdelete; discriminate).
    rewrite decide_True by done.
    rewrite (RemoveBookFromList_success now2 listID bookID
               (<[listID := list1]> repo) list1 (ReadingList.BookIDs list));
      [done | done | apply lookup_insert_eq |].
    simpl. by apply RemoveBook_ids_appended. }
  intros added again removed gone. subst added again removed gone.
  rewrite Hadded. cbn [fst snd]. rewrite Hremoved. cbn [fst snd].
  split_and!; try done.
  - unfold api.handleListBook, api.addBookToList.
    rewrite decide_True by done.
    destruct Hbook as [book Hbook].
    unfold service.AddBookToList, repository.Get.
    rewrite Hbook, lookup_insert_eq. unfold ReadingList.AddBook.
    assert (Hin : ReadingList.ContainsBook_ids (ReadingList.BookIDs list1)
                    bookID = true).
    { apply ContainsBook_ids_true. simpl. apply elem_of_app. right.
      by left. }
    by rewrite Hin.
  - unfold api.handleListBook, api.removeBookFromList.
    rewrite decide_False by (rewrite Hdelete; discriminate).
    rewrite decide_True by done.
    unfold service.RemoveBookFromList, repository.Get.
    rewrite lookup_insert_eq. unfold ReadingList.RemoveBook.
    assert (Hrm : ReadingList.RemoveBook_ids (ReadingList.BookIDs list2)
                    bookID = None).
    { apply RemoveBook_ids_absent. exact Hnotin. }
    by rewrite Hrm.
  - intros other Hnp Hnd. unfold api.handleListBook.
    by rewrite !decide_False by done.
Qed.

Lemma X18_membership_statuses_witness :
  api.handleListBook 11 (api.mkRequest "POST" "" "" "") "list-1" "book-3"
    (api.handleListBook 11 (api.mkRequest "POST" "" "" "") "list-1" "book-3"
       one_list (<["book-3" := valid_book]> one_book)).2
    (<["book-3" := valid_book]> one_book)
  = (api.respondError 409 "Book already in list",
     (api.handleListBook 11 (api.mkRequest "POST" "" "" "") "list-1"
        "book-3" one_list (<["book-3" := valid_book]> one_book)).2).
Proof.
  destruct (X18_membership_statuses 11 12 (api.mkRequest "POST" "" "" "")
              (api.mkRequest "DELETE" "" "" "") "list-1" "book-3" one_list
              (<["book-3" := valid_book]> one_book) two_books)
    as (_ & Hagain & _).
  - reflexivity.
  - reflexivity.
  - refine (bool_decide_unpack _ _). vm_compute. reflexivity.
  - by eexists.
  - reflexivity.
  - compute_done.
  - exact Hagain.
Defined.

(** X19.  GET /api/authors.  The answer is always 200.  With a non-empty
    [country] parameter it lists exactly the stored authors of that country,
    with an empty or missing one exactly the stored authors; so the authors
    whose country is the empty string cannot be asked for by country. *)
Theorem X19_list_authors (r : api.Request) (repo : gmap string Author.t) :
  (api.listAuthors r repo).2 = repo
  ∧ ∃ authors,
      (api.listAuthors r repo).1
        = api.respondJSON 200 (api.AuthorsValue authors) ∧
      (api.Country r ≠ "" →
       ∀ a, a ∈ authors ↔
            (∃ id, repo !! id = Some a) ∧ Author.Country a = api.Country r)
      ∧ (api.Country r = "" →
         ∀ a, a ∈ authors ↔ ∃ id, repo !! id = Some a).
Proof.
  split; [done|]. unfold api.listAuthors. eexists. split; [done|]. split.
  - intros Hcountry a. rewrite bool_decide_eq_false_2 by done. simpl.
    unfold AuthorService.GetAuthorsByCountry,
      AuthorRepository.FindByCountry.
    by rewrite list_elem_of_In, filter_In, <- list_elem_of_In, elem_of_List,
      bool_decide_eq_true.
  - intros Hcountry a. rewrite bool_decide_eq_true_2 by done. simpl.
    unfold AuthorService.ListAuthors. apply elem_of_List.
Qed.

Lemma X19_list_authors_witness :
  ∃ authors,
    (api.listAuthors (api.mkRequest "GET" "/api/authors" "USA" "")
       (authorRepo sample_world)).1
      = api.respondJSON 200 (api.AuthorsValue authors) ∧
    ∀ a, a ∈ authors ↔
         (∃ id, authorRepo sample_world !! id = Some a) ∧
         Author.Country a = "USA".
Proof.
  destruct (X19_list_authors (api.mkRequest "GET" "/api/authors" "USA" "")
              (authorRepo sample_world))
    as (_ & authors & Hresp & Hfilter & _).
  exists authors. split; [exact Hresp|]. apply Hfilter. discriminate.
Defined.




(** ** Roles and credentials *)

Section RoleFacts.
Implicit Types (roles : list string) (role : string).

Lemma roleSet_lookup roles role :
  default false (authz.roleSet roles !! role) = true ↔ role ∈ roles.
Proof.
  unfold authz.roleSet.
  assert (Hgen : ∀ (set : gmap string bool),
            default false
              (foldl (λ set role, <[role := true]> set) set roles !! role)
              = true
            ↔ role ∈ roles ∨ default false (set !! role) = true).
  { induction roles as [|r0 roles IH]; intros set; simpl.
    - split; [by right | intros [[]%elem_of_nil|]; done].
    - rewrite IH, elem_of_cons.
      destruct (decide (r0 = role)) as [->|Hne].
      + rewrite lookup_insert_eq. simpl. tauto.
      + rewrite lookup_insert_ne by done. intuition congruence. }
  rewrite Hgen, lookup_empty. simpl. intuition discriminate.
Qed.
End RoleFacts.

(** X21.  [RequireRole] hands the request on, unchanged, exactly when its
    context carries a user whose role is one of the given roles.  Without a
    user it answers 401, this time without a [WWW-Authenticate] header; with
    a user of another role it answers 403; so with no roles given it lets
    nobody through.  Behind [BasicAuth] over the in-memory store, a request
    gets through exactly when its header carries the name and password of a
    stored user whose stored role is one of the given roles. *)
Theorem X21_require_role (roles : list string) (r : middleware.Request) :
  (∀ r', authz.RequireRole roles r = middleware.ServeNext r' ↔
         r' = r ∧ ∃ user, middleware.ctxUser r = Some user ∧
                          middleware.Role user ∈ roles)
  ∧ (middleware.ctxUser r = None →
     authz.RequireRole roles r
       = middleware.Respond (middleware.http_Error ∅ "Unauthorized" 401))
  ∧ (∀ user, middleware.ctxUser r = Some user →
     middleware.Role user ∉ roles →
     authz.RequireRole roles r
       = middleware.Respond (middleware.http_Error ∅ "Forbidden" 403))
  ∧ (∀ msg code,
     middleware.Header (middleware.http_Error ∅ msg code)
       !! "WWW-Authenticate" = None)
  ∧ (∀ (base64_DecodeString : string → option string)
       (store : middleware.InMemoryUserStore) (realm : string) r',
     authz.Protected base64_DecodeString store realm roles r
       = middleware.ServeNext r' ↔
     ∃ username password creds,
       basic_credentials base64_DecodeString (middleware.Authorization r)
         username password ∧
       middleware.users store !! username = Some creds ∧
       middleware.Password creds = password ∧
       default "" (middleware.roles store !! username) ∈ roles ∧
       r' = middleware.mkRequest (middleware.Authorization r)
              (Some (middleware.mkUser username
                       (default "" (middleware.roles store !! username))))).
Proof.
  assert (Hpass : ∀ (q q' : middleware.Request),
    authz.RequireRole roles q = middleware.ServeNext q' ↔
    q' = q ∧ ∃ user, middleware.ctxUser q = Some user ∧
                     middleware.Role user ∈ roles).
  { intros q q'. unfold authz.RequireRole, authz.GetUser.
    destruct (middleware.ctxUser q) as [user|].
    - destruct (default false (authz.roleSet roles !! middleware.Role user))
        eqn:Hset; simpl.
      + apply roleSet_lookup in Hset. split.
        * intros [= <-]. split; [done|]. by exists user.
        * by intros [-> _].
      + split; [done|]. intros (_ & u & [= <-] & Hin).
        apply roleSet_lookup in Hin. congruence.
    - split; [done|]. by intros (_ & u & ? & _). }
  split_and!.
  - intros r'. apply Hpass.
  - intros Hnone. unfold authz.RequireRole, authz.GetUser. by rewrite Hnone.
  - intros user Huser Hrole. unfold authz.RequireRole, authz.GetUser.
    rewrite Huser.
    destruct (default false (authz.roleSet roles !! middleware.Role user))
      eqn:Hset; [|done].
    by apply roleSet_lookup in Hset.
  - intros msg code. unfold middleware.http_Error. simpl.
    rewrite !lookup_insert_ne by done. by rewrite lookup_delete_ne.
  - intros decode store realm r'. unfold authz.Protected, middleware.BasicAuth.
    split.
    + destruct (parseBasicAuth_cases decode (middleware.Authorization r))
        as [(username & password & Hparse)|Hparse]; rewrite Hparse; simpl;
        [|discriminate].
      apply parseBasicAuth_ok in Hparse.
      unfold middleware.InMemoryUserStore_Authenticate,
        middleware.ConstantTimeCompare.
      destruct (middleware.users store !! username) as [creds|] eqn:Hu;
        simpl; [|discriminate].
      destruct (decide (middleware.Password creds = password)); simpl;
        [|discriminate].
      intros (-> & user & [= <-] & Hin)%Hpass.
      by exists username, password, creds.
    + intros (username & password & creds & Hcreds & Hu & Hpw & Hin & ->).
      apply parseBasicAuth_ok in Hcreds. rewrite Hcreds. simpl.
      unfold middleware.InMemoryUserStore_Authenticate,
        middleware.ConstantTimeCompare.
      rewrite Hu. rewrite decide_True by done. simpl.
      apply Hpass. split; [done|]. eexists. split; [done|]. done.
Qed.

Lemma X21_require_role_witness :
  authz.RequireRole ["admin"]
    (middleware.mkRequest "" (Some (middleware.mkUser "user" "reader")))
  = middleware.Respond (middleware.http_Error ∅ "Forbidden" 403)
  ∧ authz.RequireRole ["admin"] (middleware.mkRequest "" None)
    = middleware.Respond (middleware.http_Error ∅ "Unauthorized" 401).
Proof.
  split.
  - destruct (X21_require_role ["admin"]
                (middleware.mkRequest ""
                   (Some (middleware.mkUser "user" "reader"))))
      as (_ & _ & Hforbidden & _).
    apply (Hforbidden (middleware.mkUser "user" "reader")); [reflexivity|].
    compute_done.
  - destruct (X21_require_role ["admin"] (middleware.mkRequest "" None))
      as (_ & Hnone & _).
    apply Hnone. reflexivity.
Defined.

(** X22.  [EncodeBasicAuth] and [parseBasicAuth], base64 decoding undoing
    base64 encoding.  A user name without colon and any password come back
    from the header built for them.  A colon in the user name moves the
    split: what comes back is the user name up to its first colon, and the
    rest of it, a colon and the password as password. *)
Theorem X22_encode_parse (base64_EncodeToString : string → string)
    (base64_DecodeString : string → option string)
    (username password : string) :
  (∀ s, base64_DecodeString (base64_EncodeToString s) = Some s) →
  (¬ contains_byte username middleware.colon →
   middleware.parseBasicAuth base64_DecodeString
     (authz.EncodeBasicAuth base64_EncodeToString username password)
   = (username, password, true))
  ∧ (∀ name rest,
     ¬ contains_byte name middleware.colon →
     username = name +:+ String middleware.colon rest →
     middleware.parseBasicAuth base64_DecodeString
       (authz.EncodeBasicAuth base64_EncodeToString username password)
     = (name, rest +:+ ":" +:+ password, true)).
Proof.
  intros Hcodec.
  assert (Hparse : ∀ name pw,
    ¬ contains_byte name middleware.colon →
    middleware.parseBasicAuth base64_DecodeString
      ("Basic " +:+ base64_EncodeToString
                      (name +:+ String middleware.colon pw))
    = (name, pw, true)).
  { intros name pw Hno. apply parseBasicAuth_ok.
    exists "Basic ", (base64_EncodeToString
                        (name +:+ String middleware.colon pw)),
      (name +:+ String middleware.colon pw).
    split_and!; [done | done | apply Hcodec | done | done]. }
  split.
  - intros Hno. unfold authz.EncodeBasicAuth. by apply Hparse.
  - intros name rest Hno ->. unfold authz.EncodeBasicAuth.
    rewrite <- (Hparse name (rest +:+ ":" +:+ password)) by done.
    do 3 f_equal. by rewrite append_assoc.
Qed.

Lemma X22_encode_parse_witness :
  middleware.parseBasicAuth Some (authz.EncodeBasicAuth id "admin" "s:3")
  = ("admin", "s:3", true)
  ∧ middleware.parseBasicAuth Some (authz.EncodeBasicAuth id "a:b" "c")
    = ("a", "b:c", true).
Proof.
  split.
  - destruct (X22_encode_parse id Some "admin" "s:3") as [Hplain _];
      [done|].
    apply Hplain. intros Hin%contains_byte_IndexByte. vm_compute in Hin.
    by apply Hin.
  - destruct (X22_encode_parse id Some "a:b" "c") as [_ Hcolon]; [done|].
    apply (Hcolon "a" "b"); [|reflexivity].
    intros Hin%contains_byte_IndexByte. vm_compute in Hin. by apply Hin.
Defined.

(** X23.  The in-memory user store.  After [AddUser] the added name
    authenticates with exactly the password added, and gets the role added;
    adding a name again replaces its password and role; every other name
    authenticates as before.  The empty store authenticates nobody.  A user
    is returned exactly when the boolean is true. *)
Theorem X23_user_store (s : middleware.InMemoryUserStore)
    (username password role : string) :
  (∀ given,
     middleware.Authenticate
       (middleware.AddUser s username password role) username given
     = if decide (password = given)
       then (Some (middleware.mkUser username role), true)
       else (None, false))
  ∧ (∀ other given, other ≠ username →
     middleware.Authenticate
       (middleware.AddUser s username password role) other given
     = middleware.Authenticate s other given)
  ∧ (∀ name given,
     middleware.Authenticate middleware.NewInMemoryUserStore name given
     = (None, false))
  ∧ (∀ name given,
     is_Some (middleware.Authenticate s name given).1
     ↔ (middleware.Authenticate s name given).2 = true).
Proof.
  split_and!.
  - intros given. simpl.
    unfold middleware.InMemoryUserStore_Authenticate,
      middleware.ConstantTimeCompare, middleware.AddUser. simpl.
    rewrite !lookup_insert_eq. simpl. by destruct (decide (password = given)).
  - intros other given Hne. simpl.
    unfold middleware.InMemoryUserStore_Authenticate, middleware.AddUser.
    simpl. by rewrite !lookup_insert_ne by done.
  - intros name given. simpl.
    unfold middleware.InMemoryUserStore_Authenticate,
      middleware.NewInMemoryUserStore. simpl. by rewrite lookup_empty.
  - intros name given. simpl.
    unfold middleware.InMemoryUserStore_Authenticate.
    destruct (middleware.users s !! name); simpl;
      [destruct (negb _)|]; simpl; split; (done || by intros [? ?]).
Qed.

Lemma X23_user_store_witness :
  middleware.Authenticate sample_store "reader" "pass" = (None, false).
Proof.
  destruct (X23_user_store middleware.NewInMemoryUserStore "user" "pass"
              "admin") as (_ & Hother & Hempty & _).
  unfold sample_store. rewrite (Hother "reader" "pass") by discriminate.
  apply Hempty.
Defined.


(** ** Request ids *)

Section UitoaFacts.
Implicit Types (val i k : Z) (s acc : string) (fuel : nat).
Local Arguments String.append : simpl nomatch.

Lemma digit_byte_value d :
  0 ≤ d ≤ 9 → Z.of_nat (nat_of_ascii (logging.digit_byte d)) - 48 = d.
Proof.
  intros Hd. unfold logging.digit_byte.
  rewrite nat_ascii_embedding by lia. lia.
Qed.

Lemma decimal_value_snoc k s c :
  decimal_value k (s +:+ String c "")
  = 10 * decimal_value k s + (Z.of_nat (nat_of_ascii c) - 48).
Proof. revert k. induction s as [|a s IH]; intros k; simpl; [done|]. apply IH. Qed.

Lemma all_digits_snoc s c :
  all_digits (s +:+ String c "")
  = all_digits s && ((48 <=? nat_of_ascii c)%nat
                     && (nat_of_ascii c <=? 57)%nat).
Proof.
  induction s as [|a s IH]; simpl.
  - by rewrite andb_true_r.
  - rewrite IH. by rewrite !andb_assoc.
Qed.

Lemma all_digits_digit_byte d :
  0 ≤ d ≤ 9 →
  ((48 <=? nat_of_ascii (logging.digit_byte d))%nat
   && (nat_of_ascii (logging.digit_byte d) <=? 57)%nat) = true.
Proof.
  intros Hd. unfold logging.digit_byte.
  rewrite nat_ascii_embedding by lia.
  apply andb_true_iff. split; apply Nat.leb_le; lia.
Qed.

Lemma uitoa_loop_step fuel val i acc :
  logging.uitoa_loop (S fuel) val i acc
  = if 0 <? val then
      if (i <? 0) || (20 <=? i) then None
      else logging.uitoa_loop fuel (val / 10) (i - 1)
             (String (logging.digit_byte (val mod 10)) acc)
    else Some acc.
Proof. reflexivity. Qed.

(** The loop writes the digits of [val] in front of [acc], as long as the
    buffer has room for them. *)
Lemma uitoa_loop_digits fuel val i acc :
  0 ≤ val < 10 ^ Z.of_nat fuel → Z.of_nat fuel ≤ i + 1 → i < 20 →
  ∃ digits,
    logging.uitoa_loop (S fuel) val i acc = Some (digits +:+ acc) ∧
    decimal_value 0 digits = val ∧ all_digits digits = true ∧
    (String.length digits ≤ fuel)%nat ∧
    (0 < val → (0 < String.length digits)%nat).
Proof.
  revert val i acc. induction fuel as [|fuel IH]; intros val i acc Hval Hi Hi20.
  - assert (val = 0) as -> by (simpl in Hval; lia).
    exists "". simpl. split_and!; (done || lia).
  - rewrite uitoa_loop_step.
    destruct (0 <? val) eqn:Hpos.
    + apply Z.ltb_lt in Hpos.
      replace ((i <? 0) || (20 <=? i)) with false
        by (symmetry; apply orb_false_iff; split;
            [apply Z.ltb_ge | apply Z.leb_gt]; lia).
      destruct (IH (val / 10) (i - 1)
                  (String (logging.digit_byte (val mod 10)) acc))
        as (digits & Hloop & Hvalue & Hdigits & Hlen & _).
      * rewrite Nat2Z.inj_succ, Z.pow_succ_r in Hval by lia.
        split; [apply Z.div_pos; lia|].
        apply Z.div_lt_upper_bound; lia.
      * lia.
      * lia.
      * exists (digits +:+ String (logging.digit_byte (val mod 10)) "").
        assert (Hmod : 0 ≤ val mod 10 ≤ 9)
          by (pose proof (Z.mod_pos_bound val 10); lia).
        split_and!.
        -- rewrite Hloop. f_equal. by rewrite append_assoc.
        -- rewrite decimal_value_snoc, Hvalue, digit_byte_value by done.
           pose proof (Z.div_mod val 10). lia.
        -- rewrite all_digits_snoc, Hdigits.
           by rewrite all_digits_digit_byte.
        -- rewrite length_append. simpl. lia.
        -- intros _. rewrite length_append. simpl. lia.
    + apply Z.ltb_ge in Hpos. assert (val = 0) as -> by lia.
      exists "". split_and!; [reflexivity | reflexivity | reflexivity | |].
      * simpl. lia.
      * intros Hlt. lia.
Qed.

Lemma uitoa_correct val :
  0 ≤ val ≤ logging.uint64_max →
  ∃ digits, logging.uitoa val = Some digits ∧
            decimal_value 0 digits = val ∧ all_digits digits = true ∧
            (1 ≤ String.length digits ≤ 20)%nat.
Proof.
  intros Hval. unfold logging.uitoa.
  destruct (val =? 0) eqn:Hzero.
  - apply Z.eqb_eq in Hzero as ->. exists "0". split_and!; (done || simpl; lia).
  - apply Z.eqb_neq in Hzero.
    destruct (uitoa_loop_digits 20 val 19 "")
      as (digits & Hloop & Hvalue & Hdigits & Hlen & Hpos).
    + unfold logging.uint64_max in Hval. simpl. lia.
    + simpl. lia.
    + lia.
    + exists digits. rewrite append_empty_r in Hloop.
      split_and!; [done | done | done | lia | done].
Qed.
End UitoaFacts.

(** X24.  [uitoa] on a [uint64].  The loop never writes outside its buffer
    of 20 bytes: every value up to 2^64 - 1 gets a string, of one to twenty
    decimal digits, that reads back as the value; so different values get
    different strings, and so do they from [formatRequestID]. *)
Theorem X24_uitoa (val : Z) :
  0 ≤ val ≤ logging.uint64_max →
  (∃ digits, logging.uitoa val = Some digits ∧
             decimal_value 0 digits = val ∧ all_digits digits = true ∧
             (1 ≤ String.length digits ≤ 20)%nat ∧
             logging.formatRequestID val = Some ("req-" +:+ digits))
  ∧ (∀ other, 0 ≤ other ≤ logging.uint64_max →
     logging.formatRequestID other = logging.formatRequestID val →
     other = val).
Proof.
  intros Hval.
  destruct (uitoa_correct val Hval)
    as (digits & Huitoa & Hvalue & Hdigits & Hlen).
  split.
  - exists digits. unfold logging.formatRequestID. rewrite Huitoa.
    destruct Hlen as [Hlen1 Hlen20].
    split_and!; [reflexivity | exact Hvalue | exact Hdigits
                | exact Hlen1 | exact Hlen20 | reflexivity].
  - intros other Hother.
    destruct (uitoa_correct other Hother)
      as (digits' & Huitoa' & Hvalue' & _).
    unfold logging.formatRequestID. rewrite Huitoa, Huitoa'.
    intros Heq. apply (inj Some) in Heq.
    apply (inj (String.append "req-")) in Heq. congruence.
Qed.

Lemma X24_uitoa_witness :
  ∃ digits, logging.uitoa 18446744073709551615 = Some digits ∧
            decimal_value 0 digits = 18446744073709551615 ∧
            (1 ≤ String.length digits ≤ 20)%nat.
Proof.
  destruct (X24_uitoa 18446744073709551615) as [Hdigits _].
  - unfold logging.uint64_max. lia.
  - destruct Hdigits as (digits & Huitoa & Hvalue & _ & Hlen & _).
    exists digits. split; [exact Huitoa | split; [exact Hvalue | exact Hlen]].
Defined.

Section RequestIDFacts.
Implicit Types (counter val : Z) (n k : nat) (header : gmap string string).

Lemma formatRequestID_Some val :
  0 ≤ val ≤ logging.uint64_max →
  ∃ digits, logging.uitoa val = Some digits ∧
            logging.formatRequestID val = Some ("req-" +:+ digits) ∧
            decimal_value 0 digits = val.
Proof.
  intros Hval.
  destruct (uitoa_correct val Hval) as (digits & Huitoa & Hvalue & _).
  exists digits. unfold logging.formatRequestID. by rewrite Huitoa.
Qed.

Lemma formatRequestID_inj val other :
  0 ≤ val ≤ logging.uint64_max → 0 ≤ other ≤ logging.uint64_max →
  logging.formatRequestID other = logging.formatRequestID val → other = val.
Proof.
  intros Hval Hother.
  destruct (formatRequestID_Some val Hval) as (digits & _ & -> & Hvalue).
  destruct (formatRequestID_Some other Hother) as (digits' & _ & -> & Hvalue').
  intros Heq. apply (inj Some) in Heq.
  apply (inj (String.append "req-")) in Heq. congruence.
Qed.

Lemma RequestID_in_range counter header :
  0 ≤ counter < logging.uint64_max →
  ∃ id, logging.formatRequestID (counter + 1) = Some id ∧
        logging.RequestID counter header
        = Some (counter + 1, <["X-Request-ID" := id]> header).
Proof.
  intros Hcounter. unfold logging.RequestID.
  rewrite Z.mod_small by (unfold logging.uint64_max in *; lia).
  destruct (formatRequestID_Some (counter + 1)) as (digits & _ & Hid & _);
    [lia|].
  exists ("req-" +:+ digits). by rewrite Hid.
Qed.

Lemma serve_ids n counter :
  0 ≤ counter → counter + Z.of_nat n ≤ logging.uint64_max →
  ∃ ids, logging.serve n counter = Some ids ∧ length ids = n ∧
         ∀ k, (k < n)%nat →
              logging.formatRequestID (counter + Z.of_nat k + 1) = ids !! k.
Proof.
  revert counter. induction n as [|n IH]; intros counter Hcounter Hroom.
  - exists []. split_and!; [done | done | intros k Hk; lia].
  - destruct (RequestID_in_range counter ∅) as (id & Hid & Hreq); [lia|].
    destruct (IH (counter + 1)) as (ids & Hserve & Hlen & Hnth); [lia | lia|].
    exists (id :: ids). split_and!.
    + cbn [logging.serve]. rewrite Hreq, Hserve.
      by rewrite lookup_insert_eq.
    + simpl. by rewrite Hlen.
    + intros [|k] Hk.
      * simpl. by rewrite Z.add_0_r.
      * simpl. rewrite <- Hnth by lia. f_equal. lia.
Qed.
End RequestIDFacts.

(** X25.  [RequestID] and [formatRequestID].  A handler whose counter is at
    [counter] gives the next [n] requests the ids of [counter + 1], ...,
    [counter + n], in this order, as long as the counter stays below 2^64:
    no request panics and no two of them get the same id. *)
Theorem X25_request_ids (n : nat) (counter : Z) :
  0 ≤ counter → counter + Z.of_nat n ≤ logging.uint64_max →
  ∃ ids, logging.serve n counter = Some ids ∧ length ids = n ∧
         (∀ k, (k < n)%nat →
               logging.formatRequestID (counter + Z.of_nat k + 1) = ids !! k) ∧
         NoDup ids.
Proof.
  intros Hcounter Hroom.
  destruct (serve_ids n counter Hcounter Hroom) as (ids & Hserve & Hlen & Hnth).
  exists ids. split_and!; [done | done | done |].
  apply NoDup_alt. intros i j id Hi Hj.
  assert (Hin : (i < n)%nat) by (rewrite <- Hlen; by eapply lookup_lt_Some).
  assert (Hjn : (j < n)%nat) by (rewrite <- Hlen; by eapply lookup_lt_Some).
  rewrite <- Hnth in Hi, Hj by done.
  assert (counter + Z.of_nat i + 1 = counter + Z.of_nat j + 1); [|lia].
  apply formatRequestID_inj; [lia | lia | congruence].
Qed.

Lemma X25_request_ids_witness :
  ∃ ids, logging.serve 3 9 = Some ids ∧ length ids = 3%nat ∧ NoDup ids ∧
         ids !! 0%nat = Some "req-10".
Proof.
  destruct (X25_request_ids 3 9) as (ids & Hserve & Hlen & Hnth & Hnodup).
  - lia.
  - unfold logging.uint64_max. lia.
  - exists ids. split; [exact Hserve|]. split; [exact Hlen|].
    split; [exact Hnodup|]. rewrite <- (Hnth 0%nat) by lia. reflexivity.
Defined.

(** ** Truncation *)

Section TruncateFacts.
Implicit Types (s t : string) (n : nat) (maxLen : Z).
Local Arguments String.append : simpl nomatch.

Lemma slice_to_length s n :
  (n ≤ String.length s)%nat → String.length (middleware.slice_to s n) = n.
Proof.
  unfold middleware.slice_to. revert n.
  induction s as [|a s IH]; intros [|n] Hn; simpl in *; try done; try lia.
  rewrite IH; lia.
Qed.

Lemma slice_to_prefix s n :
  ∃ rest, s = middleware.slice_to s n +:+ rest.
Proof.
  unfold middleware.slice_to. revert n.
  induction s as [|a s IH]; intros [|n]; simpl.
  - by exists "".
  - by exists "".
  - by exists (String a s).
  - destruct (IH n) as [rest Hrest]. exists rest. by rewrite <- Hrest.
Qed.

Lemma Truncate_short s maxLen :
  Z.of_nat (String.length s) ≤ maxLen → stringutil.Truncate s maxLen = Some s.
Proof.
  intros Hshort. unfold stringutil.Truncate.
  by rewrite (proj2 (Z.leb_le _ _) Hshort).
Qed.
End TruncateFacts.

(** X26.  [Truncate].  A negative [maxLen] panics.  Otherwise the result has
    [min(len(s), maxLen)] bytes: it is [s] when [s] is short enough, the
    first [maxLen] bytes of [s] when [maxLen <= 3], and the first
    [maxLen - 3] bytes of [s] followed by three dots in the other cases;
    truncating the result again changes nothing. *)
Theorem X26_truncate (s : string) (maxLen : Z) :
  (maxLen < 0 → stringutil.Truncate s maxLen = None) ∧
  (0 ≤ maxLen →
   ∃ t, stringutil.Truncate s maxLen = Some t ∧
        Z.of_nat (String.length t) = Z.min (Z.of_nat (String.length s)) maxLen ∧
        (Z.of_nat (String.length s) ≤ maxLen → t = s) ∧
        (maxLen < Z.of_nat (String.length s) →
         ∃ kept rest, s = kept +:+ rest ∧
                      t = kept +:+ (if maxLen <=? 3 then "" else "...")) ∧
        stringutil.Truncate t maxLen = Some t).
Proof.
  split.
  - intros Hneg. unfold stringutil.Truncate.
    rewrite (proj2 (Z.leb_gt _ _)) by lia.
    rewrite (proj2 (Z.leb_le _ _)) by lia.
    by rewrite (proj2 (Z.ltb_lt _ _)) by lia.
  - intros Hmax.
    destruct (Z.of_nat (String.length s) <=? maxLen) eqn:Hshort.
    + apply Z.leb_le in Hshort. exists s.
      split_and!; [by apply Truncate_short | lia | done | lia
                  | by apply Truncate_short].
    + apply Z.leb_gt in Hshort. unfold stringutil.Truncate at 1.
      rewrite (proj2 (Z.leb_gt _ _)) by lia.
      destruct (maxLen <=? 3) eqn:Hsmall.
      * apply Z.leb_le in Hsmall.
        rewrite (proj2 (Z.ltb_ge _ _)) by lia.
        assert (Hlen : String.length (middleware.slice_to s (Z.to_nat maxLen))
                       = Z.to_nat maxLen) by (apply slice_to_length; lia).
        eexists. split_and!; [done | lia | lia | | apply Truncate_short; lia].
        intros _. destruct (slice_to_prefix s (Z.to_nat maxLen)) as [rest Hrest].
        exists (middleware.slice_to s (Z.to_nat maxLen)), rest.
        split; [done | by rewrite append_empty_r].
      * apply Z.leb_gt in Hsmall.
        assert (Hlen : String.length
                         (middleware.slice_to s (Z.to_nat (maxLen - 3)) +:+ "...")
                       = Z.to_nat maxLen).
        { rewrite length_append, slice_to_length by lia. simpl. lia. }
        eexists. split_and!; [done | lia | lia | | apply Truncate_short; lia].
        intros _.
        destruct (slice_to_prefix s (Z.to_nat (maxLen - 3))) as [rest Hrest].
        by exists (middleware.slice_to s (Z.to_nat (maxLen - 3))), rest.
Qed.

Lemma X26_truncate_witness :
  stringutil.Truncate "bookshelf" (-1) = None ∧
  stringutil.Truncate "bookshelf" 7 = Some "book...".
Proof.
  destruct (X26_truncate "bookshelf" (-1)) as [Hpanic _].
  destruct (X26_truncate "bookshelf" 7) as [_ Hsome].
  split.
  - apply Hpanic. lia.
  - destruct Hsome as (t & Htruncate & _); [lia|].
    rewrite Htruncate. vm_compute in Htruncate. by rewrite Htruncate.
Defined.

(** ** ISBN check digits *)

Ltac bool_props :=
  repeat match goal with
  | H : (_ || _) = true |- _ =>
      apply orb_true_iff in H;
      rewrite ?Z.eqb_eq, ?Z.ltb_lt, ?Z.leb_le in H
  | H : (_ || _) = false |- _ => apply orb_false_iff in H; destruct H
  | H : (_ && _) = true |- _ => apply andb_true_iff in H; destruct H
  | H : (_ && _) = false |- _ =>
      apply andb_false_iff in H;
      rewrite ?Z.eqb_neq, ?Z.ltb_ge, ?Z.leb_gt in H
  | H : (_ <? _) = true |- _ => apply Z.ltb_lt in H
  | H : (_ <? _) = false |- _ => apply Z.ltb_ge in H
  | H : (_ <=? _) = true |- _ => apply Z.leb_le in H
  | H : (_ <=? _) = false |- _ => apply Z.leb_gt in H
  | H : (_ =? _) = true |- _ => apply Z.eqb_eq in H
  | H : (_ =? _) = false |- _ => apply Z.eqb_neq in H
  end.

Ltac digit_case c :=
  destruct ((validator.byte c <? 48) || (57 <? validator.byte c)) eqn:?;
  [eexists; split; [reflexivity|]; bool_props;
   split; [discriminate | lia] |].

Section ISBNFacts.
Implicit Types (c d : ascii) (a b s isbn value : string).
Local Arguments String.append : simpl nomatch.
Local Arguments validator.byte : simpl never.

Lemma isValidISBN10_loop_step fuel isbn i sum (x : Z) :
  (i <? 9) = true → validator.index isbn i = Some x →
  validator.isValidISBN10_loop (S fuel) isbn i sum
  = if (x <? 48) || (57 <? x) then Some None
    else validator.isValidISBN10_loop fuel isbn (i + 1)
           (sum + (x - 48) * (10 - i)).
Proof. intros Hi Hc. cbn [validator.isValidISBN10_loop]. by rewrite Hi, Hc. Qed.

Lemma isValidISBN10_loop_end fuel isbn i sum :
  (i <? 9) = false →
  validator.isValidISBN10_loop fuel isbn i sum = Some (Some sum).
Proof. intros Hi. destruct fuel; cbn [validator.isValidISBN10_loop]; by rewrite Hi. Qed.

Lemma isValidISBN10_chars c0 c1 c2 c3 c4 c5 c6 c7 c8 c9 :
  let v := validator.byte in
  let sum := 10 * (v c0 - 48) + 9 * (v c1 - 48) + 8 * (v c2 - 48)
             + 7 * (v c3 - 48) + 6 * (v c4 - 48) + 5 * (v c5 - 48)
             + 4 * (v c6 - 48) + 3 * (v c7 - 48) + 2 * (v c8 - 48) in
  ∃ valid,
    validator.isValidISBN10
      (String c0 (String c1 (String c2 (String c3 (String c4 (String c5
        (String c6 (String c7 (String c8 (String c9 "")))))))))) = Some valid ∧
    (valid = true ↔
     (48 ≤ v c0 ≤ 57 ∧ 48 ≤ v c1 ≤ 57 ∧ 48 ≤ v c2 ≤ 57 ∧ 48 ≤ v c3 ≤ 57 ∧
      48 ≤ v c4 ≤ 57 ∧ 48 ≤ v c5 ≤ 57 ∧ 48 ≤ v c6 ≤ 57 ∧ 48 ≤ v c7 ≤ 57 ∧
      48 ≤ v c8 ≤ 57) ∧
     (((v c9 = 88 ∨ v c9 = 120) ∧ (sum + 10) mod 11 = 0) ∨
      (48 ≤ v c9 ≤ 57 ∧ (sum + (v c9 - 48)) mod 11 = 0))).
Proof.
  intros v sum. subst v sum. unfold validator.isValidISBN10.
  set (isbn := String c0 _).
  change (negb (String.length isbn =? 10)%nat) with false. cbv iota.
  rewrite (isValidISBN10_loop_step _ isbn _ _ (validator.byte c0)) by reflexivity.
  rewrite (isValidISBN10_loop_step _ isbn _ _ (validator.byte c1)) by reflexivity.
  rewrite (isValidISBN10_loop_step _ isbn _ _ (validator.byte c2)) by reflexivity.
  rewrite (isValidISBN10_loop_step _ isbn _ _ (validator.byte c3)) by reflexivity.
  rewrite (isValidISBN10_loop_step _ isbn _ _ (validator.byte c4)) by reflexivity.
  rewrite (isValidISBN10_loop_step _ isbn _ _ (validator.byte c5)) by reflexivity.
  rewrite (isValidISBN10_loop_step _ isbn _ _ (validator.byte c6)) by reflexivity.
  rewrite (isValidISBN10_loop_step _ isbn _ _ (validator.byte c7)) by reflexivity.
  rewrite (isValidISBN10_loop_step _ isbn _ _ (validator.byte c8)) by reflexivity.
  rewrite (isValidISBN10_loop_end _ isbn _) by reflexivity.
  change (validator.index isbn 9) with (Some (validator.byte c9)).
  digit_case c0. digit_case c1. digit_case c2. digit_case c3. digit_case c4.
  digit_case c5. digit_case c6. digit_case c7. digit_case c8.
  bool_props.
  destruct ((validator.byte c9 =? 88) || (validator.byte c9 =? 120)) eqn:Hx;
    [|destruct ((48 <=? validator.byte c9) && (validator.byte c9 <=? 57))
        eqn:Hlast];
    (eexists; split; [reflexivity|]); rewrite ?Z.eqb_eq; bool_props.
  - split; [intros Hsum; split; [lia|left; split; [lia|]]
           | intros [_ [[_ Hsum]|[Hlast Hsum]]]].
    + rewrite <- Hsum. f_equal. lia.
    + rewrite <- Hsum. f_equal. lia.
    + lia.
  - split; [intros Hsum; split; [lia|right; split; [lia|]]
           | intros [_ [[Hlast' Hsum]|[_ Hsum]]]].
    + rewrite <- Hsum. f_equal. lia.
    + lia.
    + rewrite <- Hsum. f_equal. lia.
  - split; [discriminate | intros [_ [[Hlast' _]|[Hlast' _]]]; lia].
Qed.

Lemma mod_eq_0 (x m : Z) : x mod m = 0 → m ≠ 0 → ∃ k, x = m * k.
Proof.
  intros Hmod Hm. exists (x / m). pose proof (Z.div_mod x m Hm). lia.
Qed.

Lemma byte_inj c d : validator.byte c = validator.byte d → c = d.
Proof.
  unfold validator.byte. intros Heq%Nat2Z.inj.
  by rewrite <- (ascii_nat_embedding c), <- (ascii_nat_embedding d), Heq.
Qed.

Lemma isValidISBN10_length isbn :
  validator.isValidISBN10 isbn = Some true → String.length isbn = 10%nat.
Proof.
  unfold validator.isValidISBN10.
  destruct (String.length isbn =? 10)%nat eqn:Hlen; [|discriminate].
  intros _. by apply Nat.eqb_eq.
Qed.

Ltac split_chars Hlen a :=
  repeat (destruct a as [|? a]; simpl in Hlen; [|try lia]).

Ltac isbn10_chars_of H :=
  match type of H with
  | validator.isValidISBN10
      (String ?c0 (String ?c1 (String ?c2 (String ?c3 (String ?c4 (String ?c5
        (String ?c6 (String ?c7 (String ?c8 (String ?c9 "")))))))))) = _ =>
      let valid := fresh "valid" in
      let Heq := fresh "Heq" in
      let Hiff := fresh "Hiff" in
      destruct (isValidISBN10_chars c0 c1 c2 c3 c4 c5 c6 c7 c8 c9)
        as (valid & Heq & Hiff);
      rewrite H in Heq; injection Heq as <-
  end.

Lemma isValidISBN10_single_error a b c c' :
  validator.isValidISBN10 (a +:+ String c b) = Some true →
  c' ≠ c → is_x c && is_x c' = false →
  validator.isValidISBN10 (a +:+ String c' b) = Some false.
Proof.
  intros Hvalid Hne Hx.
  assert (Hbytes : validator.byte c' ≠ validator.byte c)
    by (intros Heq; by apply Hne, byte_inj).
  unfold is_x in Hx. bool_props.
  pose proof (isValidISBN10_length _ Hvalid) as Hlen.
  rewrite length_append in Hlen. simpl in Hlen.
  split_chars Hlen a; split_chars Hlen b; try lia; simpl in Hvalid |- *.
  all: isbn10_chars_of Hvalid.
  all: match goal with
       | |- validator.isValidISBN10
              (String ?c0 (String ?c1 (String ?c2 (String ?c3 (String ?c4
                (String ?c5 (String ?c6 (String ?c7 (String ?c8
                  (String ?c9 "")))))))))) = _ =>
           destruct (isValidISBN10_chars c0 c1 c2 c3 c4 c5 c6 c7 c8 c9)
             as ([|] & -> & Hiff'); [exfalso|done]
       end.
  all: destruct Hiff as [Hiff _]; destruct Hiff' as [Hiff' _].
  all: specialize (Hiff eq_refl); specialize (Hiff' eq_refl).
  all: cbv zeta in Hiff, Hiff'.
  all: destruct Hiff as [Hdigits [[Hlast Hsum]|[Hlast Hsum]]];
       destruct Hiff' as [Hdigits' [[Hlast' Hsum']|[Hlast' Hsum']]].
  all: apply mod_eq_0 in Hsum as [k Hsum]; [|done].
  all: apply mod_eq_0 in Hsum' as [k' Hsum']; [|done].
  all: destruct Hx; bool_props; lia.
Qed.

Ltac isbn10_chars_goal Hiff' :=
  match goal with
  | |- validator.isValidISBN10
         (String ?c0 (String ?c1 (String ?c2 (String ?c3 (String ?c4
           (String ?c5 (String ?c6 (String ?c7 (String ?c8
             (String ?c9 "")))))))))) = _ =>
      destruct (isValidISBN10_chars c0 c1 c2 c3 c4 c5 c6 c7 c8 c9)
        as ([|] & -> & Hiff')
  end.

Lemma isValidISBN13_loop_even fuel isbn i sum (x : Z) :
  (i <? 13) = true → (i mod 2 =? 0) = true →
  validator.index isbn i = Some x →
  validator.isValidISBN13_loop (S fuel) isbn i sum
  = if (x <? 48) || (57 <? x) then Some None
    else validator.isValidISBN13_loop fuel isbn (i + 1) (sum + (x - 48)).
Proof.
  intros Hi Heven Hc. cbn [validator.isValidISBN13_loop].
  by rewrite Hi, Hc, Heven.
Qed.

Lemma isValidISBN13_loop_odd fuel isbn i sum (x : Z) :
  (i <? 13) = true → (i mod 2 =? 0) = false →
  validator.index isbn i = Some x →
  validator.isValidISBN13_loop (S fuel) isbn i sum
  = if (x <? 48) || (57 <? x) then Some None
    else validator.isValidISBN13_loop fuel isbn (i + 1) (sum + (x - 48) * 3).
Proof.
  intros Hi Hodd Hc. cbn [validator.isValidISBN13_loop].
  by rewrite Hi, Hc, Hodd.
Qed.

Lemma isValidISBN13_loop_end fuel isbn i sum :
  (i <? 13) = false →
  validator.isValidISBN13_loop fuel isbn i sum = Some (Some sum).
Proof.
  intros Hi. destruct fuel; cbn [validator.isValidISBN13_loop]; by rewrite Hi.
Qed.

(** [isValidISBN13] on thirteen bytes: the digits weighted 1, 3, 1, 3, ... *)
Lemma isValidISBN13_chars c0 c1 c2 c3 c4 c5 c6 c7 c8 c9 c10 c11 c12 :
  let v := validator.byte in
  let sum := (v c0 - 48) + 3 * (v c1 - 48) + (v c2 - 48) + 3 * (v c3 - 48) + (v c4 - 48) + 3 * (v c5 - 48) + (v c6 - 48) + 3 * (v c7 - 48) + (v c8 - 48) + 3 * (v c9 - 48) + (v c10 - 48) + 3 * (v c11 - 48) + (v c12 - 48) in
  ∃ valid,
    validator.isValidISBN13
      (String c0 (String c1 (String c2 (String c3 (String c4 (String c5 (String c6 (String c7 (String c8 (String c9 (String c10 (String c11 (String c12 ""))))))))))))) = Some valid ∧
    (valid = true ↔
     (48 ≤ v c0 ≤ 57 ∧ 48 ≤ v c1 ≤ 57 ∧ 48 ≤ v c2 ≤ 57 ∧ 48 ≤ v c3 ≤ 57 ∧ 48 ≤ v c4 ≤ 57 ∧ 48 ≤ v c5 ≤ 57 ∧ 48 ≤ v c6 ≤ 57 ∧ 48 ≤ v c7 ≤ 57 ∧ 48 ≤ v c8 ≤ 57 ∧ 48 ≤ v c9 ≤ 57 ∧ 48 ≤ v c10 ≤ 57 ∧ 48 ≤ v c11 ≤ 57 ∧ 48 ≤ v c12 ≤ 57) ∧
     sum mod 10 = 0).
Proof.
  intros v sum. subst v sum. unfold validator.isValidISBN13.
  set (isbn := String c0 _).
  change (negb (String.length isbn =? 13)%nat) with false. cbv iota.
  rewrite (isValidISBN13_loop_even _ isbn _ _ (validator.byte c0)) by reflexivity.
  rewrite (isValidISBN13_loop_odd _ isbn _ _ (validator.byte c1)) by reflexivity.
  rewrite (isValidISBN13_loop_even _ isbn _ _ (validator.byte c2)) by reflexivity.
  rewrite (isValidISBN13_loop_odd _ isbn _ _ (validator.byte c3)) by reflexivity.
  rewrite (isValidISBN13_loop_even _ isbn _ _ (validator.byte c4)) by reflexivity.
  rewrite (isValidISBN13_loop_odd _ isbn _ _ (validator.byte c5)) by reflexivity.
  rewrite (isValidISBN13_loop_even _ isbn _ _ (validator.byte c6)) by reflexivity.
  rewrite (isValidISBN13_loop_odd _ isbn _ _ (validator.byte c7)) by reflexivity.
  rewrite (isValidISBN13_loop_even _ isbn _ _ (validator.byte c8)) by reflexivity.
  rewrite (isValidISBN13_loop_odd _ isbn _ _ (validator.byte c9)) by reflexivity.
  rewrite (isValidISBN13_loop_even _ isbn _ _ (validator.byte c10)) by reflexivity.
  rewrite (isValidISBN13_loop_odd _ isbn _ _ (validator.byte c11)) by reflexivity.
  rewrite (isValidISBN13_loop_even _ isbn _ _ (validator.byte c12)) by reflexivity.
  rewrite (isValidISBN13_loop_end _ isbn _) by reflexivity.
  digit_case c0. digit_case c1. digit_case c2. digit_case c3. digit_case c4. digit_case c5. digit_case c6. digit_case c7. digit_case c8. digit_case c9. digit_case c10. digit_case c11. digit_case c12.
  bool_props. eexists. split; [reflexivity|]. rewrite Z.eqb_eq.
  split; [intros Hsum; split; [lia|] | intros [_ Hsum]];
    rewrite <- Hsum; f_equal; lia.
Qed.

Lemma isValidISBN13_length isbn :
  validator.isValidISBN13 isbn = Some true → String.length isbn = 13%nat.
Proof.
  unfold validator.isValidISBN13.
  destruct (String.length isbn =? 13)%nat eqn:Hlen; [|discriminate].
  intros _. by apply Nat.eqb_eq.
Qed.

Ltac isbn13_chars_of H :=
  match type of H with
  | validator.isValidISBN13
      (String ?c0 (String ?c1 (String ?c2 (String ?c3 (String ?c4 (String ?c5 (String ?c6 (String ?c7 (String ?c8 (String ?c9 (String ?c10 (String ?c11 (String ?c12 ""))))))))))))) = _ =>
      let valid := fresh "valid" in
      let Heq := fresh "Heq" in
      let Hiff := fresh "Hiff" in
      destruct (isValidISBN13_chars c0 c1 c2 c3 c4 c5 c6 c7 c8 c9 c10 c11 c12)
        as (valid & Heq & Hiff);
      rewrite H in Heq; injection Heq as <-
  end.

Ltac isbn13_chars_goal Hiff' :=
  match goal with
  | |- validator.isValidISBN13
         (String ?c0 (String ?c1 (String ?c2 (String ?c3 (String ?c4 (String ?c5 (String ?c6 (String ?c7 (String ?c8 (String ?c9 (String ?c10 (String ?c11 (String ?c12 ""))))))))))))) = _ =>
      destruct (isValidISBN13_chars c0 c1 c2 c3 c4 c5 c6 c7 c8 c9 c10 c11 c12)
        as ([|] & -> & Hiff')
  end.

Lemma mod_eq_0_intro (x m k : Z) : x = m * k → m ≠ 0 → x mod m = 0.
Proof. intros -> Hm. by rewrite Z.mul_comm, Z.mod_mul. Qed.

Lemma isValidISBN10_transposition a b c d :
  validator.isValidISBN10 (a +:+ String c (String d b)) = Some true →
  c ≠ d →
  validator.isValidISBN10 (a +:+ String d (String c b)) = Some false.
Proof.
  intros Hvalid Hne.
  assert (Hbytes : validator.byte c ≠ validator.byte d)
    by (intros Heq; by apply Hne, byte_inj).
  pose proof (isValidISBN10_length _ Hvalid) as Hlen.
  rewrite length_append in Hlen. simpl in Hlen.
  split_chars Hlen a; split_chars Hlen b; try lia; simpl in Hvalid |- *.
  all: isbn10_chars_of Hvalid.
  all: isbn10_chars_goal Hiff'; [exfalso|done].
  all: destruct Hiff as [Hiff _]; destruct Hiff' as [Hiff' _].
  all: specialize (Hiff eq_refl); specialize (Hiff' eq_refl).
  all: cbv zeta in Hiff, Hiff'.
  all: destruct Hiff as [Hdigits [[Hlast Hsum]|[Hlast Hsum]]];
       destruct Hiff' as [Hdigits' [[Hlast' Hsum']|[Hlast' Hsum']]].
  all: apply mod_eq_0 in Hsum as [k Hsum]; [|done].
  all: apply mod_eq_0 in Hsum' as [k' Hsum']; [|done].
  all: lia.
Qed.

Lemma isValidISBN13_single_error a b c c' :
  validator.isValidISBN13 (a +:+ String c b) = Some true →
  c' ≠ c →
  validator.isValidISBN13 (a +:+ String c' b) = Some false.
Proof.
  intros Hvalid Hne.
  assert (Hbytes : validator.byte c' ≠ validator.byte c)
    by (intros Heq; by apply Hne, byte_inj).
  pose proof (isValidISBN13_length _ Hvalid) as Hlen.
  rewrite length_append in Hlen. simpl in Hlen.
  split_chars Hlen a; split_chars Hlen b; try lia; simpl in Hvalid |- *.
  all: isbn13_chars_of Hvalid.
  all: isbn13_chars_goal Hiff'; [exfalso|done].
  all: destruct Hiff as [Hiff _]; destruct Hiff' as [Hiff' _].
  all: specialize (Hiff eq_refl); specialize (Hiff' eq_refl).
  all: cbv zeta in Hiff, Hiff'.
  all: destruct Hiff as [Hdigits Hsum]; destruct Hiff' as [Hdigits' Hsum'].
  all: apply mod_eq_0 in Hsum as [k Hsum]; [|done].
  all: apply mod_eq_0 in Hsum' as [k' Hsum']; [|done].
  all: lia.
Qed.

Lemma isValidISBN13_transposition a b c d :
  validator.isValidISBN13 (a +:+ String c (String d b)) = Some true →
  validator.isValidISBN13 (a +:+ String d (String c b))
  = Some (bool_decide (validator.byte c = validator.byte d) ||
          (Z.abs (validator.byte c - validator.byte d) =? 5)).
Proof.
  intros Hvalid.
  pose proof (isValidISBN13_length _ Hvalid) as Hlen.
  rewrite length_append in Hlen. simpl in Hlen.
  split_chars Hlen a; split_chars Hlen b; try lia; simpl in Hvalid |- *.
  all: isbn13_chars_of Hvalid.
  all: destruct Hiff as [Hiff _]; specialize (Hiff eq_refl).
  all: cbv zeta in Hiff; destruct Hiff as [Hdigits Hsum].
  all: apply mod_eq_0 in Hsum as [k Hsum]; [|done].
  all: isbn13_chars_goal Hiff'; cbv zeta in Hiff'; f_equal; symmetry.
  all: try (destruct Hiff' as [Hiff' _]; specialize (Hiff' eq_refl);
            destruct Hiff' as [Hdigits' Hsum'];
            apply mod_eq_0 in Hsum' as [k' Hsum']; [|done];
            apply orb_true_iff; rewrite bool_decide_eq_true, Z.eqb_eq; lia).
  all: apply orb_false_iff; rewrite bool_decide_eq_false, Z.eqb_neq.
  all: split; intros Hdiff.
  all: assert (true = true → False) as []; [|done].
  all: intros _; enough (false = true) by done; apply Hiff'.
  all: (split; [lia|]).
  all: try (apply (mod_eq_0_intro _ 10 k); lia).
  all: assert (validator.byte c - validator.byte d = 5
               ∨ validator.byte c - validator.byte d = -5) as [Hfive|Hfive]
         by lia.
  all: try (apply (mod_eq_0_intro _ 10 (k + 1)); lia).
  all: apply (mod_eq_0_intro _ 10 (k - 1)); lia.
Qed.

Lemma isValidISBN10_wrong_length isbn :
  String.length isbn ≠ 10%nat → validator.isValidISBN10 isbn = Some false.
Proof.
  intros Hlen%Nat.eqb_neq. unfold validator.isValidISBN10. by rewrite Hlen.
Qed.

Lemma isValidISBN13_wrong_length isbn :
  String.length isbn ≠ 13%nat → validator.isValidISBN13 isbn = Some false.
Proof.
  intros Hlen%Nat.eqb_neq. unfold validator.isValidISBN13. by rewrite Hlen.
Qed.

(** The index of neither check leaves the string. *)
Lemma isValidISBN10_total isbn :
  ∃ valid, validator.isValidISBN10 isbn = Some valid.
Proof.
  destruct (decide (String.length isbn = 10%nat)) as [Hlen|Hlen];
    [|exists false; by apply isValidISBN10_wrong_length].
  split_chars Hlen isbn; try lia.
  match goal with
  | |- ∃ _, validator.isValidISBN10
         (String ?c0 (String ?c1 (String ?c2 (String ?c3 (String ?c4
           (String ?c5 (String ?c6 (String ?c7 (String ?c8
             (String ?c9 "")))))))))) = _ =>
      destruct (isValidISBN10_chars c0 c1 c2 c3 c4 c5 c6 c7 c8 c9)
        as (valid & Heq & _)
  end.
  by exists valid.
Qed.

Lemma isValidISBN13_total isbn :
  ∃ valid, validator.isValidISBN13 isbn = Some valid.
Proof.
  destruct (decide (String.length isbn = 13%nat)) as [Hlen|Hlen];
    [|exists false; by apply isValidISBN13_wrong_length].
  split_chars Hlen isbn; try lia.
  match goal with
  | |- ∃ _, validator.isValidISBN13
         (String ?c0 (String ?c1 (String ?c2 (String ?c3 (String ?c4
           (String ?c5 (String ?c6 (String ?c7 (String ?c8 (String ?c9
             (String ?c10 (String ?c11 (String ?c12 ""))))))))))))) = _ =>
      destruct (isValidISBN13_chars c0 c1 c2 c3 c4 c5 c6 c7 c8 c9 c10 c11 c12)
        as (valid & Heq & _)
  end.
  by exists valid.
Qed.

Lemma ReplaceAll_byte_app a b (old : ascii) :
  validator.ReplaceAll_byte (a +:+ b) old
  = validator.ReplaceAll_byte a old +:+ validator.ReplaceAll_byte b old.
Proof.
  induction a as [|c a IH]; simpl; [done|].
  rewrite IH. by destruct (Ascii.eqb c old).
Qed.

Lemma ReplaceAll_byte_cons_ne c b (old : ascii) :
  c ≠ old →
  validator.ReplaceAll_byte (String c b) old
  = String c (validator.ReplaceAll_byte b old).
Proof. intros Hne%Ascii.eqb_neq. simpl. by rewrite Hne. Qed.

Lemma ReplaceAll_byte_cons_eq b (old : ascii) :
  validator.ReplaceAll_byte (String old b) old = validator.ReplaceAll_byte b old.
Proof. simpl. by rewrite Ascii.eqb_refl. Qed.

Lemma ISBN_outcomes value :
  validator.ISBN value = Some None ∨
  validator.ISBN value = Some (Some validator.ErrInvalidISBN).
Proof.
  unfold validator.ISBN.
  destruct (isValidISBN10_total (validator.ReplaceAll_byte value validator.hyphen))
    as [[|] ->];
    destruct (isValidISBN13_total
                (validator.ReplaceAll_byte value validator.hyphen)) as [[|] ->];
    repeat case_match; auto.
Qed.

Lemma ISBN_nil_inv value :
  validator.ISBN value = Some None →
  validator.isValidISBN10 (validator.ReplaceAll_byte value validator.hyphen)
  = Some true ∨
  validator.isValidISBN13 (validator.ReplaceAll_byte value validator.hyphen)
  = Some true.
Proof.
  unfold validator.ISBN. intros Hnil.
  repeat case_match; simplify_eq; auto.
Qed.

Lemma ISBN_reject value :
  validator.isValidISBN10 (validator.ReplaceAll_byte value validator.hyphen)
  = Some false →
  validator.isValidISBN13 (validator.ReplaceAll_byte value validator.hyphen)
  = Some false →
  validator.ISBN value = Some (Some validator.ErrInvalidISBN).
Proof.
  unfold validator.ISBN. intros -> ->. by repeat case_match.
Qed.

(** X27.  [ISBN] never panics and has two outcomes, [nil] and
    [ErrInvalidISBN]; it accepts only values with ten or thirteen bytes
    other than hyphens, and a hyphen more, wherever it stands, changes
    nothing. *)
Theorem X27_isbn_hyphens (value a b : string) :
  (validator.ISBN value = Some None ∨
   validator.ISBN value = Some (Some validator.ErrInvalidISBN)) ∧
  (validator.ISBN value = Some None →
   String.length (validator.ReplaceAll_byte value validator.hyphen) = 10%nat ∨
   String.length (validator.ReplaceAll_byte value validator.hyphen) = 13%nat) ∧
  validator.ISBN (a +:+ String validator.hyphen b) = validator.ISBN (a +:+ b).
Proof.
  split_and!.
  - apply ISBN_outcomes.
  - intros [Hvalid|Hvalid]%ISBN_nil_inv.
    + left. by apply isValidISBN10_length.
    + right. by apply isValidISBN13_length.
  - unfold validator.ISBN.
    by rewrite !ReplaceAll_byte_app, ReplaceAll_byte_cons_eq.
Qed.

(** X28.  [ISBN], [isValidISBN10] and [isValidISBN13] find every single
    wrong byte: a value that [ISBN] accepts is rejected once one of its
    bytes is replaced by another one.  The one exception is the check digit
    ten of an ISBN-10, which is accepted as [X] and as [x]. *)
Theorem X28_isbn_single_error (a b : string) (c c' : ascii) :
  validator.ISBN (a +:+ String c b) = Some None →
  c' ≠ c → is_x c && is_x c' = false →
  validator.ISBN (a +:+ String c' b) = Some (Some validator.ErrInvalidISBN).
Proof.
  intros Hnil Hne Hx. apply ISBN_nil_inv in Hnil.
  rewrite ReplaceAll_byte_app in Hnil.
  apply ISBN_reject; rewrite ReplaceAll_byte_app.
  all: set (a' := validator.ReplaceAll_byte a validator.hyphen) in *.
  all: set (b' := validator.ReplaceAll_byte b validator.hyphen) in *.
  all: assert (Hlen : ∀ s, String.length (a' +:+ s)
                           = (String.length a' + String.length s)%nat)
         by (intros s; apply length_append).
  all: destruct (decide (c = validator.hyphen)) as [->|Hc];
       destruct (decide (c' = validator.hyphen)) as [->|Hc'];
       rewrite ?ReplaceAll_byte_cons_eq, ?ReplaceAll_byte_cons_ne in * by done;
       fold b' in Hnil |- *; try done.
  all: destruct Hnil as [Hvalid|Hvalid].
  all: try (pose proof (isValidISBN10_length _ Hvalid) as Hten;
            rewrite Hlen in Hten).
  all: try (pose proof (isValidISBN13_length _ Hvalid) as Hten;
            rewrite Hlen in Hten).
  all: try (apply isValidISBN10_wrong_length; rewrite Hlen; simpl in *; lia).
  all: try (apply isValidISBN13_wrong_length; rewrite Hlen; simpl in *; lia).
  all: try (by apply (isValidISBN10_single_error a' b' c c')).
  all: by apply (isValidISBN13_single_error a' b' c c').
Qed.

(** X29.  [ISBN] and the exchange of two neighbouring bytes, neither of
    them a hyphen, of a value it accepts: an ISBN-10 with the two bytes
    exchanged is always rejected; an ISBN-13 is rejected unless the two
    digits differ by five, and then it is accepted. *)
Theorem X29_isbn_transposition (a b : string) (c d : ascii) :
  validator.ISBN (a +:+ String c (String d b)) = Some None →
  c ≠ d → c ≠ validator.hyphen → d ≠ validator.hyphen →
  validator.ISBN (a +:+ String d (String c b))
  = if (String.length
          (validator.ReplaceAll_byte (a +:+ String c (String d b))
             validator.hyphen) =? 13)%nat
       && (Z.abs (validator.byte c - validator.byte d) =? 5)
    then Some None else Some (Some validator.ErrInvalidISBN).
Proof.
  intros Hnil Hne Hc Hd. apply ISBN_nil_inv in Hnil.
  assert (Hbytes : validator.byte c ≠ validator.byte d)
    by (intros Heq; by apply Hne, byte_inj).
  rewrite ReplaceAll_byte_app, !ReplaceAll_byte_cons_ne in Hnil |- * by done.
  set (a' := validator.ReplaceAll_byte a validator.hyphen) in *.
  set (b' := validator.ReplaceAll_byte b validator.hyphen) in *.
  assert (Hlen : ∀ s, String.length (a' +:+ s)
                      = (String.length a' + String.length s)%nat)
    by (intros s; apply length_append).
  destruct Hnil as [Hvalid|Hvalid].
  - pose proof (isValidISBN10_length _ Hvalid) as Hten.
    rewrite Hten. simpl. rewrite Hlen in Hten.
    apply ISBN_reject;
      rewrite ReplaceAll_byte_app, !ReplaceAll_byte_cons_ne by done;
      fold a' b'.
    + by apply isValidISBN10_transposition.
    + apply isValidISBN13_wrong_length. rewrite Hlen. simpl in *. lia.
  - pose proof (isValidISBN13_length _ Hvalid) as Hten.
    rewrite Hten. simpl.
    unfold validator.ISBN.
    rewrite ReplaceAll_byte_app, !ReplaceAll_byte_cons_ne by done.
    fold a' b'.
    assert (Hlen' : String.length (a' +:+ String d (String c b')) = 13%nat)
      by (rewrite Hlen in Hten |- *; simpl in *; lia).
    rewrite Hlen'. simpl.
    rewrite (isValidISBN13_transposition a' b' c d Hvalid).
    rewrite bool_decide_eq_false_2 by done. simpl.
    by destruct (Z.abs _ =? 5).
Qed.
End ISBNFacts.

Lemma X27_isbn_hyphens_witness :
  validator.ISBN "0-306-40615-2" = validator.ISBN "0306-40615-2".
Proof.
  destruct (X27_isbn_hyphens "" "0" "306-40615-2") as (_ & _ & Hhyphen).
  exact Hhyphen.
Defined.

Lemma X28_isbn_single_error_witness :
  validator.ISBN "978-0-306-40615-7" = Some None ∧
  validator.ISBN "978-0-806-40615-7" = Some (Some validator.ErrInvalidISBN).
Proof.
  split; [reflexivity|].
  apply (X28_isbn_single_error "978-0-" "06-40615-7" "3" "8").
  - reflexivity.
  - discriminate.
  - reflexivity.
Defined.

Lemma X29_isbn_transposition_witness :
  validator.ISBN "0306406152" = Some None ∧
  validator.ISBN "0306406125" = Some (Some validator.ErrInvalidISBN) ∧
  validator.ISBN "9780306406157" = Some None ∧
  validator.ISBN "9780306401657" = Some None.
Proof.
  split; [reflexivity|]. split; [|split; [reflexivity|]].
  - apply (X29_isbn_transposition "03064061" "" "5" "2");
      [reflexivity | discriminate | discriminate | discriminate].
  - apply (X29_isbn_transposition "978030640" "57" "6" "1");
      [reflexivity | discriminate | discriminate | discriminate].
Defined.
